(** * Order-lifecycle reconciliation and automated clearing engine

    A shallow embedding of [AutoClearManager.js] (tracked-order registry,
    fill classifier, reverse-order submission, clearing-price calculator,
    persistence) and of [detectOrderChanges] in [tradingDashboard.js]
    (snapshot differ), followed by the properties listed in the
    specification.

    JavaScript numbers are modelled twice.  [number] is the exact model:
    rationals without rounding, together with the special values NaN and
    +/-Infinity that govern the control flow of the source (division by
    zero, failed parses, [JSON.stringify]).  [float] is IEEE-754 binary64
    itself: the price calculator is transcribed once and run on both, and
    module [Binary64] holds the manager, its persistence and the snapshot
    differ on doubles, [parseFloat] and [toFixed] rounding as the
    interpreter does.  The properties that depend on how the program
    rounds are stated on [Binary64].

    Objects are records whose nullable properties are [slot]s; the
    [Map] of tracked orders and the persisted JSON object are finite maps
    ([gmap]), so the order of their entries is not modelled; the [Map] of
    open orders, whose iteration order decides the order of the events,
    is an association list.  The persisted file is kept as the JSON value
    it holds, not as its text.  Each [async] method is a state
    transformer: the poll cycle runs them one after the other.  The
    clock, the topic and depth services and the exchange are a [World]
    handed to each call. *)

From Stdlib Require Import ZArith QArith Qround Qabs Qminmax Lqa Lia Bool List.
From Stdlib Require Import Ascii String DecimalString DecimalZ DecimalPos DecimalN.
From Stdlib Require Import Floats.
From stdpp Require Import gmap strings list fin_maps.
From stdpp Require Import sorting.

Set Default Proof Using "Type".
Local Open Scope Z_scope.

(** ** JavaScript numbers, exact model *)

Inductive number : Type :=
| NaN
| Infinity (negative : bool)
| Num (q : Q).

Definition num_Z (z : Z) : number := Num (inject_Z z).

(** Decimal literal [m]e-[k], e.g. [decimal 1 1] is 0.1. *)
Definition Qdecimal (m : Z) (k : nat) : Q := Qred (inject_Z m / inject_Z (10 ^ Z.of_nat k)).
Definition decimal (m : Z) (k : nat) : number := Num (Qdecimal m k).

Definition Qltb (x y : Q) : bool := negb (Qle_bool y x).

Definition num_sub (a b : number) : number :=
  match a, b with
  | NaN, _ | _, NaN => NaN
  | Infinity s, Infinity t => if Bool.eqb s t then NaN else Infinity s
  | Infinity s, Num _ => Infinity s
  | Num _, Infinity t => Infinity (negb t)
  | Num x, Num y => Num (Qred (x - y))
  end.

Definition num_mul (a b : number) : number :=
  match a, b with
  | NaN, _ | _, NaN => NaN
  | Infinity s, Infinity t => Infinity (xorb s t)
  | Infinity s, Num y | Num y, Infinity s =>
      match y ?= 0 with
      | Eq => NaN
      | Lt => Infinity (negb s)
      | Gt => Infinity s
      end%Q
  | Num x, Num y => Num (Qred (x * y))
  end.

(** Division follows IEEE-754 on the special values; the exact model has a
    single zero, which behaves as +0. *)
Definition num_div (a b : number) : number :=
  match a, b with
  | NaN, _ | _, NaN => NaN
  | Infinity _, Infinity _ => NaN
  | Infinity s, Num y =>
      match y ?= 0 with Lt => Infinity (negb s) | _ => Infinity s end%Q
  | Num _, Infinity _ => Num 0
  | Num x, Num y =>
      match y ?= 0 with
      | Eq => match x ?= 0 with
              | Eq => NaN
              | Lt => Infinity true
              | Gt => Infinity false
              end
      | _ => Num (Qred (x / y))
      end%Q
  end.

(** [a < b]; every comparison with NaN is false. *)
Definition num_ltb (a b : number) : bool :=
  match a, b with
  | NaN, _ | _, NaN => false
  | Infinity s, Infinity t => s && negb t
  | Infinity s, Num _ => s
  | Num _, Infinity t => negb t
  | Num x, Num y => Qltb x y
  end.

(** [a <= b]. *)
Definition num_leb (a b : number) : bool :=
  match a, b with
  | NaN, _ | _, NaN => false
  | Infinity s, Infinity t => s || negb t
  | Infinity s, Num _ => s
  | Num _, Infinity t => negb t
  | Num x, Num y => Qle_bool x y
  end.

Definition num_gtb (a b : number) : bool := num_ltb b a.
Definition num_geb (a b : number) : bool := num_leb b a.

(** [Math.max(a, b)]: NaN when either argument is NaN. *)
Definition num_max (a b : number) : number :=
  match a, b with
  | NaN, _ | _, NaN => NaN
  | _, _ => if num_ltb a b then b else a
  end.

(** [Math.round(x)]: the nearest integer, ties towards +Infinity. *)
Definition num_round (a : number) : number :=
  match a with
  | Num x => num_Z (Qfloor (x + (1 # 2)))
  | _ => a
  end.

(** [!x] on a number: zero and NaN are falsy. *)
Definition num_falsy (a : number) : bool :=
  match a with
  | NaN => true
  | Infinity _ => false
  | Num x => Qeq_bool x 0
  end.

(** ** The arithmetic used by the price calculator

    [calculateClearPrice] only subtracts, multiplies, divides, compares,
    takes [Math.max] and [Math.round]; it is transcribed once over this
    interface and run on both number models. *)

Class JSNumber (N : Type) : Type := {
  js_lit : Z -> nat -> N;      (* the decimal literal m * 10^-k *)
  js_sub : N -> N -> N;
  js_mul : N -> N -> N;
  js_div : N -> N -> N;
  js_gtb : N -> N -> bool;
  js_leb : N -> N -> bool;
  js_max : N -> N -> N;        (* Math.max *)
  js_round : N -> N            (* Math.round *)
}.

#[export] Instance number_ops : JSNumber number := {|
  js_lit := decimal;
  js_sub := num_sub;
  js_mul := num_mul;
  js_div := num_div;
  js_gtb := num_gtb;
  js_leb := num_leb;
  js_max := num_max;
  js_round := num_round
|}.

(** *** binary64 *)

Definition float_of_Z (z : Z) : float :=
  match z with
  | Z0 => PrimFloat.zero
  | Zpos p => PrimFloat.of_uint63 (Uint63.of_Z (Zpos p))
  | Zneg p => PrimFloat.opp (PrimFloat.of_uint63 (Uint63.of_Z (Zpos p)))
  end.

(** A decimal literal denotes the double nearest to it; for a numerator
    and a power of ten below 2^53 that is their correctly rounded
    quotient. *)
Definition float_lit (m : Z) (k : nat) : float :=
  PrimFloat.div (float_of_Z m) (float_of_Z (10 ^ Z.of_nat k)).

Definition float_max (a b : float) : float :=
  if PrimFloat.is_nan a || PrimFloat.is_nan b then PrimFloat.nan
  else if PrimFloat.ltb a b then b
  else if PrimFloat.ltb b a then a
  else if PrimFloat.ltb (PrimFloat.div PrimFloat.one a) PrimFloat.zero then b
  else a.

(** [Math.round] on a double, computed on its exact value [m * 2^e]. *)
Definition float_round (x : float) : float :=
  match Prim2SF x with
  | S754_finite s m e =>
      if 0 <=? e then x
      else
        let d := 2 ^ (- e) in
        let n := if s then (d - 2 * Zpos m) / (2 * d)
                 else (2 * Zpos m + d) / (2 * d) in
        if (n =? 0) && s then PrimFloat.opp PrimFloat.zero else float_of_Z n
  | _ => x
  end.

#[export] Instance binary64_ops : JSNumber float := {|
  js_lit := float_lit;
  js_sub := PrimFloat.sub;
  js_mul := PrimFloat.mul;
  js_div := PrimFloat.div;
  js_gtb := fun a b => PrimFloat.ltb b a;
  js_leb := PrimFloat.leb;
  js_max := float_max;
  js_round := float_round
|}.

(** ** Order book (OrderBookAPI.js) *)

Module Level.
Record t (N : Type) : Type := mk { price : N; amount : N; total : N }.
Arguments mk {N}.
Arguments price {N}.
Arguments amount {N}.
Arguments total {N}.
End Level.

Module OrderBook.
(** [bids] and [asks] are [None] when the property is missing from the
    object; [getOrderBook] itself always fills both. *)
Record t (N : Type) : Type := mk {
  error : option string;
  bids : option (list (Level.t N));
  asks : option (list (Level.t N))
}.
Arguments mk {N}.
Arguments error {N}.
Arguments bids {N}.
Arguments asks {N}.
End OrderBook.

(** ** Clearing price calculator (AutoClearManager.js, calculateClearPrice) *)

Section Calculator.
Context {N : Type} `{JSNumber N}.

(** [None] is the source's [null]: no safe price. *)
Definition calculateClearPrice (costPrice : N) (orderBook : OrderBook.t N) : option N :=
  match OrderBook.bids orderBook with
  | None | Some [] => None
  | Some (bid :: _) =>
      match OrderBook.asks orderBook with
      | None | Some [] => None
      | Some (ask :: _) =>
          let bestBid := Level.price bid in
          let bestAsk := Level.price ask in
          let spread := js_sub bestAsk bestBid in
          let targetPrice :=
            if js_gtb spread (js_lit 1 1) then js_sub bestAsk (js_lit 1 1)
            else bestAsk in
          let targetPrice := js_max targetPrice costPrice in
          if js_leb targetPrice bestBid then None
          else Some (js_div (js_round (js_mul targetPrice (js_lit 1000 0)))
                            (js_lit 1000 0))
      end
  end.
End Calculator.

(** ** Strings read as numbers *)

(** ASCII white space skipped by [parseFloat] and [parseInt]. *)
Definition is_space (c : ascii) : bool :=
  let n := Z.of_N (N_of_ascii c) in
  (n =? 32) || ((9 <=? n) && (n <=? 13)).

Fixpoint skip_spaces (s : string) : string :=
  match s with
  | String c r => if is_space c then skip_spaces r else s
  | EmptyString => s
  end.

(** Value of a digit in the given radix, letters standing for 10 and up. *)
Definition digit_of (radix : Z) (c : ascii) : option Z :=
  let n := Z.of_N (N_of_ascii c) in
  let v := if (48 <=? n) && (n <=? 57) then Some (n - 48)
           else if (97 <=? n) && (n <=? 122) then Some (n - 87)
           else if (65 <=? n) && (n <=? 90) then Some (n - 55)
           else None in
  match v with
  | Some d => if d <? radix then Some d else None
  | None => None
  end.

(** The longest prefix of digits, and what follows it. *)
Fixpoint scan_digits (radix : Z) (s : string) : list Z * string :=
  match s with
  | String c r =>
      match digit_of radix c with
      | Some d => let '(ds, rest) := scan_digits radix r in (d :: ds, rest)
      | None => ([], s)
      end
  | EmptyString => ([], s)
  end.

Definition digits_value (radix : Z) (ds : list Z) : Z :=
  fold_left (fun acc d => radix * acc + d) ds 0.

Definition take_sign (s : string) : bool * string :=
  match s with
  | String "-"%char r => (true, r)
  | String "+"%char r => (false, r)
  | _ => (false, s)
  end.

(** [parseInt(s)] without a radix argument; [None] is NaN. *)
Definition parseInt (s : string) : option Z :=
  let '(negative, s1) := take_sign (skip_spaces s) in
  let '(radix, s2) :=
    match s1 with
    | String "0"%char (String "x"%char r) | String "0"%char (String "X"%char r) => (16, r)
    | _ => (10, s1)
    end in
  match scan_digits radix s2 with
  | ([], _) => None
  | (ds, _) =>
      let v := digits_value radix ds in
      Some (if negative then - v else v)
  end.

(** The exponent part [e±ddd] of a decimal literal, if there is one. *)
Definition scan_exponent (s : string) : Z :=
  match s with
  | String "e"%char r | String "E"%char r =>
      let '(negative, r1) := take_sign r in
      match scan_digits 10 r1 with
      | ([], _) => 0
      | (ds, _) => if negative then - digits_value 10 ds else digits_value 10 ds
      end
  | _ => 0
  end.

(** [parseFloat(s)]: the longest prefix of [s], after white space, that
    is a decimal literal; NaN when there is none. *)
Definition parseFloat (s : string) : number :=
  let '(negative, s1) := take_sign (skip_spaces s) in
  if String.prefix "Infinity"%string s1 then Infinity negative
  else
    let '(ip, r1) := scan_digits 10 s1 in
    let '(fp, r2) :=
      match r1 with
      | String "."%char r => scan_digits 10 r
      | _ => ([], r1)
      end in
    match ip ++ fp with
    | [] => NaN
    | ds =>
        let e := scan_exponent r2 - Z.of_nat (length fp) in
        let q := (inject_Z (digits_value 10 ds) * inject_Z 10 ^ e)%Q in
        Num (Qred (if negative then - q else q))
    end.

(** [String(id)] for an integer order id. *)
Definition key_string (id : Z) : string := NilZero.string_of_int (Z.to_int id).

(** ** Numbers printed with a fixed number of decimals *)

(** The text returned by [x.toFixed(digits)].  A decimal numeral is kept
    as the integer [units] it spells, in units of [10^-digits]; from 1e21
    up [toFixed] returns the text of [String(x)]. *)
Inductive numeral : Type :=
| NaNText
| InfinityText (negative : bool)
| Fixed (digits : nat) (units : Z)
| Plain (q : Q).

Definition toFixed (digits : nat) (x : number) : numeral :=
  match x with
  | NaN => NaNText
  | Infinity s => InfinityText s
  | Num q =>
      if Qle_bool (inject_Z (10 ^ 21)) (Qabs q) then Plain q
      else
        let n := Qfloor (Qabs q * inject_Z (10 ^ Z.of_nat digits) + (1 # 2)) in
        Fixed digits (if Qltb q 0 then - n else n)
  end.

(** [parseFloat] applied to such a text. *)
Definition numeral_value (t : numeral) : number :=
  match t with
  | NaNText => NaN
  | InfinityText s => Infinity s
  | Fixed digits units => decimal units digits
  | Plain q => Num q
  end.

(** ** Object properties *)

(** A property that may be missing ([undefined]), [null], or hold a value. *)
Inductive slot (A : Type) : Type :=
| undefined
| null
| val (a : A).
Arguments undefined {A}.
Arguments null {A}.
Arguments val {A}.

(** ToNumber, as applied by the arithmetic operators. *)
Definition toNumber (v : slot number) : number :=
  match v with
  | undefined => NaN
  | null => Num 0
  | val n => n
  end.

(** [!v]. *)
Definition falsy (v : slot number) : bool :=
  match v with
  | val n => num_falsy n
  | _ => true
  end.

(** ** Tracked orders (AutoClearManager.js) *)

Inductive Status : Type := pending | filled | clearing | cleared | error.

#[export] Instance Status_eq_dec : EqDecision Status.
Proof. solve_decision. Defined.

Module TrackedOrder.
(** The object built by [trackOrder], with the properties that
    [updateOrderStatus] and [createReverseClearOrder] add later. *)
Record t : Type := mk {
  orderId : Z;
  topicId : string;
  position : string;
  side : Z;                       (* 1 = BUY, 2 = SELL *)
  price : slot number;            (* cost price, percentage scale *)
  amount : slot number;
  trackedAt : string;
  status : Status;
  errorMessage : slot string;
  reverseOrderId : slot Z;
  filledAt : slot string;
  filledShares : slot number;
  filledUsdt : slot number;
  reversePrice : slot number;
  reverseShares : slot number;
  clearedAt : slot string
}.

(** [o.status = s] *)
Definition set_status (s : Status) (o : t) : t :=
  mk (orderId o) (topicId o) (position o) (side o) (price o) (amount o)
     (trackedAt o) s (errorMessage o) (reverseOrderId o) (filledAt o)
     (filledShares o) (filledUsdt o) (reversePrice o) (reverseShares o)
     (clearedAt o).

(** [o.filledAt = at; o.filledShares = shares; o.filledUsdt = usdt] *)
Definition set_fill (at_ : string) (shares usdt : number) (o : t) : t :=
  mk (orderId o) (topicId o) (position o) (side o) (price o) (amount o)
     (trackedAt o) (status o) (errorMessage o) (reverseOrderId o) (val at_)
     (val shares) (val usdt) (reversePrice o) (reverseShares o)
     (clearedAt o).

(** [o.errorMessage = msg] *)
Definition set_errorMessage (msg : string) (o : t) : t :=
  mk (orderId o) (topicId o) (position o) (side o) (price o) (amount o)
     (trackedAt o) (status o) (val msg) (reverseOrderId o) (filledAt o)
     (filledShares o) (filledUsdt o) (reversePrice o) (reverseShares o)
     (clearedAt o).

(** [o.reverseOrderId = id; o.reversePrice = p; o.reverseShares = n;
    o.clearedAt = at] *)
Definition set_reverse (id : slot Z) (p n : number) (at_ : string) (o : t) : t :=
  mk (orderId o) (topicId o) (position o) (side o) (price o) (amount o)
     (trackedAt o) (status o) (errorMessage o) id (filledAt o)
     (filledShares o) (filledUsdt o) (val p) (val n) (val at_).
End TrackedOrder.

(** ** The persisted document *)

(** JSON values that occur in the document. *)
Inductive json : Type :=
| JNull
| JNumber (q : Q)
| JString (s : string).

(** A JSON object: its members in order. *)
Definition json_object : Type := list (string * json).

Definition status_name (s : Status) : string :=
  match s with
  | pending => "pending"
  | filled => "filled"
  | clearing => "clearing"
  | cleared => "cleared"
  | error => "error"
  end%string.

Definition status_of_name (n : string) : option Status :=
  if String.eqb n "pending" then Some pending
  else if String.eqb n "filled" then Some filled
  else if String.eqb n "clearing" then Some clearing
  else if String.eqb n "cleared" then Some cleared
  else if String.eqb n "error" then Some error
  else None.

(** [JSON.stringify] of one property: a missing property is left out,
    and a number that is not finite is written as [null]. *)
Definition member {A : Type} (name : string) (enc : A -> json) (v : slot A) : list (string * json) :=
  match v with
  | undefined => []
  | null => [(name, JNull)]
  | val a => [(name, enc a)]
  end.

Definition json_of_number (n : number) : json :=
  match n with
  | Num q => JNumber q
  | _ => JNull
  end.

Definition json_of_Z (z : Z) : json := JNumber (inject_Z z).

(** [JSON.stringify] of a tracked order, members in property order. *)
Definition stringify (o : TrackedOrder.t) : json_object :=
  [ ("orderId"%string, json_of_Z (TrackedOrder.orderId o));
    ("topicId"%string, JString (TrackedOrder.topicId o));
    ("position"%string, JString (TrackedOrder.position o));
    ("side"%string, json_of_Z (TrackedOrder.side o)) ]
  ++ member "price" json_of_number (TrackedOrder.price o)
  ++ member "amount" json_of_number (TrackedOrder.amount o)
  ++ [ ("trackedAt"%string, JString (TrackedOrder.trackedAt o));
       ("status"%string, JString (status_name (TrackedOrder.status o))) ]
  ++ member "errorMessage" JString (TrackedOrder.errorMessage o)
  ++ member "reverseOrderId" json_of_Z (TrackedOrder.reverseOrderId o)
  ++ member "filledAt" JString (TrackedOrder.filledAt o)
  ++ member "filledShares" json_of_number (TrackedOrder.filledShares o)
  ++ member "filledUsdt" json_of_number (TrackedOrder.filledUsdt o)
  ++ member "reversePrice" json_of_number (TrackedOrder.reversePrice o)
  ++ member "reverseShares" json_of_number (TrackedOrder.reverseShares o)
  ++ member "clearedAt" JString (TrackedOrder.clearedAt o).

(** Reading a member of a parsed object. *)
Fixpoint get_member (name : string) (obj : json_object) : slot json :=
  match obj with
  | [] => undefined
  | (n, v) :: rest =>
      if String.eqb n name then
        match v with JNull => null | _ => val v end
      else get_member name rest
  end.

Definition as_number (v : slot json) : option (slot number) :=
  match v with
  | undefined => Some undefined
  | null => Some null
  | val (JNumber q) => Some (val (Num q))
  | val _ => None
  end.

Definition as_string (v : slot json) : option (slot string) :=
  match v with
  | undefined => Some undefined
  | null => Some null
  | val (JString s) => Some (val s)
  | val _ => None
  end.

Definition integer_of (q : Q) : option Z :=
  if Qeq_bool q (inject_Z (Qfloor q)) then Some (Qfloor q) else None.

Definition as_Z (v : slot json) : option (slot Z) :=
  match v with
  | undefined => Some undefined
  | null => Some null
  | val (JNumber q) => z ← integer_of q; Some (val z)
  | val _ => None
  end.

Definition required {A : Type} (v : option (slot A)) : option A :=
  match v with
  | Some (val a) => Some a
  | _ => None
  end.

(** A parsed object seen as a tracked order; [None] when it does not
    follow the schema, which no object written by [save] does. *)
Definition parse_order (obj : json_object) : option TrackedOrder.t :=
  orderId ← required (as_Z (get_member "orderId" obj));
  topicId ← required (as_string (get_member "topicId" obj));
  position ← required (as_string (get_member "position" obj));
  side ← required (as_Z (get_member "side" obj));
  price ← as_number (get_member "price" obj);
  amount ← as_number (get_member "amount" obj);
  trackedAt ← required (as_string (get_member "trackedAt" obj));
  status ← required (as_string (get_member "status" obj)) ≫= status_of_name;
  errorMessage ← as_string (get_member "errorMessage" obj);
  reverseOrderId ← as_Z (get_member "reverseOrderId" obj);
  filledAt ← as_string (get_member "filledAt" obj);
  filledShares ← as_number (get_member "filledShares" obj);
  filledUsdt ← as_number (get_member "filledUsdt" obj);
  reversePrice ← as_number (get_member "reversePrice" obj);
  reverseShares ← as_number (get_member "reverseShares" obj);
  clearedAt ← as_string (get_member "clearedAt" obj);
  Some (TrackedOrder.mk orderId topicId position side price amount trackedAt
          status errorMessage reverseOrderId filledAt filledShares filledUsdt
          reversePrice reverseShares clearedAt).

(** [JSON.stringify(Object.fromEntries(trackedOrders))]: one member per
    order, under the text of its id. *)
Definition document_of (orders : gmap Z TrackedOrder.t) : gmap string json_object :=
  kmap key_string (stringify <$> orders).

Definition parse_entry (e : string * json_object) : option (Z * TrackedOrder.t) :=
  id ← parseInt e.1; o ← parse_order e.2; Some (id, o).

(** The loop of [initialize] over [Object.entries(stored)], setting
    [parseInt(orderId)] to each parsed object. *)
Definition orders_of (stored : gmap string json_object) : gmap Z TrackedOrder.t :=
  list_to_map (omap parse_entry (map_to_list stored)).

(** ** The manager and its collaborators *)

(** What [fs.readFile(storageFile)] finds. *)
Inductive File : Type :=
| NoFile
| Unreadable
| Stored (content : gmap string json_object).

Record Manager : Type := mkManager {
  trackedOrders : gmap Z TrackedOrder.t;
  storageFile : File;
  isInitialized : bool;
  (** Instrumentation: every assignment to a [status] property, as the
      order id and the status written, oldest first. *)
  statusWrites : list (Z * Status)
}.

Module TrackParams.
Record t : Type := mk {
  orderId : Z;
  topicId : string;
  position : string;
  side : Z;
  price : string;
  amount : string
}.
End TrackParams.

Module ClosedOrder.
(** An entry of [getClosedOrders().list]; [filled] is the text
    "filledUsdt/totalUsdt". *)
Record t : Type := mk {
  orderId : Z;
  status : Z;
  filled : string
}.
End ClosedOrder.

Module SellRequest.
Record t : Type := mk {
  topicId : string;
  position : string;
  limitPrice : numeral;
  shares : numeral
}.
End SellRequest.

Record OrderBookConfig : Type := mkConfig {
  questionId : option string;
  tokens : option (string * string)
}.

(** The collaborators of one call: the clock, the topic and depth
    services and the exchange.  A left injection is a rejected promise
    carrying [error.message]. *)
Record World : Type := mkWorld {
  clock : string;
  getTopicInfo : string -> string + unit;
  getOrderBookConfig : string -> string + option OrderBookConfig;
  getOrderBook : OrderBookConfig -> string -> OrderBook.t number;
  sellByTopic : SellRequest.t -> string + option Z
}.

Definition truthy_text (s : option string) : bool :=
  match s with
  | Some (String _ _) => true
  | _ => false
  end.

(** The checks of the [OrderBookAPI] constructor. *)
Definition new_OrderBookAPI (config : option OrderBookConfig) : string + OrderBookConfig :=
  match config with
  | None =>
      inl "OrderBookAPI requires a config object. Use TopicAPI.getOrderBookConfig(topicId) to get the config."%string
  | Some c =>
      if negb (truthy_text (questionId c)) || negb (bool_decide (is_Some (tokens c)))
      then inl "OrderBookAPI config must include questionId and tokens"%string
      else inr c
  end.

(** *** Persistence *)

Definition save (st : Manager) : Manager :=
  mkManager (trackedOrders st) (Stored (document_of (trackedOrders st)))
            (isInitialized st) (statusWrites st).

Definition initialize (st : Manager) : Manager :=
  match storageFile st with
  | Stored stored =>
      mkManager (orders_of stored ∪ trackedOrders st) (storageFile st) true
                (statusWrites st)
  | NoFile | Unreadable =>
      mkManager (trackedOrders st) (storageFile st) true (statusWrites st)
  end.

(** *** Registry operations *)

(** A mutation of the tracked order stored under [id]. *)
Definition update_order (id : Z) (f : TrackedOrder.t -> TrackedOrder.t) (st : Manager) : Manager :=
  mkManager (alter f id (trackedOrders st)) (storageFile st) (isInitialized st)
            (statusWrites st).

(** [trackedOrder.status = s] on the order stored under [id]. *)
Definition write_status (id : Z) (s : Status) (st : Manager) : Manager :=
  mkManager (alter (TrackedOrder.set_status s) id (trackedOrders st))
            (storageFile st) (isInitialized st) (statusWrites st ++ [(id, s)]).

Definition trackOrder (now : string) (params : TrackParams.t) (st : Manager)
  : TrackedOrder.t * Manager :=
  let orderInfo :=
    TrackedOrder.mk (TrackParams.orderId params) (TrackParams.topicId params)
      (TrackParams.position params) (TrackParams.side params)
      (val (parseFloat (TrackParams.price params)))
      (val (parseFloat (TrackParams.amount params)))
      now pending null null
      undefined undefined undefined undefined undefined undefined in
  let id := TrackParams.orderId params in
  (orderInfo,
   save (mkManager (<[id := orderInfo]> (trackedOrders st)) (storageFile st)
           (isInitialized st) (statusWrites st ++ [(id, pending)]))).

(** *** Reverse order submission *)

(** [!filledShares || filledShares <= 0] *)
Definition invalid_filledShares (filledShares : slot number) : bool :=
  falsy filledShares || num_leb (toNumber filledShares) (Num 0).

(** How the [try] block of [createReverseClearOrder] ends. *)
Inductive Attempt : Type :=
| NotNeeded
| Submitted (reverseOrderId : slot Z) (clearPrice shares : number)
| Failed (message : string).

Definition attempt_clear (w : World) (o : TrackedOrder.t) : Attempt :=
  let filledShares := TrackedOrder.filledShares o in
  if negb (TrackedOrder.side o =? 1) then NotNeeded
  else if invalid_filledShares filledShares
  then Failed "成交数量无效"
  else
    let costPrice := num_div (toNumber (TrackedOrder.price o)) (num_Z 100) in
    match getTopicInfo w (TrackedOrder.topicId o) with
    | inl message => Failed message
    | inr _ =>
    match getOrderBookConfig w (TrackedOrder.topicId o) with
    | inl message => Failed message
    | inr config =>
    match new_OrderBookAPI config with
    | inl message => Failed message
    | inr api =>
        let orderBook := getOrderBook w api (TrackedOrder.position o) in
        if truthy_text (OrderBook.error orderBook)
           || negb (bool_decide (is_Some (OrderBook.bids orderBook)))
           || negb (bool_decide (is_Some (OrderBook.asks orderBook)))
        then Failed ("无法获取订单簿: " ++
                     (if truthy_text (OrderBook.error orderBook)
                      then default ""%string (OrderBook.error orderBook)
                      else "数据缺失"))%string
        else
          match calculateClearPrice costPrice orderBook with
          | None => Failed "无法计算安全的清理价格（盘口异常）"
          | Some clearPrice =>
              if num_falsy clearPrice
              then Failed "无法计算安全的清理价格（盘口异常）"
              else
                match sellByTopic w
                        (SellRequest.mk (TrackedOrder.topicId o)
                           (TrackedOrder.position o)
                           (toFixed 2 (num_mul clearPrice (num_Z 100)))
                           (toFixed 4 (toNumber filledShares))) with
                | inl message => Failed message
                | inr orderId =>
                    Submitted
                      (match orderId with
                       | Some id => if id =? 0 then null else val id
                       | None => null
                       end)
                      clearPrice (toNumber filledShares)
                end
          end
    end end end.

(** [createReverseClearOrder(trackedOrder)], for the order stored under
    [id]: the object handed over is the one held by the registry. *)
Definition createReverseClearOrder (w : World) (id : Z) (st : Manager) : Manager :=
  match trackedOrders st !! id with
  | None => st
  | Some _ =>
      let st1 := save (write_status id clearing st) in
      match trackedOrders st1 !! id with
      | None => st1
      | Some o =>
          match attempt_clear w o with
          | NotNeeded => save (save (write_status id cleared st1))
          | Submitted reverseOrderId clearPrice shares =>
              save (update_order id
                      (TrackedOrder.set_reverse reverseOrderId clearPrice shares (clock w))
                      (write_status id cleared st1))
          | Failed message =>
              save (update_order id (TrackedOrder.set_errorMessage message)
                      (write_status id error st1))
          end
      end
  end.

(** *** Fill classifier *)

(** [s.split(sep)] for a one-character separator. *)
Fixpoint split_on (sep : ascii) (s : string) : list string :=
  match s with
  | EmptyString => [EmptyString]
  | String c r =>
      if Ascii.eqb c sep then EmptyString :: split_on sep r
      else match split_on sep r with
           | h :: t => String c h :: t
           | [] => [String c EmptyString]
           end
  end.

(** [parseFloat] of an array element that may be missing. *)
Definition parseFloat_at (parts : list string) (i : nat) : number :=
  match parts !! i with
  | Some s => parseFloat s
  | None => NaN
  end.

(** One turn of the loop of [updateOrderStatus]; the boolean is
    [hasChanges]. *)
Definition reconcile (w : World) (acc : Manager * bool) (closedOrder : ClosedOrder.t)
  : Manager * bool :=
  let '(st, hasChanges) := acc in
  let orderId := ClosedOrder.orderId closedOrder in
  match trackedOrders st !! orderId with
  | None => acc
  | Some trackedOrder =>
      if negb (bool_decide (TrackedOrder.status trackedOrder = pending)) then acc
      else if ClosedOrder.status closedOrder =? 2 then
        let parts := split_on "/" (ClosedOrder.filled closedOrder) in
        let filledUsdt := parseFloat_at parts 0 in
        let totalUsdt := parseFloat_at parts 1 in
        if num_geb filledUsdt (num_mul totalUsdt (decimal 999 3)) then
          let priceDecimal := num_div (toNumber (TrackedOrder.price trackedOrder)) (num_Z 100) in
          let sharesAmount := num_div filledUsdt priceDecimal in
          let st1 := update_order orderId
                       (TrackedOrder.set_fill (clock w) sharesAmount filledUsdt)
                       (write_status orderId filled st) in
          (createReverseClearOrder w orderId st1, true)
        else acc
      else acc
  end.

Definition updateOrderStatus (w : World) (closedOrders : list ClosedOrder.t) (st : Manager)
  : Manager :=
  let st := if isInitialized st then st else initialize st in
  match closedOrders with
  | [] => st
  | _ =>
      let '(st', hasChanges) := fold_left (reconcile w) closedOrders (st, false) in
      if hasChanges then save st' else st'
  end.

(** *** Read and administrative operations *)

Definition getTrackedOrders (st : Manager) : list TrackedOrder.t :=
  (map_to_list (trackedOrders st)).*2.

Definition getOrdersByStatus (status : Status) (st : Manager) : list TrackedOrder.t :=
  filter (fun order => TrackedOrder.status order = status) (getTrackedOrders st).

Definition removeTrackedOrder (orderId : Z) (st : Manager) : bool * Manager :=
  match trackedOrders st !! orderId with
  | Some _ =>
      (true, save (mkManager (delete orderId (trackedOrders st)) (storageFile st)
                     (isInitialized st) (statusWrites st)))
  | None => (false, st)
  end.

Definition clearAll (st : Manager) : Manager :=
  save (mkManager ∅ (storageFile st) (isInitialized st) (statusWrites st)).

Record Stats : Type := mkStats {
  stat_total : nat;
  stat_pending : nat;
  stat_filled : nat;
  stat_clearing : nat;
  stat_cleared : nat;
  stat_error : nat
}.

Definition getStats (st : Manager) : Stats :=
  let orders := getTrackedOrders st in
  let count s := length (filter (fun o => TrackedOrder.status o = s) orders) in
  mkStats (length orders) (count pending) (count filled) (count clearing)
          (count cleared) (count error).

(** ** Snapshot differ (tradingDashboard.js, detectOrderChanges) *)

Module OpenOrder.
(** An entry of [getOpenOrders().list]; numeric properties arrive as
    text, and [None] is a missing property. *)
Record t : Type := mk {
  orderId : Z;
  side : Z;
  outcome : option string;
  price : string;
  amount : string;
  filled : option string
}.
End OpenOrder.

Inductive EventType : Type :=
| order_filled
| order_removed
| order_partially_filled
| order_created.

Module Event.
(** An entry of the event history; properties that an event type does
    not carry are [undefined]. *)
Record t : Type := mk {
  time : string;
  type : EventType;
  orderId : Z;
  side : string;
  outcome : string;
  price : numeral;
  amount : slot numeral;
  filled : slot numeral;
  filledAmount : slot numeral;
  totalFilled : slot numeral;
  totalAmount : slot numeral;
  title : slot string
}.
End Event.

(** A JavaScript [Map] keyed by order id: entries in insertion order. *)
Definition OrderMap : Type := list (Z * OpenOrder.t).

Fixpoint map_get (k : Z) (m : OrderMap) : option OpenOrder.t :=
  match m with
  | [] => None
  | (k', v) :: rest => if k =? k' then Some v else map_get k rest
  end.

(** [m.set(k, v)]: an existing key keeps its place. *)
Fixpoint map_set (k : Z) (v : OpenOrder.t) (m : OrderMap) : OrderMap :=
  match m with
  | [] => [(k, v)]
  | (k', v') :: rest =>
      if k =? k' then (k, v) :: rest else (k', v') :: map_set k v rest
  end.

Inductive Notification : Type :=
| NotifyOrderFilled (eventData : Event.t)
| NotifyOrderRemoved (eventData : Event.t).

Record Dashboard : Type := mkDashboard {
  previousOrdersMap : OrderMap;
  eventHistory : list Event.t;
  manuallyCancelledOrders : gset Z;
  topicTitle : slot string;
  (** Messages handed to the Telegram notifier, oldest first. *)
  notified : list Notification;
  (** Instrumentation: every event passed to [addEvent], oldest first. *)
  emitted : list Event.t
}.

Definition MAX_EVENT_HISTORY : nat := 100.

Definition addEvent (event : Event.t) (d : Dashboard) : Dashboard :=
  let history := eventHistory d ++ [event] in
  mkDashboard (previousOrdersMap d)
    (drop (length history - MAX_EVENT_HISTORY) history)
    (manuallyCancelledOrders d) (topicTitle d) (notified d)
    (emitted d ++ [event]).

Definition notify (n : Notification) (d : Dashboard) : Dashboard :=
  mkDashboard (previousOrdersMap d) (eventHistory d) (manuallyCancelledOrders d)
    (topicTitle d) (notified d ++ [n]) (emitted d).

Definition side_label (side : Z) : string :=
  if side =? 1 then "BUY"%string else "SELL"%string.

Definition outcome_label (outcome : option string) : string :=
  match outcome with
  | Some (String c r) => String c r
  | _ => "N/A"%string
  end.

(** [parseFloat(order.filled || 0)] *)
Definition filled_number (filled : option string) : number :=
  match filled with
  | Some (String c r) => parseFloat (String c r)
  | _ => Num 0
  end.

(** The test [parseFloat(filled) >= parseFloat(amount) * 0.99] on the two
    texts printed with four decimals. *)
Definition isFilled (prevOrder : OpenOrder.t) : bool :=
  let amount := toFixed 4 (parseFloat (OpenOrder.amount prevOrder)) in
  let filled := toFixed 4 (filled_number (OpenOrder.filled prevOrder)) in
  num_geb (numeral_value filled) (num_mul (numeral_value amount) (decimal 99 2)).

(** The event raised for an order that left the open-order list. *)
Definition removal_event (now : string) (title : slot string) (orderId : Z)
    (prevOrder : OpenOrder.t) : Event.t :=
  Event.mk now (if isFilled prevOrder then order_filled else order_removed)
    orderId (side_label (OpenOrder.side prevOrder))
    (outcome_label (OpenOrder.outcome prevOrder))
    (toFixed 4 (parseFloat (OpenOrder.price prevOrder)))
    (val (toFixed 4 (parseFloat (OpenOrder.amount prevOrder))))
    (val (toFixed 4 (filled_number (OpenOrder.filled prevOrder))))
    undefined undefined undefined title.

(** The event raised for an order whose filled amount grew. *)
Definition progress_event (now : string) (title : slot string) (orderId : Z)
    (prevOrder currentOrder : OpenOrder.t) : Event.t :=
  let prevFilled := filled_number (OpenOrder.filled prevOrder) in
  let currentFilled := filled_number (OpenOrder.filled currentOrder) in
  Event.mk now order_partially_filled orderId
    (side_label (OpenOrder.side currentOrder))
    (outcome_label (OpenOrder.outcome currentOrder))
    (toFixed 4 (parseFloat (OpenOrder.price currentOrder)))
    undefined undefined
    (val (toFixed 4 (num_sub currentFilled prevFilled)))
    (val (toFixed 4 currentFilled))
    (val (toFixed 4 (parseFloat (OpenOrder.amount currentOrder))))
    title.

(** The event raised for an order that entered the open-order list. *)
Definition creation_event (now : string) (orderId : Z) (currentOrder : OpenOrder.t) : Event.t :=
  Event.mk now order_created orderId
    (side_label (OpenOrder.side currentOrder))
    (outcome_label (OpenOrder.outcome currentOrder))
    (toFixed 4 (parseFloat (OpenOrder.price currentOrder)))
    (val (toFixed 4 (parseFloat (OpenOrder.amount currentOrder))))
    undefined undefined undefined undefined undefined.

(** The first loop, over the entries of the previous snapshot. *)
Definition compare_previous (now : string) (currentOrdersMap : OrderMap)
    (d : Dashboard) (entry : Z * OpenOrder.t) : Dashboard :=
  let '(orderId, prevOrder) := entry in
  match map_get orderId currentOrdersMap with
  | None =>
      let eventData := removal_event now (topicTitle d) orderId prevOrder in
      let d1 := addEvent eventData d in
      let isManuallyCancelled := bool_decide (orderId ∈ manuallyCancelledOrders d1) in
      let d2 :=
        if isFilled prevOrder then notify (NotifyOrderFilled eventData) d1
        else if negb isManuallyCancelled then notify (NotifyOrderRemoved eventData) d1
        else d1 in
      if isManuallyCancelled then
        mkDashboard (previousOrdersMap d2) (eventHistory d2)
          (manuallyCancelledOrders d2 ∖ {[orderId]}) (topicTitle d2)
          (notified d2) (emitted d2)
      else d2
  | Some currentOrder =>
      let prevFilled := filled_number (OpenOrder.filled prevOrder) in
      let currentFilled := filled_number (OpenOrder.filled currentOrder) in
      if num_gtb currentFilled prevFilled then
        addEvent (progress_event now (topicTitle d) orderId prevOrder currentOrder) d
      else d
  end.

(** The second loop, over the entries of the current snapshot. *)
Definition compare_current (now : string) (previous : OrderMap)
    (d : Dashboard) (entry : Z * OpenOrder.t) : Dashboard :=
  let '(orderId, currentOrder) := entry in
  match map_get orderId previous with
  | Some _ => d
  | None => addEvent (creation_event now orderId currentOrder) d
  end.

(** [new Map()] filled from the list by [set(order.orderId, order)]. *)
Definition orders_map (list : list OpenOrder.t) : OrderMap :=
  fold_left (fun m order => map_set (OpenOrder.orderId order) order m) list [].

(** [currentOrders] is the [list] property of the query result, [None]
    when the result or its list is missing. *)
Definition detectOrderChanges (now : string) (currentOrders : option (list OpenOrder.t))
    (d : Dashboard) : Dashboard :=
  match currentOrders with
  | None => d
  | Some list =>
      let currentOrdersMap := orders_map list in
      let previous := previousOrdersMap d in
      let d1 := fold_left (compare_previous now currentOrdersMap) previous d in
      let d2 := fold_left (compare_current now previous) currentOrdersMap d1 in
      mkDashboard currentOrdersMap (eventHistory d2) (manuallyCancelledOrders d2)
        (topicTitle d2) (notified d2) (emitted d2)
  end.

(** ** Runs of the manager and the status state machine *)

(** The record that [createReverseClearOrder] leaves for an order. *)
Definition settle (w : World) (o : TrackedOrder.t) : TrackedOrder.t :=
  let o1 := TrackedOrder.set_status clearing o in
  match attempt_clear w o1 with
  | NotNeeded => TrackedOrder.set_status cleared o1
  | Submitted reverseOrderId clearPrice shares =>
      TrackedOrder.set_reverse reverseOrderId clearPrice shares (clock w)
        (TrackedOrder.set_status cleared o1)
  | Failed message =>
      TrackedOrder.set_errorMessage message (TrackedOrder.set_status error o1)
  end.

(** A call of a public operation. *)
Inductive Op : Type :=
| TrackOrder (now : string) (params : TrackParams.t)
| UpdateOrderStatus (w : World) (closedOrders : list ClosedOrder.t)
| CreateReverseClearOrder (w : World) (orderId : Z)
| GetTrackedOrders
| GetOrdersByStatus (status : Status)
| GetStats.

Definition step (st : Manager) (op : Op) : Manager :=
  match op with
  | TrackOrder now params => (trackOrder now params st).2
  | UpdateOrderStatus w closedOrders => updateOrderStatus w closedOrders st
  | CreateReverseClearOrder w orderId => createReverseClearOrder w orderId st
  | GetTrackedOrders | GetOrdersByStatus _ | GetStats => st
  end.

Definition run (ops : list Op) (st : Manager) : Manager := fold_left step ops st.

Definition status_of (st : Manager) (id : Z) : option Status :=
  TrackedOrder.status <$> trackedOrders st !! id.

(** The calls made the way the dashboard and [updateOrderStatus] make
    them: an order is tracked under an id that is not tracked yet, and
    clearing starts on an order that has just been marked filled. *)
Definition regular (st : Manager) (op : Op) : Prop :=
  match op with
  | TrackOrder _ params => trackedOrders st !! TrackParams.orderId params = None
  | CreateReverseClearOrder _ orderId => status_of st orderId = Some filled
  | _ => True
  end.

Fixpoint regular_run (ops : list Op) (st : Manager) : Prop :=
  match ops with
  | [] => True
  | op :: rest => regular st op /\ regular_run rest (step st op)
  end.

(** The forward edges of the state machine. *)
Definition forward (a b : Status) : bool :=
  match a, b with
  | pending, filled | filled, clearing | clearing, cleared | clearing, error => true
  | _, _ => false
  end.

(** The statuses written to one order, oldest first. *)
Definition writes_to (id : Z) (log : list (Z * Status)) : list Status :=
  (filter (fun e => e.1 = id) log).*2.

(** [chain from l]: starting from the status [from] ([None] for an order
    that does not exist yet, whose first status must be [pending]), each
    status of [l] follows the one before it along a forward edge. *)
Fixpoint chain (from : option Status) (l : list Status) : Prop :=
  match l with
  | [] => True
  | s :: rest =>
      match from with
      | None => s = pending
      | Some a => forward a s = true
      end /\ chain (Some s) rest
  end.

Definition last_status (from : option Status) (l : list Status) : option Status :=
  match last l with
  | Some s => Some s
  | None => from
  end.

(** [advances st st']: from [st] to [st'] the log of status writes only
    grows, and for every order what was added is a chain from its status
    in [st] that ends in its status in [st']. *)
Definition advances (st st' : Manager) : Prop :=
  isInitialized st' = isInitialized st
  /\ exists new,
       statusWrites st' = statusWrites st ++ new
       /\ forall id,
            chain (status_of st id) (writes_to id new)
            /\ status_of st' id = last_status (status_of st id) (writes_to id new).

(** ** The events of one cycle of the differ *)

(** What the first loop passes to [addEvent] for an entry of the
    previous snapshot. *)
Definition previous_events (now : string) (title : slot string) (current : OrderMap)
    (entry : Z * OpenOrder.t) : list Event.t :=
  match map_get entry.1 current with
  | None => [removal_event now title entry.1 entry.2]
  | Some currentOrder =>
      if num_gtb (filled_number (OpenOrder.filled currentOrder))
                 (filled_number (OpenOrder.filled entry.2))
      then [progress_event now title entry.1 entry.2 currentOrder]
      else []
  end.

(** What the second loop passes to [addEvent] for an entry of the
    current snapshot. *)
Definition current_events (now : string) (previous : OrderMap)
    (entry : Z * OpenOrder.t) : list Event.t :=
  match map_get entry.1 previous with
  | Some _ => []
  | None => [creation_event now entry.1 entry.2]
  end.

(** ** What a tracked order becomes once saved and loaded *)

(** A number read back from the document: one that is not finite was
    written as [null]. *)
Definition reload_number (v : slot number) : slot number :=
  match v with
  | val (Num q) => val (Num q)
  | val _ => null
  | _ => v
  end.

Definition reload (o : TrackedOrder.t) : TrackedOrder.t :=
  TrackedOrder.mk (TrackedOrder.orderId o) (TrackedOrder.topicId o)
    (TrackedOrder.position o) (TrackedOrder.side o)
    (reload_number (TrackedOrder.price o)) (reload_number (TrackedOrder.amount o))
    (TrackedOrder.trackedAt o) (TrackedOrder.status o)
    (TrackedOrder.errorMessage o) (TrackedOrder.reverseOrderId o)
    (TrackedOrder.filledAt o)
    (reload_number (TrackedOrder.filledShares o))
    (reload_number (TrackedOrder.filledUsdt o))
    (reload_number (TrackedOrder.reversePrice o))
    (reload_number (TrackedOrder.reverseShares o))
    (TrackedOrder.clearedAt o).



(** The member that [JSON.parse] yields for a written property. *)
Definition written {A : Type} (enc : A -> json) (v : slot A) : slot json :=
  match v with
  | undefined => undefined
  | null => null
  | val a => match enc a with JNull => null | j => val j end
  end.

(** The digits of a decimal numeral, most significant first. *)
Fixpoint uint_digits (d : Decimal.uint) : list Z :=
  match d with
  | Decimal.Nil => []
  | Decimal.D0 l => 0 :: uint_digits l
  | Decimal.D1 l => 1 :: uint_digits l
  | Decimal.D2 l => 2 :: uint_digits l
  | Decimal.D3 l => 3 :: uint_digits l
  | Decimal.D4 l => 4 :: uint_digits l
  | Decimal.D5 l => 5 :: uint_digits l
  | Decimal.D6 l => 6 :: uint_digits l
  | Decimal.D7 l => 7 :: uint_digits l
  | Decimal.D8 l => 8 :: uint_digits l
  | Decimal.D9 l => 9 :: uint_digits l
  end.

(** ** The clearing price as the specification words it *)

(** Rounding to [digits] decimals: the nearest multiple of [10^-digits],
    a tie going up. *)
Definition round_decimals (digits : nat) (x : Q) : Q :=
  inject_Z (Qfloor (x * inject_Z (10 ^ Z.of_nat digits) + (1 # 2)))
  / inject_Z (10 ^ Z.of_nat digits).

(** Steps 1 to 6 of the specification's algorithm, on exact prices;
    [None] is "no safe price". *)
Definition reference_clear_price (costPrice : Q) (bids asks : list Q) : option Q :=
  match bids, asks with
  | bestBid :: _, bestAsk :: _ =>
      let spread := (bestAsk - bestBid)%Q in
      let target := (if Qlt_le_dec (1 # 10) spread then bestAsk - (1 # 10) else bestAsk)%Q in
      let target := Qmax target costPrice in
      if Qlt_le_dec bestBid target then Some (round_decimals 3 target) else None
  | _, _ => None
  end.

(** An exact level, as the calculator receives it. *)
Definition exact_level (l : Level.t Q) : Level.t number :=
  Level.mk (Num (Level.price l)) (Num (Level.amount l)) (Num (Level.total l)).

(** Agreement of a computed price with a reference price. *)
Definition same_price (computed : option number) (reference : option Q) : Prop :=
  match computed, reference with
  | None, None => True
  | Some (Num p), Some r => (p == r)%Q
  | _, _ => False
  end.

(** ** Sample data *)

Definition level {N : Type} `{JSNumber N} (p : N) : Level.t N :=
  Level.mk p (js_lit 1 0) p.

(** A book with one bid and one ask. *)
Definition book1 {N : Type} `{JSNumber N} (bid ask : N) : OrderBook.t N :=
  OrderBook.mk None (Some [level bid]) (Some [level ask]).

Definition empty_manager : Manager := mkManager ∅ NoFile true [].

(** A buy of YES at 90.00 tracked under order id 7. *)
Definition sample_params : TrackParams.t :=
  TrackParams.mk 7 "789" "YES" 1 "90.00" "10.0000".

(** A world in which every collaborator answers: the book is
    0.91 / 0.93 and the exchange accepts the sell as order 8. *)
Definition calm_world : World :=
  mkWorld "2026-01-01T00:00:05.000Z"
    (fun _ => inr tt)
    (fun _ => inr (Some (mkConfig (Some "question"%string) (Some ("yes"%string, "no"%string)))))
    (fun _ _ => book1 (decimal 91 2) (decimal 93 2))
    (fun _ => inr (Some 8)).

(** The same world, except that the exchange rejects the sell. *)
Definition rejecting_world : World :=
  mkWorld (clock calm_world) (getTopicInfo calm_world)
    (getOrderBookConfig calm_world) (getOrderBook calm_world)
    (fun _ => inl "insufficient balance"%string).

Definition tracked_manager : Manager :=
  (trackOrder "2026-01-01T00:00:00.000Z" sample_params empty_manager).2.

(** Order 7 after its fill was seen and its reverse order accepted. *)
Definition cleared_manager : Manager :=
  updateOrderStatus calm_world [ClosedOrder.mk 7 2 "9/9"] tracked_manager.

(** A dashboard whose previous snapshot holds one open buy, order 5. *)
Definition snapshot_of (amount filled : string) : Dashboard :=
  mkDashboard [(5, OpenOrder.mk 5 1 (Some "YES"%string) "0.5" amount (Some filled))]
    [] ∅ undefined [] [].

(** A restart: a new manager, as its constructor leaves it, on the file
    of the old one, then [initialize]. *)
Definition restart (st : Manager) : Manager :=
  initialize (mkManager ∅ (storageFile st) false []).

(** ** Every call on the manager *)

(** The public operations, the administrative ones and [initialize]. *)
Inductive Call : Type :=
| Public (op : Op)
| RemoveTrackedOrder (orderId : Z)
| ClearAll
| Initialize.

Definition call (st : Manager) (c : Call) : Manager :=
  match c with
  | Public op => step st op
  | RemoveTrackedOrder orderId => (removeTrackedOrder orderId st).2
  | ClearAll => clearAll st
  | Initialize => initialize st
  end.

(** The storage file mirrors the registry: it holds the document of the
    tracked orders, or there is no readable file yet and nothing is
    tracked. *)
Definition in_sync (st : Manager) : Prop :=
  match storageFile st with
  | Stored stored => stored = document_of (trackedOrders st)
  | NoFile | Unreadable => trackedOrders st = ∅
  end.

(** The test of [updateOrderStatus] on a closed order alone: status 2
    and filledUsdt >= totalUsdt * 0.999. *)
Definition fully_filled (closedOrder : ClosedOrder.t) : bool :=
  let parts := split_on "/" (ClosedOrder.filled closedOrder) in
  (ClosedOrder.status closedOrder =? 2)
  && num_geb (parseFloat_at parts 0) (num_mul (parseFloat_at parts 1) (decimal 999 3)).

(** The properties of a tracked order that say which order it is. *)
Definition same_identity (a b : TrackedOrder.t) : Prop :=
  TrackedOrder.orderId a = TrackedOrder.orderId b
  /\ TrackedOrder.topicId a = TrackedOrder.topicId b
  /\ TrackedOrder.position a = TrackedOrder.position b
  /\ TrackedOrder.side a = TrackedOrder.side b
  /\ TrackedOrder.price a = TrackedOrder.price b
  /\ TrackedOrder.amount a = TrackedOrder.amount b
  /\ TrackedOrder.trackedAt a = TrackedOrder.trackedAt b.

(** [same_orders st st']: the same ids are tracked, each with its
    identity. *)
Definition same_orders (st st' : Manager) : Prop :=
  forall id,
    match trackedOrders st !! id, trackedOrders st' !! id with
    | Some a, Some b => same_identity a b
    | None, None => True
    | _, _ => False
    end.

(** The record of a tracked order after the assignments that
    [updateOrderStatus] makes for a full fill, before it hands the order
    to [createReverseClearOrder]. *)
Definition fill_record (w : World) (closedOrder : ClosedOrder.t) (o : TrackedOrder.t)
  : TrackedOrder.t :=
  let filledUsdt := parseFloat_at (split_on "/" (ClosedOrder.filled closedOrder)) 0 in
  TrackedOrder.set_fill (clock w)
    (num_div filledUsdt (num_div (toNumber (TrackedOrder.price o)) (num_Z 100)))
    filledUsdt (TrackedOrder.set_status filled o).

(** No tracked order under [id] is pending. *)
Definition not_pending (st : Manager) (id : Z) : Prop :=
  forall o, trackedOrders st !! id = Some o -> TrackedOrder.status o <> pending.

(** The closed order has nothing left to trigger. *)
Definition done_with (st : Manager) (closedOrder : ClosedOrder.t) : Prop :=
  fully_filled closedOrder = true -> not_pending st (ClosedOrder.orderId closedOrder).

(** An order between two calls: it waits, or its clearing has ended, and
    one that ended in error carries the message. *)
Definition resting (o : TrackedOrder.t) : Prop :=
  match TrackedOrder.status o with
  | pending | cleared => True
  | error => exists message, TrackedOrder.errorMessage o = val message
  | filled | clearing => False
  end.

Definition at_rest (st : Manager) : Prop :=
  in_sync st /\ forall id o, trackedOrders st !! id = Some o -> resting o.

(** ** What one cycle of the differ does, entry by entry *)

(** The newest [n] entries of a history. *)
Definition newest {A : Type} (n : nat) (history : list A) : list A :=
  drop (length history - n) history.

(** The notification that the first loop sends for an entry of the
    previous snapshot, [manual] being the ids marked as cancelled by the
    user. *)
Definition removal_notices (now : string) (title : slot string) (manual : gset Z)
    (current : OrderMap) (entry : Z * OpenOrder.t) : list Notification :=
  match map_get entry.1 current with
  | Some _ => []
  | None =>
      let eventData := removal_event now title entry.1 entry.2 in
      if isFilled entry.2 then [NotifyOrderFilled eventData]
      else if bool_decide (entry.1 ∈ manual) then []
      else [NotifyOrderRemoved eventData]
  end.

(** The ids of the previous snapshot that are missing from the current
    one. *)
Definition removed_ids (current previous : OrderMap) : list Z :=
  flat_map (fun entry : Z * OpenOrder.t =>
              match map_get entry.1 current with
              | Some _ => []
              | None => [entry.1]
              end) previous.

(** The history after a step that emitted [new]. *)
Definition logged (d d' : Dashboard) (new : list Event.t) : Prop :=
  emitted d' = emitted d ++ new
  /\ eventHistory d' = newest MAX_EVENT_HISTORY (eventHistory d ++ new).

(** ** The refresh of the open orders (tradingDashboard.js, refreshOpenOrders) *)

Module OrdersResult.
(** What [queryOrders] returns, and the record that [refreshOpenOrders]
    stores when a query fails. *)
Record t : Type := mk {
  error : option string;
  list : option (list OpenOrder.t);
  total : Z
}.
End OrdersResult.

(** The answers of the exchange during one refresh: the time stamped on
    events, the two order queries (a left injection is a rejected promise
    carrying [error.message]; the closed orders are the [list] property of
    the answer) and the collaborators of the manager. *)
Record Exchange : Type := mkExchange {
  eventTime : string;
  getOpenOrders : string + OrdersResult.t;
  getClosedOrders : string + option (list ClosedOrder.t);
  clearingWorld : World
}.

Record Panel : Type := mkPanel {
  dashboard : Dashboard;
  sdkEnabled : bool;
  autoClearManager : option Manager;
  openOrders : slot OrdersResult.t;
  previousOrderCount : nat;
  (** Instrumentation: the texts passed to [showMessage] and the number
      of calls of [playBeep]. *)
  shownMessages : list string;
  beeps : nat
}.

Definition count_text (n : nat) : string := key_string (Z.of_nat n).

Definition reduced_message (previousOrderCount currentOrderCount : nat) : string :=
  ("🔔 订单数量减少 " ++ count_text (previousOrderCount - currentOrderCount)
   ++ " 个 (" ++ count_text previousOrderCount ++ " → "
   ++ count_text currentOrderCount ++ ")")%string.

(** The assignment of the [catch] block. *)
Definition failed_refresh (message : string) (p : Panel) : Panel :=
  mkPanel (dashboard p) (sdkEnabled p) (autoClearManager p)
    (val (OrdersResult.mk (Some message) (Some []) 0))
    (previousOrderCount p) (shownMessages p) (beeps p).

Definition refreshOpenOrders (x : Exchange) (p : Panel) : Panel :=
  if negb (sdkEnabled p) then p
  else
    match getOpenOrders x with
    | inl message => failed_refresh message p
    | inr result =>
        let previousLength := length (eventHistory (dashboard p)) in
        let d := detectOrderChanges (eventTime x) (OrdersResult.list result) (dashboard p) in
        let beeps' :=
          if (previousLength <? length (eventHistory d))%nat then S (beeps p) else beeps p in
        let currentOrderCount :=
          match OrdersResult.list result with
          | Some list => length list
          | None => 0%nat
          end in
        let shown :=
          if (0 <? previousOrderCount p)%nat
             && (currentOrderCount <? previousOrderCount p)%nat
          then shownMessages p ++ [reduced_message (previousOrderCount p) currentOrderCount]
          else shownMessages p in
        let p1 := mkPanel d (sdkEnabled p) (autoClearManager p) (val result)
                    currentOrderCount shown beeps' in
        match autoClearManager p with
        | None => p1
        | Some manager =>
            match getClosedOrders x with
            | inl message => failed_refresh message p1
            | inr closedOrders =>
                mkPanel d (sdkEnabled p)
                  (Some (updateOrderStatus (clearingWorld x) (default [] closedOrders) manager))
                  (val result) currentOrderCount shown beeps'
            end
        end
    end.

(** A panel right after start, with order 7 tracked, and an exchange
    that lists one open order and reports order 7 as filled. *)
Definition sample_order : OpenOrder.t :=
  OpenOrder.mk 5 1 (Some "YES"%string) "0.5" "10" (Some "0"%string).

Definition sample_panel : Panel :=
  mkPanel (mkDashboard [] [] ∅ undefined [] []) true (Some tracked_manager) null 0 [] 0.

Definition answering_exchange : Exchange :=
  mkExchange "12:00:05" (inr (OrdersResult.mk None (Some [sample_order]) 1))
    (inr (Some [ClosedOrder.mk 7 2 "9/9"])) calm_world.

(** The same exchange when the closed-order query is rejected, and when
    the open-order query is. *)
Definition half_answering_exchange : Exchange :=
  mkExchange "12:00:05" (getOpenOrders answering_exchange)
    (inl "Request timeout"%string) calm_world.

Definition silent_exchange : Exchange :=
  mkExchange "12:00:05" (inl "Request timeout"%string)
    (getClosedOrders answering_exchange) calm_world.

(** ** The depth service (src/sdk/OrderBookAPI.js) *)

Module Depth.
(** The object that carries the depth in the answer of the service: each
    level is the pair of its price and its amount, as texts. *)
Record t : Type := mk {
  bids : option (list (string * string));
  asks : option (list (string * string));
  last_price : option string
}.
End Depth.

Module Response.
(** The answer of the service: the depth sits under [result], under
    [data], or at the top of the answer itself. *)
Record t : Type := mk {
  result : option Depth.t;
  data : option Depth.t;
  top : Depth.t
}.
End Response.

Module DepthBook.
(** What [getOrderBook] returns; [error] is only set by its [catch]
    block, which sets no [lastPrice]. *)
Record t : Type := mk {
  type : string;
  error : option string;
  bids : list (Level.t number);
  asks : list (Level.t number);
  timestamp : string;
  lastPrice : option string
}.
End DepthBook.

(** [array.sort(compare)]: the sort is stable, and an element moves
    behind another one only if [compare] is above zero (a result that is
    NaN counts as zero). *)
Fixpoint insert_sorted {A : Type} (compare : A -> A -> number) (x : A) (l : list A)
  : list A :=
  match l with
  | [] => [x]
  | y :: rest =>
      if num_gtb (compare x y) (Num 0) then y :: insert_sorted compare x rest
      else x :: y :: rest
  end.

Definition array_sort {A : Type} (compare : A -> A -> number) (l : list A) : list A :=
  foldr (insert_sorted compare) [] l.

(** [{price: parseFloat(bid[0]), amount: parseFloat(bid[1]), total: ...}] *)
Definition level_of (entry : string * string) : Level.t number :=
  Level.mk (parseFloat entry.1) (parseFloat entry.2)
    (num_mul (parseFloat entry.1) (parseFloat entry.2)).

(** [(a, b) => b.price - a.price] and [(a, b) => a.price - b.price] *)
Definition highest_first (a b : Level.t number) : number :=
  num_sub (Level.price b) (Level.price a).

Definition lowest_first (a b : Level.t number) : number :=
  num_sub (Level.price a) (Level.price b).

(** [data.result || data.data || data] *)
Definition depth_of (response : Response.t) : Depth.t :=
  match Response.result response with
  | Some depth => depth
  | None =>
      match Response.data response with
      | Some depth => depth
      | None => Response.top response
      end
  end.

Definition parseOrderBook (now : string) (response : Response.t) (type : string)
  : DepthBook.t :=
  let result := depth_of response in
  DepthBook.mk type None
    (match Depth.bids result with
     | Some bids => array_sort highest_first (level_of <$> bids)
     | None => []
     end)
    (match Depth.asks result with
     | Some asks => array_sort lowest_first (level_of <$> asks)
     | None => []
     end)
    now
    (Some (match Depth.last_price result with
           | Some (String c r) => String c r
           | _ => "0"%string
           end)).

(** [getOrderBook(type)], given what [defaultClient.get(url)] resolves
    or rejects with. *)
Definition OrderBookAPI_getOrderBook (now : string) (answer : string + Response.t)
    (type : string) : DepthBook.t :=
  match answer with
  | inr response => parseOrderBook now response type
  | inl message => DepthBook.mk type (Some message) [] [] now None
  end.

(** The book as [createReverseClearOrder] and [calculateClearPrice] read
    it. *)
Definition order_book_of (book : DepthBook.t) : OrderBook.t number :=
  OrderBook.mk (DepthBook.error book) (Some (DepthBook.bids book))
    (Some (DepthBook.asks book)).

(** The price of the level is a number. *)
Definition has_price (level : Level.t number) : Prop :=
  exists q, Level.price level = Num q.

(** The prices of the levels are numbers. *)
Definition priced (entries : list (string * string)) : Prop :=
  Forall (fun entry => exists q, parseFloat entry.1 = Num q) entries.

Definition not_below (a b : Level.t number) : Prop :=
  num_geb (Level.price a) (Level.price b) = true.

Definition not_above (a b : Level.t number) : Prop :=
  num_leb (Level.price a) (Level.price b) = true.

(** A world whose depth service is out of reach: [getOrderBook] is the
    method of [OrderBookAPI] on a rejected request. *)
Definition offline_world : World :=
  mkWorld (clock calm_world) (getTopicInfo calm_world) (getOrderBookConfig calm_world)
    (fun _ type =>
       order_book_of
         (OrderBookAPI_getOrderBook "2026-01-01T00:00:05.000Z"
            (inl "Request timeout"%string) type))
    (sellByTopic calm_world).

(** A sequence of refresh cycles as the manager sees them: each cycle
    calls [updateOrderStatus] with the closed orders of the moment. *)
Definition reconcile_cycles (cycles : list (World * list ClosedOrder.t)) (st : Manager)
  : Manager :=
  fold_left (fun st cycle => updateOrderStatus cycle.1 cycle.2 st) cycles st.

(** How often [createReverseClearOrder] has started on the order: the
    number of times its status was set to clearing. *)
Definition clearings (id : Z) (st : Manager) : nat :=
  length (filter (fun write => write = (id, clearing)) (statusWrites st)).

(** The clearing of [id] has not started since the count was [base], or
    it has started once and the order is no longer pending. *)
Definition cleared_at_most_once (id : Z) (base : nat) (st : Manager) : Prop :=
  clearings id st = base
  \/ (clearings id st = S base /\ isInitialized st = true /\ not_pending st id).

(** ** The selection grid (src/dashboard/GridManager.js) *)

Section Grid.
Context {Item : Type}.

(** [grid] is the array of rows, indexed by y, each an array of items
    indexed by x; [None] is a hole of the array. *)
Record GridManager : Type := mkGridManager {
  grid : list (option (list (option Item)));
  cursorX : Z;
  cursorY : Z
}.

(** [grid[y] && grid[y][x]] *)
Definition item_at (rows : list (option (list (option Item)))) (x y : Z) : option Item :=
  if (x <? 0) || (y <? 0) then None
  else
    match rows !! Z.to_nat y with
    | Some (Some row) =>
        match row !! Z.to_nat x with
        | Some (Some item) => Some item
        | _ => None
        end
    | _ => None
    end.

Definition occupied (rows : list (option (list (option Item)))) (x y : Z) : bool :=
  bool_decide (is_Some (item_at rows x y)).

Definition getCurrentSelection (g : GridManager) : option Item :=
  item_at (grid g) (cursorX g) (cursorY g).

(** The rows visited by the loop of a vertical move, in order. *)
Definition rows_searched (height dy newY : Z) : list Z :=
  let start := Z.max 0 newY in
  if 0 <? dy then seqZ start (height - start)
  else if start <? height then reverse (seqZ 0 (start + 1))
  else [].

(** One turn of the loop of a horizontal move; [bestDistance] starts as
    [Infinity], which is [None]. *)
Definition closer (rows : list (option (list (option Item)))) (newX cursorY : Z)
    (best : Z * option Z) (y : Z) : Z * option Z :=
  let '(bestY, bestDistance) := best in
  if occupied rows newX y then
    let distance := Z.abs (y - cursorY) in
    if y <=? cursorY then
      if match bestDistance with
         | None => true
         | Some d => (distance <? d) || ((distance =? d) && (bestY <? y))
         end
      then (y, Some distance) else best
    else if (bestY =? -1) || (y <? bestY) then (y, Some distance)
    else best
  else best.

Definition moveCursor (dx dy : Z) (g : GridManager) : bool * GridManager :=
  let newX := cursorX g + dx in
  let newY := cursorY g + dy in
  let height := Z.of_nat (length (grid g)) in
  if (0 <=? newY) && (newY <? height) && occupied (grid g) newX newY
  then (true, mkGridManager (grid g) newX newY)
  else if negb (dy =? 0) && (dx =? 0)
  then
    match List.find (occupied (grid g) (cursorX g)) (rows_searched height dy newY) with
    | Some y => (true, mkGridManager (grid g) (cursorX g) y)
    | None => (false, g)
    end
  else if negb (dx =? 0) && (dy =? 0) && (0 <=? newX)
  then
    let bestY := (fold_left (closer (grid g) newX (cursorY g)) (seqZ 0 height) (-1, None)).1 in
    if negb (bestY =? -1) then (true, mkGridManager (grid g) newX bestY)
    else (false, g)
  else (false, g).

Definition resetCursor (g : GridManager) : GridManager := mkGridManager (grid g) 0 0.

(** What the loop of a horizontal move holds after the rows below [k]. *)
Definition clamped (rows : list (option (list (option Item)))) (newX cursorY k : Z)
    (best : Z * option Z) : Prop :=
  (best.1 = -1 ->
     best.2 = None /\ forall y, 0 <= y < k -> occupied rows newX y = false)
  /\ (best.1 <> -1 ->
        occupied rows newX best.1 = true /\ best.1 < k
        /\ best.2 = Some (Z.abs (best.1 - cursorY)))
  /\ (forall y, y < k -> occupied rows newX y = true -> y <= cursorY ->
        y <= best.1 <= cursorY)
  /\ (forall y, y < k -> occupied rows newX y = true -> cursorY < y -> best.1 <= y).
End Grid.

Arguments GridManager Item : clear implicits.

(** A grid with items at (0,0), (0,2) and (1,1), the cursor on the
    first. *)
Definition sample_grid : GridManager string :=
  mkGridManager
    [Some [Some "a"%string]; Some [None; Some "b"%string]; Some [Some "c"%string]] 0 0.

(** ** The request monitor (NetworkPerformance) *)

Record NetworkPerformance : Type := mkNetworkPerformance {
  windowSize : Z;
  targetDomain : string;
  requestTimestamps : list Z
}.

(** [options.windowSize || 10000] and
    [options.targetDomain || 'proxy.opinion.trade'] *)
Definition new_NetworkPerformance (windowSize : option Z) (targetDomain : option string)
  : NetworkPerformance :=
  mkNetworkPerformance
    (match windowSize with
     | Some size => if size =? 0 then 10000 else size
     | None => 10000
     end)
    (match targetDomain with
     | Some (String c r) => String c r
     | _ => "proxy.opinion.trade"%string
     end)
    [].

(** [hay.includes(needle)] *)
Fixpoint includes (needle hay : string) : bool :=
  String.prefix needle hay
  || match hay with
     | EmptyString => false
     | String _ rest => includes needle rest
     end.

(** The loop of [cleanup]: [shift()] while the first timestamp is before
    the cutoff. *)
Fixpoint shift_before (cutoff : Z) (timestamps : list Z) : list Z :=
  match timestamps with
  | t :: rest => if t <? cutoff then shift_before cutoff rest else timestamps
  | [] => []
  end.

Definition cleanup (now : Z) (m : NetworkPerformance) : NetworkPerformance :=
  mkNetworkPerformance (windowSize m) (targetDomain m)
    (shift_before (now - windowSize m) (requestTimestamps m)).

(** [recordRequest(url)] at the time [now] of [Date.now()]. *)
Definition recordRequest (url : string) (now : Z) (m : NetworkPerformance)
  : NetworkPerformance :=
  if includes (targetDomain m) url
  then cleanup now (mkNetworkPerformance (windowSize m) (targetDomain m)
                      (requestTimestamps m ++ [now]))
  else m.

(** The requests of a run, each with the time at which it is made. *)
Definition record_all (requests : list (string * Z)) (m : NetworkPerformance)
  : NetworkPerformance :=
  fold_left (fun m request => recordRequest request.1 request.2 m) requests m.

(** The times of the requests that go to the target domain. *)
Definition monitored (domain : string) (requests : list (string * Z)) : list Z :=
  (filter (fun request : string * Z => includes domain request.1 = true) requests).*2.

(** The timestamps that a monitor of window [size] holds after requests
    at the given times, the last of them at [now]. *)
Definition window (size : Z) (times : list Z) : list Z :=
  match last times with
  | None => []
  | Some now => filter (fun t => now - size <= t) times
  end.

(** * The program on binary64

    The manager, its persistence and the snapshot differ once more, with
    every JavaScript number a double: the arithmetic, the comparisons,
    [parseFloat] and [toFixed] are those of IEEE-754 binary64, so that a
    run of these definitions is a run of the source.  The definitions
    above compute the same functions on exact rationals. *)

Module Binary64.

(** ** Numbers *)

(** The double nearest to a rational, a tie going to the even mantissa;
    past the largest double it is an infinity, and below the smallest a
    zero. *)
Definition float_of_Q (q : Q) : float :=
  match Qnum q with
  | Z0 => PrimFloat.zero
  | Zpos n =>
      SF2Prim (SFdiv prec emax (S754_finite false n 0) (S754_finite false (Qden q) 0))
  | Zneg n =>
      SF2Prim (SFdiv prec emax (S754_finite true n 0) (S754_finite false (Qden q) 0))
  end.

(** The number a double stands for; both zeros stand for 0. *)
Definition exact (x : float) : number :=
  match Prim2SF x with
  | S754_zero _ => Num 0
  | S754_infinity s => Infinity s
  | S754_nan => NaN
  | S754_finite s m e =>
      Num (Qred ((if s then - inject_Z (Zpos m) else inject_Z (Zpos m)) * inject_Z 2 ^ e))
  end.

Definition signed_infinity (negative : bool) : float :=
  if negative then PrimFloat.neg_infinity else PrimFloat.infinity.

Definition signed_zero (negative : bool) : float :=
  if negative then PrimFloat.neg_zero else PrimFloat.zero.

(** The decimal literal that [parseFloat] finds in a text, and the
    digits that [toFixed] prints for a value, as defined above. *)
Definition literal_in (s : string) : number := parseFloat s.
Definition digits_of (digits : nat) (x : number) : numeral := toFixed digits x.

(** [parseFloat(s)]: the double nearest to the literal read; a literal
    of value zero keeps its sign. *)
Definition parseFloat (s : string) : float :=
  match literal_in s with
  | NaN => PrimFloat.nan
  | Infinity negative => signed_infinity negative
  | Num q =>
      if Qeq_bool q 0 then signed_zero (take_sign (skip_spaces s)).1
      else float_of_Q q
  end.

(** [x.toFixed(digits)]: the digits of the exact value of the double. *)
Definition toFixed (digits : nat) (x : float) : numeral := digits_of digits (exact x).

(** [parseFloat] applied to a text printed by [toFixed].  A numeral
    does not keep the sign of a zero, which no comparison sees. *)
Definition numeral_value (t : numeral) : float :=
  match t with
  | NaNText => PrimFloat.nan
  | InfinityText s => signed_infinity s
  | Fixed digits units => float_of_Q (Qdecimal units digits)
  | Plain q => float_of_Q q
  end.

(** ToNumber, as applied by the arithmetic operators. *)
Definition toNumber (v : slot float) : float :=
  match v with
  | undefined => PrimFloat.nan
  | null => PrimFloat.zero
  | val n => n
  end.

(** [!x] on a number: the two zeros and NaN are falsy. *)
Definition float_falsy (x : float) : bool := PrimFloat.is_nan x || PrimFloat.is_zero x.

(** [!v]. *)
Definition falsy (v : slot float) : bool :=
  match v with
  | val n => float_falsy n
  | _ => true
  end.

(** [0 < x] and [x < Infinity]: a positive finite double. *)
Definition positive_finite (x : float) : bool :=
  PrimFloat.ltb PrimFloat.zero x && PrimFloat.ltb x PrimFloat.infinity.

(** The doubles without a minus sign that are not NaN: +0, the positive
    finite doubles and +Infinity. *)
Definition unsigned_SF (x : spec_float) : Prop :=
  match x with
  | S754_zero false | S754_finite false _ _ | S754_infinity false => True
  | _ => False
  end.

(** ** Tracked orders *)

Module TrackedOrder.
Record t : Type := mk {
  orderId : Z;
  topicId : string;
  position : string;
  side : Z;                       (* 1 = BUY, 2 = SELL *)
  price : slot float;             (* cost price, percentage scale *)
  amount : slot float;
  trackedAt : string;
  status : Status;
  errorMessage : slot string;
  reverseOrderId : slot Z;
  filledAt : slot string;
  filledShares : slot float;
  filledUsdt : slot float;
  reversePrice : slot float;
  reverseShares : slot float;
  clearedAt : slot string
}.

(** [o.status = s] *)
Definition set_status (s : Status) (o : t) : t :=
  mk (orderId o) (topicId o) (position o) (side o) (price o) (amount o)
     (trackedAt o) s (errorMessage o) (reverseOrderId o) (filledAt o)
     (filledShares o) (filledUsdt o) (reversePrice o) (reverseShares o)
     (clearedAt o).

(** [o.filledAt = at; o.filledShares = shares; o.filledUsdt = usdt] *)
Definition set_fill (at_ : string) (shares usdt : float) (o : t) : t :=
  mk (orderId o) (topicId o) (position o) (side o) (price o) (amount o)
     (trackedAt o) (status o) (errorMessage o) (reverseOrderId o) (val at_)
     (val shares) (val usdt) (reversePrice o) (reverseShares o)
     (clearedAt o).

(** [o.errorMessage = msg] *)
Definition set_errorMessage (msg : string) (o : t) : t :=
  mk (orderId o) (topicId o) (position o) (side o) (price o) (amount o)
     (trackedAt o) (status o) (val msg) (reverseOrderId o) (filledAt o)
     (filledShares o) (filledUsdt o) (reversePrice o) (reverseShares o)
     (clearedAt o).

(** [o.reverseOrderId = id; o.reversePrice = p; o.reverseShares = n;
    o.clearedAt = at] *)
Definition set_reverse (id : slot Z) (p n : float) (at_ : string) (o : t) : t :=
  mk (orderId o) (topicId o) (position o) (side o) (price o) (amount o)
     (trackedAt o) (status o) (errorMessage o) id (filledAt o)
     (filledShares o) (filledUsdt o) (val p) (val n) (val at_).
End TrackedOrder.

(** ** The persisted document *)

(** [JSON.stringify] of a number: a finite double is written with its
    value, -0 as 0, and NaN and the infinities as [null]. *)
Definition json_of_number (x : float) : json :=
  match exact x with
  | Num q => JNumber q
  | _ => JNull
  end.

(** [JSON.stringify] of a tracked order, members in property order. *)
Definition stringify (o : TrackedOrder.t) : json_object :=
  [ ("orderId"%string, json_of_Z (TrackedOrder.orderId o));
    ("topicId"%string, JString (TrackedOrder.topicId o));
    ("position"%string, JString (TrackedOrder.position o));
    ("side"%string, json_of_Z (TrackedOrder.side o)) ]
  ++ member "price" json_of_number (TrackedOrder.price o)
  ++ member "amount" json_of_number (TrackedOrder.amount o)
  ++ [ ("trackedAt"%string, JString (TrackedOrder.trackedAt o));
       ("status"%string, JString (status_name (TrackedOrder.status o))) ]
  ++ member "errorMessage" JString (TrackedOrder.errorMessage o)
  ++ member "reverseOrderId" json_of_Z (TrackedOrder.reverseOrderId o)
  ++ member "filledAt" JString (TrackedOrder.filledAt o)
  ++ member "filledShares" json_of_number (TrackedOrder.filledShares o)
  ++ member "filledUsdt" json_of_number (TrackedOrder.filledUsdt o)
  ++ member "reversePrice" json_of_number (TrackedOrder.reversePrice o)
  ++ member "reverseShares" json_of_number (TrackedOrder.reverseShares o)
  ++ member "clearedAt" JString (TrackedOrder.clearedAt o).

(** [JSON.parse] of a number: the double nearest to the numeral. *)
Definition as_number (v : slot json) : option (slot float) :=
  match v with
  | undefined => Some undefined
  | null => Some null
  | val (JNumber q) => Some (val (float_of_Q q))
  | val _ => None
  end.

(** A parsed object seen as a tracked order; [None] when it does not
    follow the schema, which no object written by [save] does. *)
Definition parse_order (obj : json_object) : option TrackedOrder.t :=
  orderId ← required (as_Z (get_member "orderId" obj));
  topicId ← required (as_string (get_member "topicId" obj));
  position ← required (as_string (get_member "position" obj));
  side ← required (as_Z (get_member "side" obj));
  price ← as_number (get_member "price" obj);
  amount ← as_number (get_member "amount" obj);
  trackedAt ← required (as_string (get_member "trackedAt" obj));
  status ← required (as_string (get_member "status" obj)) ≫= status_of_name;
  errorMessage ← as_string (get_member "errorMessage" obj);
  reverseOrderId ← as_Z (get_member "reverseOrderId" obj);
  filledAt ← as_string (get_member "filledAt" obj);
  filledShares ← as_number (get_member "filledShares" obj);
  filledUsdt ← as_number (get_member "filledUsdt" obj);
  reversePrice ← as_number (get_member "reversePrice" obj);
  reverseShares ← as_number (get_member "reverseShares" obj);
  clearedAt ← as_string (get_member "clearedAt" obj);
  Some (TrackedOrder.mk orderId topicId position side price amount trackedAt
          status errorMessage reverseOrderId filledAt filledShares filledUsdt
          reversePrice reverseShares clearedAt).

(** [JSON.stringify(Object.fromEntries(trackedOrders))]: one member per
    order, under the text of its id. *)
Definition document_of (orders : gmap Z TrackedOrder.t) : gmap string json_object :=
  kmap key_string (stringify <$> orders).

Definition parse_entry (e : string * json_object) : option (Z * TrackedOrder.t) :=
  id ← parseInt e.1; o ← parse_order e.2; Some (id, o).

(** The loop of [initialize] over [Object.entries(stored)], setting
    [parseInt(orderId)] to each parsed object.  Every entry that [save]
    writes is read; an entry that it never writes (a key that is not an
    integer, an object off the schema) has no place in the registry as
    typed here and is left out. *)
Definition orders_of (stored : gmap string json_object) : gmap Z TrackedOrder.t :=
  list_to_map (omap parse_entry (map_to_list stored)).

(** A number read back from the document: one that is not finite was
    written as [null]. *)
Definition reload_number (v : slot float) : slot float :=
  match v with
  | val x => match exact x with
             | Num q => val (float_of_Q q)
             | _ => null
             end
  | _ => v
  end.

(** What a tracked order becomes once saved and loaded. *)
Definition reload (o : TrackedOrder.t) : TrackedOrder.t :=
  TrackedOrder.mk (TrackedOrder.orderId o) (TrackedOrder.topicId o)
    (TrackedOrder.position o) (TrackedOrder.side o)
    (reload_number (TrackedOrder.price o)) (reload_number (TrackedOrder.amount o))
    (TrackedOrder.trackedAt o) (TrackedOrder.status o)
    (TrackedOrder.errorMessage o) (TrackedOrder.reverseOrderId o)
    (TrackedOrder.filledAt o)
    (reload_number (TrackedOrder.filledShares o))
    (reload_number (TrackedOrder.filledUsdt o))
    (reload_number (TrackedOrder.reversePrice o))
    (reload_number (TrackedOrder.reverseShares o))
    (TrackedOrder.clearedAt o).

(** ** The manager and its collaborators *)

Record Manager : Type := mkManager {
  trackedOrders : gmap Z TrackedOrder.t;
  storageFile : File;
  isInitialized : bool;
  (** Instrumentation: every assignment to a [status] property, as the
      order id and the status written, oldest first. *)
  statusWrites : list (Z * Status)
}.

(** The collaborators of one call: the clock, the topic and depth
    services and the exchange.  A left injection is a rejected promise
    carrying [error.message]. *)
Record World : Type := mkWorld {
  clock : string;
  getTopicInfo : string -> string + unit;
  getOrderBookConfig : string -> string + option OrderBookConfig;
  getOrderBook : OrderBookConfig -> string -> OrderBook.t float;
  sellByTopic : SellRequest.t -> string + option Z
}.

(** *** Persistence *)

Definition save (st : Manager) : Manager :=
  mkManager (trackedOrders st) (Stored (document_of (trackedOrders st)))
            (isInitialized st) (statusWrites st).

Definition initialize (st : Manager) : Manager :=
  match storageFile st with
  | Stored stored =>
      mkManager (orders_of stored ∪ trackedOrders st) (storageFile st) true
                (statusWrites st)
  | NoFile | Unreadable =>
      mkManager (trackedOrders st) (storageFile st) true (statusWrites st)
  end.

(** A restart: a new manager, as its constructor leaves it, on the file
    of the old one, then [initialize]. *)
Definition restart (st : Manager) : Manager :=
  initialize (mkManager ∅ (storageFile st) false []).

(** *** Registry operations *)

(** A mutation of the tracked order stored under [id]. *)
Definition update_order (id : Z) (f : TrackedOrder.t -> TrackedOrder.t) (st : Manager) : Manager :=
  mkManager (alter f id (trackedOrders st)) (storageFile st) (isInitialized st)
            (statusWrites st).

(** [trackedOrder.status = s] on the order stored under [id]. *)
Definition write_status (id : Z) (s : Status) (st : Manager) : Manager :=
  mkManager (alter (TrackedOrder.set_status s) id (trackedOrders st))
            (storageFile st) (isInitialized st) (statusWrites st ++ [(id, s)]).

Definition trackOrder (now : string) (params : TrackParams.t) (st : Manager)
  : TrackedOrder.t * Manager :=
  let orderInfo :=
    TrackedOrder.mk (TrackParams.orderId params) (TrackParams.topicId params)
      (TrackParams.position params) (TrackParams.side params)
      (val (parseFloat (TrackParams.price params)))
      (val (parseFloat (TrackParams.amount params)))
      now pending null null
      undefined undefined undefined undefined undefined undefined in
  let id := TrackParams.orderId params in
  (orderInfo,
   save (mkManager (<[id := orderInfo]> (trackedOrders st)) (storageFile st)
           (isInitialized st) (statusWrites st ++ [(id, pending)]))).

Definition status_of (st : Manager) (id : Z) : option Status :=
  TrackedOrder.status <$> trackedOrders st !! id.

(** *** Reverse order submission *)

(** [!filledShares || filledShares <= 0] *)
Definition invalid_filledShares (filledShares : slot float) : bool :=
  falsy filledShares || PrimFloat.leb (toNumber filledShares) PrimFloat.zero.

(** How the [try] block of [createReverseClearOrder] ends. *)
Inductive Attempt : Type :=
| NotNeeded
| Submitted (reverseOrderId : slot Z) (clearPrice shares : float)
| Failed (message : string).

Definition attempt_clear (w : World) (o : TrackedOrder.t) : Attempt :=
  let filledShares := TrackedOrder.filledShares o in
  if negb (TrackedOrder.side o =? 1) then NotNeeded
  else if invalid_filledShares filledShares
  then Failed "成交数量无效"
  else
    let costPrice := PrimFloat.div (toNumber (TrackedOrder.price o)) (float_of_Z 100) in
    match getTopicInfo w (TrackedOrder.topicId o) with
    | inl message => Failed message
    | inr _ =>
    match getOrderBookConfig w (TrackedOrder.topicId o) with
    | inl message => Failed message
    | inr config =>
    match new_OrderBookAPI config with
    | inl message => Failed message
    | inr api =>
        let orderBook := getOrderBook w api (TrackedOrder.position o) in
        if truthy_text (OrderBook.error orderBook)
           || negb (bool_decide (is_Some (OrderBook.bids orderBook)))
           || negb (bool_decide (is_Some (OrderBook.asks orderBook)))
        then Failed ("无法获取订单簿: " ++
                     (if truthy_text (OrderBook.error orderBook)
                      then default ""%string (OrderBook.error orderBook)
                      else "数据缺失"))%string
        else
          match calculateClearPrice costPrice orderBook with
          | None => Failed "无法计算安全的清理价格（盘口异常）"
          | Some clearPrice =>
              if float_falsy clearPrice
              then Failed "无法计算安全的清理价格（盘口异常）"
              else
                match sellByTopic w
                        (SellRequest.mk (TrackedOrder.topicId o)
                           (TrackedOrder.position o)
                           (toFixed 2 (PrimFloat.mul clearPrice (float_of_Z 100)))
                           (toFixed 4 (toNumber filledShares))) with
                | inl message => Failed message
                | inr orderId =>
                    Submitted
                      (match orderId with
                       | Some id => if id =? 0 then null else val id
                       | None => null
                       end)
                      clearPrice (toNumber filledShares)
                end
          end
    end end end.

(** [createReverseClearOrder(trackedOrder)], for the order stored under
    [id]: the object handed over is the one held by the registry. *)
Definition createReverseClearOrder (w : World) (id : Z) (st : Manager) : Manager :=
  match trackedOrders st !! id with
  | None => st
  | Some _ =>
      let st1 := save (write_status id clearing st) in
      match trackedOrders st1 !! id with
      | None => st1
      | Some o =>
          match attempt_clear w o with
          | NotNeeded => save (save (write_status id cleared st1))
          | Submitted reverseOrderId clearPrice shares =>
              save (update_order id
                      (TrackedOrder.set_reverse reverseOrderId clearPrice shares (clock w))
                      (write_status id cleared st1))
          | Failed message =>
              save (update_order id (TrackedOrder.set_errorMessage message)
                      (write_status id error st1))
          end
      end
  end.

(** The record that [createReverseClearOrder] leaves for an order. *)
Definition settle (w : World) (o : TrackedOrder.t) : TrackedOrder.t :=
  let o1 := TrackedOrder.set_status clearing o in
  match attempt_clear w o1 with
  | NotNeeded => TrackedOrder.set_status cleared o1
  | Submitted reverseOrderId clearPrice shares =>
      TrackedOrder.set_reverse reverseOrderId clearPrice shares (clock w)
        (TrackedOrder.set_status cleared o1)
  | Failed message =>
      TrackedOrder.set_errorMessage message (TrackedOrder.set_status error o1)
  end.

(** *** Fill classifier *)

(** [parseFloat] of an array element that may be missing. *)
Definition parseFloat_at (parts : list string) (i : nat) : float :=
  match parts !! i with
  | Some s => parseFloat s
  | None => PrimFloat.nan
  end.

(** One turn of the loop of [updateOrderStatus]; the boolean is
    [hasChanges]. *)
Definition reconcile (w : World) (acc : Manager * bool) (closedOrder : ClosedOrder.t)
  : Manager * bool :=
  let '(st, hasChanges) := acc in
  let orderId := ClosedOrder.orderId closedOrder in
  match trackedOrders st !! orderId with
  | None => acc
  | Some trackedOrder =>
      if negb (bool_decide (TrackedOrder.status trackedOrder = pending)) then acc
      else if ClosedOrder.status closedOrder =? 2 then
        let parts := split_on "/" (ClosedOrder.filled closedOrder) in
        let filledUsdt := parseFloat_at parts 0 in
        let totalUsdt := parseFloat_at parts 1 in
        if PrimFloat.leb (PrimFloat.mul totalUsdt (float_lit 999 3)) filledUsdt then
          let priceDecimal :=
            PrimFloat.div (toNumber (TrackedOrder.price trackedOrder)) (float_of_Z 100) in
          let sharesAmount := PrimFloat.div filledUsdt priceDecimal in
          let st1 := update_order orderId
                       (TrackedOrder.set_fill (clock w) sharesAmount filledUsdt)
                       (write_status orderId filled st) in
          (createReverseClearOrder w orderId st1, true)
        else acc
      else acc
  end.

Definition updateOrderStatus (w : World) (closedOrders : list ClosedOrder.t) (st : Manager)
  : Manager :=
  let st := if isInitialized st then st else initialize st in
  match closedOrders with
  | [] => st
  | _ =>
      let '(st', hasChanges) := fold_left (reconcile w) closedOrders (st, false) in
      if hasChanges then save st' else st'
  end.

(** ** Snapshot differ *)

(** [parseFloat(order.filled || 0)] *)
Definition filled_number (filled : option string) : float :=
  match filled with
  | Some (String c r) => parseFloat (String c r)
  | _ => PrimFloat.zero
  end.

(** The test [parseFloat(filled) >= parseFloat(amount) * 0.99] on the two
    texts printed with four decimals. *)
Definition isFilled (prevOrder : OpenOrder.t) : bool :=
  let amount := toFixed 4 (parseFloat (OpenOrder.amount prevOrder)) in
  let filled := toFixed 4 (filled_number (OpenOrder.filled prevOrder)) in
  PrimFloat.leb (PrimFloat.mul (numeral_value amount) (float_lit 99 2))
                (numeral_value filled).

(** The event raised for an order that left the open-order list. *)
Definition removal_event (now : string) (title : slot string) (orderId : Z)
    (prevOrder : OpenOrder.t) : Event.t :=
  Event.mk now (if isFilled prevOrder then order_filled else order_removed)
    orderId (side_label (OpenOrder.side prevOrder))
    (outcome_label (OpenOrder.outcome prevOrder))
    (toFixed 4 (parseFloat (OpenOrder.price prevOrder)))
    (val (toFixed 4 (parseFloat (OpenOrder.amount prevOrder))))
    (val (toFixed 4 (filled_number (OpenOrder.filled prevOrder))))
    undefined undefined undefined title.

(** The event raised for an order whose filled amount grew. *)
Definition progress_event (now : string) (title : slot string) (orderId : Z)
    (prevOrder currentOrder : OpenOrder.t) : Event.t :=
  let prevFilled := filled_number (OpenOrder.filled prevOrder) in
  let currentFilled := filled_number (OpenOrder.filled currentOrder) in
  Event.mk now order_partially_filled orderId
    (side_label (OpenOrder.side currentOrder))
    (outcome_label (OpenOrder.outcome currentOrder))
    (toFixed 4 (parseFloat (OpenOrder.price currentOrder)))
    undefined undefined
    (val (toFixed 4 (PrimFloat.sub currentFilled prevFilled)))
    (val (toFixed 4 currentFilled))
    (val (toFixed 4 (parseFloat (OpenOrder.amount currentOrder))))
    title.

(** The event raised for an order that entered the open-order list. *)
Definition creation_event (now : string) (orderId : Z) (currentOrder : OpenOrder.t) : Event.t :=
  Event.mk now order_created orderId
    (side_label (OpenOrder.side currentOrder))
    (outcome_label (OpenOrder.outcome currentOrder))
    (toFixed 4 (parseFloat (OpenOrder.price currentOrder)))
    (val (toFixed 4 (parseFloat (OpenOrder.amount currentOrder))))
    undefined undefined undefined undefined undefined.

(** The first loop, over the entries of the previous snapshot. *)
Definition compare_previous (now : string) (currentOrdersMap : OrderMap)
    (d : Dashboard) (entry : Z * OpenOrder.t) : Dashboard :=
  let '(orderId, prevOrder) := entry in
  match map_get orderId currentOrdersMap with
  | None =>
      let eventData := removal_event now (topicTitle d) orderId prevOrder in
      let d1 := addEvent eventData d in
      let isManuallyCancelled := bool_decide (orderId ∈ manuallyCancelledOrders d1) in
      let d2 :=
        if isFilled prevOrder then notify (NotifyOrderFilled eventData) d1
        else if negb isManuallyCancelled then notify (NotifyOrderRemoved eventData) d1
        else d1 in
      if isManuallyCancelled then
        mkDashboard (previousOrdersMap d2) (eventHistory d2)
          (manuallyCancelledOrders d2 ∖ {[orderId]}) (topicTitle d2)
          (notified d2) (emitted d2)
      else d2
  | Some currentOrder =>
      let prevFilled := filled_number (OpenOrder.filled prevOrder) in
      let currentFilled := filled_number (OpenOrder.filled currentOrder) in
      if PrimFloat.ltb prevFilled currentFilled then
        addEvent (progress_event now (topicTitle d) orderId prevOrder currentOrder) d
      else d
  end.

(** The second loop, over the entries of the current snapshot. *)
Definition compare_current (now : string) (previous : OrderMap)
    (d : Dashboard) (entry : Z * OpenOrder.t) : Dashboard :=
  let '(orderId, currentOrder) := entry in
  match map_get orderId previous with
  | Some _ => d
  | None => addEvent (creation_event now orderId currentOrder) d
  end.

(** [currentOrders] is the [list] property of the query result, [None]
    when the result or its list is missing. *)
Definition detectOrderChanges (now : string) (currentOrders : option (list OpenOrder.t))
    (d : Dashboard) : Dashboard :=
  match currentOrders with
  | None => d
  | Some list =>
      let currentOrdersMap := orders_map list in
      let previous := previousOrdersMap d in
      let d1 := fold_left (compare_previous now currentOrdersMap) previous d in
      let d2 := fold_left (compare_current now previous) currentOrdersMap d1 in
      mkDashboard currentOrdersMap (eventHistory d2) (manuallyCancelledOrders d2)
        (topicTitle d2) (notified d2) (emitted d2)
  end.

(** What the first loop passes to [addEvent] for an entry of the
    previous snapshot. *)
Definition previous_events (now : string) (title : slot string) (current : OrderMap)
    (entry : Z * OpenOrder.t) : list Event.t :=
  match map_get entry.1 current with
  | None => [removal_event now title entry.1 entry.2]
  | Some currentOrder =>
      if PrimFloat.ltb (filled_number (OpenOrder.filled entry.2))
                       (filled_number (OpenOrder.filled currentOrder))
      then [progress_event now title entry.1 entry.2 currentOrder]
      else []
  end.

(** What the second loop passes to [addEvent] for an entry of the
    current snapshot. *)
Definition current_events (now : string) (previous : OrderMap)
    (entry : Z * OpenOrder.t) : list Event.t :=
  match map_get entry.1 previous with
  | Some _ => []
  | None => [creation_event now entry.1 entry.2]
  end.

(** ** Sample data *)

Definition empty_manager : Manager := mkManager ∅ NoFile true [].

(** A world in which every collaborator answers: the book has one bid
    and one ask, and the exchange accepts the sell as order 8. *)
Definition world_with_book (bid ask : float) : World :=
  mkWorld "2026-01-01T00:00:05.000Z"
    (fun _ => inr tt)
    (fun _ => inr (Some (mkConfig (Some "question"%string) (Some ("yes"%string, "no"%string)))))
    (fun _ _ => book1 bid ask)
    (fun _ => inr (Some 8)).

(** The book is 0.91 / 0.93. *)
Definition calm_world : World := world_with_book (float_lit 91 2) (float_lit 93 2).


End Binary64.

(** * Properties *)

(** ** Exact numbers *)

Local Open Scope Q_scope.

Lemma Qltb_lt (x y : Q) : Qltb x y = true <-> x < y.
Proof.
  unfold Qltb. rewrite negb_true_iff, <- not_true_iff_false, Qle_bool_iff.
  split; [apply Qnot_le_lt | apply Qlt_not_le].
Qed.

Lemma Qltb_ge (x y : Q) : Qltb x y = false <-> y <= x.
Proof.
  unfold Qltb. rewrite negb_false_iff, Qle_bool_iff. reflexivity.
Qed.

Lemma Qle_bool_gt (x y : Q) : Qle_bool x y = false <-> y < x.
Proof.
  rewrite <- not_true_iff_false, Qle_bool_iff.
  split; [apply Qnot_le_lt | apply Qlt_not_le].
Qed.

(** ** Clearing price calculator *)

Lemma num_max_exact (x y : Q) :
  num_max (Num x) (Num y) = Num (if Qltb x y then y else x).
Proof. unfold num_max, num_ltb. destruct (Qltb x y); reflexivity. Qed.

Lemma Qmax_ltb (x y : Q) : (if Qltb x y then y else x) == Qmax x y.
Proof.
  destruct (Qltb x y) eqn:E.
  - apply Qltb_lt in E. symmetry. apply Q.max_r. apply Qlt_le_weak, E.
  - apply Qltb_ge in E. symmetry. apply Q.max_l. exact E.
Qed.

(** The last step of the calculator: [Math.round(t * 1000) / 1000]. *)
Lemma round_thousandths (t : Q) :
  exists p, num_div (num_round (num_mul (Num t) (decimal 1000 0))) (decimal 1000 0) = Num p
            /\ p == round_decimals 3 t.
Proof.
  change (decimal 1000 0) with (Num 1000).
  cbn [num_mul num_round num_Z num_div].
  change (1000 ?= 0)%Q with Gt. cbn iota.
  eexists. split; [reflexivity |].
  rewrite Qred_correct. unfold round_decimals.
  change (inject_Z (10 ^ Z.of_nat 3)) with 1000%Q.
  assert (E : Qred (t * 1000) + (1 # 2) == t * 1000 + (1 # 2)) by (rewrite Qred_correct; reflexivity).
  rewrite (Qfloor_comp _ _ E). reflexivity.
Qed.

(** On exact prices the calculator computes the specification's
    algorithm. *)
Lemma calculateClearPrice_exact (costPrice bestBid bestAsk : Q)
    (err : option string) (b a : Level.t number) (bids asks : list (Level.t number)) :
  Level.price b = Num bestBid -> Level.price a = Num bestAsk ->
  same_price
    (calculateClearPrice (Num costPrice) (OrderBook.mk err (Some (b :: bids)) (Some (a :: asks))))
    (reference_clear_price costPrice [bestBid] [bestAsk]).
Proof.
  intros Hb Ha.
  unfold calculateClearPrice, reference_clear_price. cbn [OrderBook.bids OrderBook.asks].
  rewrite Hb, Ha. cbn [js_sub js_gtb js_lit js_max js_leb js_div js_round js_mul number_ops].
  change (decimal 1 1) with (Num (1 # 10)).
  cbn [num_sub num_gtb num_ltb].
  set (base := if Qlt_le_dec (1 # 10) (bestAsk - bestBid) then bestAsk - (1 # 10) else bestAsk).
  assert (Hbase : exists t, (if Qltb (1 # 10) (Qred (bestAsk - bestBid))
                             then Num (Qred (bestAsk - (1 # 10))) else Num bestAsk) = Num t
                            /\ t == base).
  { subst base. destruct (Qlt_le_dec (1 # 10) (bestAsk - bestBid)) as [Hs | Hs].
    - assert (Hg : Qltb (1 # 10) (Qred (bestAsk - bestBid)) = true)
        by (apply Qltb_lt; rewrite Qred_correct; exact Hs).
      rewrite Hg. eexists. split; [reflexivity | apply Qred_correct].
    - assert (Hg : Qltb (1 # 10) (Qred (bestAsk - bestBid)) = false)
        by (apply Qltb_ge; rewrite Qred_correct; exact Hs).
      rewrite Hg. eexists. split; reflexivity. }
  destruct Hbase as (t & -> & Ht).
  rewrite num_max_exact. cbn [num_leb].
  set (target := if Qltb t costPrice then costPrice else t).
  assert (Htarget : target == Qmax base costPrice).
  { subst target. rewrite Qmax_ltb, Ht. reflexivity. }
  destruct (Qlt_le_dec bestBid (Qmax base costPrice)) as [Hc | Hc].
  - assert (Hl : Qle_bool target bestBid = false)
      by (apply Qle_bool_gt; rewrite Htarget; exact Hc).
    rewrite Hl. destruct (round_thousandths target) as (p & -> & Hp).
    cbn. rewrite Hp. unfold round_decimals.
    assert (E : target * inject_Z (10 ^ Z.of_nat 3) + (1 # 2)
                == Qmax base costPrice * inject_Z (10 ^ Z.of_nat 3) + (1 # 2))
      by (rewrite Htarget; reflexivity).
    rewrite (Qfloor_comp _ _ E). reflexivity.
  - assert (Hl : Qle_bool target bestBid = true)
      by (apply Qle_bool_iff; rewrite Htarget; exact Hc).
    rewrite Hl. exact I.
Qed.

(** Rounding to three decimals moves a price by at most half a
    thousandth. *)
Lemma round_decimals_near (x : Q) :
  x - (1 # 2000) < round_decimals 3 x /\ round_decimals 3 x <= x + (1 # 2000).
Proof.
  unfold round_decimals. change (inject_Z (10 ^ Z.of_nat 3)) with 1000.
  pose proof (Qfloor_le (x * 1000 + (1 # 2))) as Hl.
  pose proof (Qlt_floor (x * 1000 + (1 # 2))) as Hu.
  set (n := Qfloor (x * 1000 + (1 # 2))) in *.
  rewrite inject_Z_plus in Hu. change (inject_Z 1) with 1 in Hu.
  unfold Qdiv. change (/ 1000) with (1 # 1000).
  split; lra.
Qed.

(** What the calculator does guarantee on exact prices: the price it
    returns is the rounding of a target that is strictly above the best
    bid and not below the cost price. *)
Lemma calculateClearPrice_checks_the_target (costPrice bestBid bestAsk : Q)
    (err : option string) (b a : Level.t number) (bids asks : list (Level.t number))
    (clearPrice : number) :
  Level.price b = Num bestBid -> Level.price a = Num bestAsk ->
  calculateClearPrice (Num costPrice) (OrderBook.mk err (Some (b :: bids)) (Some (a :: asks)))
  = Some clearPrice ->
  exists target p,
    clearPrice = Num p /\ bestBid < target /\ costPrice <= target
    /\ p == round_decimals 3 target
    /\ bestBid - (1 # 2000) < p /\ costPrice - (1 # 2000) < p.
Proof.
  intros Hb Ha Hc.
  pose proof (calculateClearPrice_exact costPrice bestBid bestAsk err b a bids asks Hb Ha) as H.
  rewrite Hc in H. unfold reference_clear_price in H.
  set (target := Qmax (if Qlt_le_dec (1 # 10) (bestAsk - bestBid)
                       then bestAsk - (1 # 10) else bestAsk) costPrice) in *.
  destruct (Qlt_le_dec bestBid target) as [Ht |]; cbn in H;
    [| destruct clearPrice; contradiction].
  destruct clearPrice as [| s | p]; try contradiction.
  exists target, p.
  assert (Hcost : costPrice <= target) by apply Q.le_max_r.
  destruct (round_decimals_near target) as [Hn _].
  repeat split; try assumption; rewrite H; lra.
Qed.

(** On exact prices, for every cost price and every order book,
    [calculateClearPrice] computes the reference definition: with bestBid
    and bestAsk the first bid and ask prices and spread their difference,
    the target is bestAsk - 0.1 when spread > 0.1 and bestAsk otherwise,
    then raised to the cost price; the result is "no safe price" when
    target <= bestBid and the target rounded to 3 decimals otherwise; on
    either number model it is "no safe price" when a side of the book is
    empty or missing. *)
Lemma calculateClearPrice_exact_refines_reference :
  (forall (costPrice : Q) (err : option string) (bids asks : list (Level.t Q)),
     same_price
       (calculateClearPrice (Num costPrice)
          (OrderBook.mk err (Some (exact_level <$> bids)) (Some (exact_level <$> asks))))
       (reference_clear_price costPrice (Level.price <$> bids) (Level.price <$> asks)))
  /\ (forall (N : Type) (ops : JSNumber N) (costPrice : N) (err : option string)
             (side : option (list (Level.t N))),
        calculateClearPrice costPrice (OrderBook.mk err (Some []) side) = None
        /\ calculateClearPrice costPrice (OrderBook.mk err side (Some [])) = None
        /\ calculateClearPrice costPrice (OrderBook.mk err None side) = None
        /\ calculateClearPrice costPrice (OrderBook.mk err side None) = None).
Proof.
  split.
  - intros costPrice err [| b bids] [| a asks]; try exact I.
    apply (calculateClearPrice_exact costPrice (Level.price b) (Level.price a));
      reflexivity.
  - intros N ops costPrice err side. repeat split; try reflexivity.
    + destruct side as [[| b bids] |]; reflexivity.
    + destruct side as [[| b bids] |]; reflexivity.
Qed.

(** C6: [calculateClearPrice] should equal the reference definition for
    every cost price and every order book.  On binary64, the program's
    numbers, it does not: the spread of a book whose best bid and best
    ask are 0.1 apart as decimals can exceed the double 0.1, so that the
    program lowers the target by 0.1 where the reference keeps the best
    ask.  With cost 0.2 against 0.3 / 0.4 the reference gives 0.4 and the
    program 0.3, the best bid itself; with cost 0.10 against 0.35 / 0.45
    the reference gives 0.45 and the program "no safe price"; with cost
    0.36 against 0.35 / 0.45 the reference gives 0.45 and the program
    0.36. *)
Theorem calculateClearPrice_departs_from_reference :
  (PrimFloat.ltb (float_lit 1 1) (PrimFloat.sub (float_lit 4 1) (float_lit 3 1)) = true
   /\ reference_clear_price (2 # 10) [3 # 10] [4 # 10] = Some (round_decimals 3 (4 # 10))
   /\ round_decimals 3 (4 # 10) == 4 # 10
   /\ calculateClearPrice (float_lit 2 1) (book1 (float_lit 3 1) (float_lit 4 1))
      = Some (float_lit 3 1))
  /\ (PrimFloat.ltb (float_lit 1 1) (PrimFloat.sub (float_lit 45 2) (float_lit 35 2)) = true
      /\ reference_clear_price (10 # 100) [35 # 100] [45 # 100]
         = Some (round_decimals 3 (45 # 100))
      /\ round_decimals 3 (45 # 100) == 45 # 100
      /\ calculateClearPrice (float_lit 10 2) (book1 (float_lit 35 2) (float_lit 45 2))
         = None)
  /\ (reference_clear_price (36 # 100) [35 # 100] [45 # 100]
      = Some (round_decimals 3 (45 # 100))
      /\ calculateClearPrice (float_lit 36 2) (book1 (float_lit 35 2) (float_lit 45 2))
         = Some (float_lit 36 2)).
Proof.
  repeat split; vm_compute; reflexivity.
Qed.

(** C4, as amended: for cost price 0.92 and every order book whose best
    bid is 0.93 and best ask is 0.94, the target after the cost floor is
    0.94, above the best bid, and [calculateClearPrice] returns 0.94; so
    it does bit for bit on binary64. *)
Theorem scenario_092_clears_at_094 :
  (forall err ba bt aa at_ bids asks,
     calculateClearPrice (decimal 92 2)
       (OrderBook.mk err (Some (Level.mk (decimal 93 2) ba bt :: bids))
                         (Some (Level.mk (decimal 94 2) aa at_ :: asks)))
     = Some (decimal 94 2))
  /\ (forall err ba bt aa at_ bids asks,
        calculateClearPrice (float_lit 92 2)
          (OrderBook.mk err (Some (Level.mk (float_lit 93 2) ba bt :: bids))
                            (Some (Level.mk (float_lit 94 2) aa at_ :: asks)))
        = Some (float_lit 94 2)).
Proof.
  split; intros; vm_compute; reflexivity.
Qed.

(** C4, as stated, fails: the scenario does not end in "no safe price". *)
Lemma scenario_092_is_not_rejected :
  calculateClearPrice (decimal 92 2) (book1 (decimal 93 2) (decimal 94 2)) <> None.
Proof. vm_compute. discriminate. Qed.

(** C1: the price returned by [calculateClearPrice] should be strictly
    above the best bid and not below the cost price, also after the
    rounding to 3 decimals.  The code checks both before it rounds.  On
    binary64, cost 0.2 with best bid 0.3 and best ask 0.4 returns the best
    bid itself; on exact numbers, cost 0.9304 with best bid 0.5 and best
    ask 0.93 returns 0.93, below cost, and cost 0.5 with best bid 0.9302
    and best ask 0.9304 returns 0.93, below the best bid. *)
Theorem calculateClearPrice_rounds_after_the_checks :
  calculateClearPrice (float_lit 2 1) (book1 (float_lit 3 1) (float_lit 4 1))
    = Some (float_lit 3 1)
  /\ (calculateClearPrice (decimal 9304 4) (book1 (decimal 5 1) (decimal 93 2))
        = Some (decimal 93 2)
      /\ num_ltb (decimal 93 2) (decimal 9304 4) = true)
  /\ (calculateClearPrice (decimal 5 1) (book1 (decimal 9302 4) (decimal 9304 4))
        = Some (decimal 93 2)
      /\ num_leb (decimal 93 2) (decimal 9302 4) = true).
Proof.
  repeat split; vm_compute; reflexivity.
Qed.

(** The two priced scenarios of the specification, on exact numbers and
    on binary64: cost 0.90 against 0.91 / 0.93 clears at 0.93, and cost
    0.85 against 0.80 / 0.95 clears at 0.85. *)
Example scenario_090_clears_at_093 :
  calculateClearPrice (decimal 90 2) (book1 (decimal 91 2) (decimal 93 2))
    = Some (decimal 93 2)
  /\ calculateClearPrice (float_lit 90 2) (book1 (float_lit 91 2) (float_lit 93 2))
      = Some (float_lit 93 2).
Proof. split; vm_compute; reflexivity. Qed.

Example scenario_085_clears_at_085 :
  calculateClearPrice (decimal 85 2) (book1 (decimal 80 2) (decimal 95 2))
    = Some (decimal 85 2)
  /\ calculateClearPrice (float_lit 85 2) (book1 (float_lit 80 2) (float_lit 95 2))
      = Some (float_lit 85 2).
Proof. split; vm_compute; reflexivity. Qed.

Local Close Scope Q_scope.

(** ** Registry and reverse-order submission *)

Lemma alter_twice_Some (f g : TrackedOrder.t -> TrackedOrder.t)
    (m : gmap Z TrackedOrder.t) (id : Z) (o : TrackedOrder.t) :
  m !! id = Some o -> alter f id (alter g id m) = <[id := f (g o)]> m.
Proof.
  intros H. rewrite alter_alter_eq. by apply (alter_alt_Some (f ∘ g)).
Qed.

(** [createReverseClearOrder] writes [clearing], then the final status,
    replaces the record by its settled form and persists. *)
Lemma createReverseClearOrder_settles (w : World) (id : Z) (st : Manager) (o : TrackedOrder.t) :
  trackedOrders st !! id = Some o ->
  createReverseClearOrder w id st =
    mkManager (<[id := settle w o]> (trackedOrders st))
      (Stored (document_of (<[id := settle w o]> (trackedOrders st))))
      (isInitialized st)
      (statusWrites st ++ [(id, clearing); (id, TrackedOrder.status (settle w o))]).
Proof.
  intros H. unfold createReverseClearOrder. rewrite H.
  unfold save at 1, write_status at 1. cbn [trackedOrders].
  rewrite lookup_alter_eq, H. cbn [fmap option_fmap option_map].
  unfold settle.
  destruct (attempt_clear w (TrackedOrder.set_status clearing o)) as [| r p n | msg];
    unfold save, write_status, update_order;
    cbn [trackedOrders storageFile isInitialized statusWrites];
    rewrite <- ?app_assoc; cbn [app].
  - rewrite (alter_twice_Some _ _ _ _ _ H). reflexivity.
  - rewrite (alter_twice_Some _ _ _ _ _ H).
    erewrite alter_alt_Some by apply lookup_insert_eq.
    rewrite insert_insert_eq. reflexivity.
  - rewrite (alter_twice_Some _ _ _ _ _ H).
    erewrite alter_alt_Some by apply lookup_insert_eq.
    rewrite insert_insert_eq. reflexivity.
Qed.

Lemma settle_status (w : World) (o : TrackedOrder.t) :
  TrackedOrder.status (settle w o) = cleared \/ TrackedOrder.status (settle w o) = error.
Proof.
  unfold settle. destruct (attempt_clear w _); cbn; auto.
Qed.
(** The failures named by the specification do end the attempt with a
    message of their own. *)
Lemma invalid_shares_fail (w : World) (o : TrackedOrder.t) :
  TrackedOrder.side o = 1 ->
  invalid_filledShares (TrackedOrder.filledShares o) = true ->
  attempt_clear w o = Failed "成交数量无效".
Proof.
  intros Hside Hinv. unfold attempt_clear. rewrite Hside, Hinv. reflexivity.
Qed.

Section Attempt.
Variables (w : World) (o : TrackedOrder.t) (config api : OrderBookConfig).
Hypothesis Hside : TrackedOrder.side o = 1.
Hypothesis Hshares : invalid_filledShares (TrackedOrder.filledShares o) = false.
Hypothesis Htopic : getTopicInfo w (TrackedOrder.topicId o) = inr tt.
Hypothesis Hconfig : getOrderBookConfig w (TrackedOrder.topicId o) = inr (Some config).
Hypothesis Hapi : new_OrderBookAPI (Some config) = inr api.

Lemma book_error_fails (message : string) :
  OrderBook.error (getOrderBook w api (TrackedOrder.position o)) = Some message ->
  truthy_text (Some message) = true ->
  attempt_clear w o = Failed ("无法获取订单簿: " ++ message).
Proof using Hside Hshares Htopic Hconfig Hapi.
  intros He Ht. unfold attempt_clear.
  rewrite Hside, Hshares, Htopic, Hconfig, Hapi. cbn [negb Z.eqb].
  rewrite He, Ht. reflexivity.
Qed.

Lemma no_safe_price_fails :
  let orderBook := getOrderBook w api (TrackedOrder.position o) in
  truthy_text (OrderBook.error orderBook) = false ->
  is_Some (OrderBook.bids orderBook) -> is_Some (OrderBook.asks orderBook) ->
  calculateClearPrice (num_div (toNumber (TrackedOrder.price o)) (num_Z 100)) orderBook
  = None ->
  attempt_clear w o = Failed "无法计算安全的清理价格（盘口异常）".
Proof using Hside Hshares Htopic Hconfig Hapi.
  intros orderBook He Hb Ha Hp. unfold attempt_clear.
  rewrite Hside, Hshares, Htopic, Hconfig, Hapi. cbn [negb Z.eqb].
  fold orderBook. rewrite He, Hp.
  rewrite !bool_decide_eq_true_2 by assumption. reflexivity.
Qed.

Lemma rejected_sell_fails (clearPrice : number) (message : string) :
  let orderBook := getOrderBook w api (TrackedOrder.position o) in
  truthy_text (OrderBook.error orderBook) = false ->
  is_Some (OrderBook.bids orderBook) -> is_Some (OrderBook.asks orderBook) ->
  calculateClearPrice (num_div (toNumber (TrackedOrder.price o)) (num_Z 100)) orderBook
  = Some clearPrice ->
  num_falsy clearPrice = false ->
  sellByTopic w
    (SellRequest.mk (TrackedOrder.topicId o) (TrackedOrder.position o)
       (toFixed 2 (num_mul clearPrice (num_Z 100)))
       (toFixed 4 (toNumber (TrackedOrder.filledShares o)))) = inl message ->
  attempt_clear w o = Failed message.
Proof using Hside Hshares Htopic Hconfig Hapi.
  intros orderBook He Hb Ha Hp Hf Hs. unfold attempt_clear.
  rewrite Hside, Hshares, Htopic, Hconfig, Hapi. cbn [negb Z.eqb].
  fold orderBook. rewrite He, Hp, Hf, Hs.
  rewrite !bool_decide_eq_true_2 by assumption. reflexivity.
Qed.
End Attempt.

(** ** Fill classification in [updateOrderStatus] *)

Lemma marked_filled (w : World) (st : Manager) (id : Z) (o : TrackedOrder.t)
    (shares usdt : number) :
  trackedOrders st !! id = Some o ->
  update_order id (TrackedOrder.set_fill (clock w) shares usdt) (write_status id filled st)
  = mkManager
      (<[id := TrackedOrder.set_fill (clock w) shares usdt (TrackedOrder.set_status filled o)]>
         (trackedOrders st))
      (storageFile st) (isInitialized st) (statusWrites st ++ [(id, filled)]).
Proof.
  intros H. unfold update_order, write_status.
  cbn [trackedOrders storageFile isInitialized statusWrites].
  rewrite (alter_twice_Some _ _ _ _ _ H). reflexivity.
Qed.

(** One turn of the loop on a closed order that matches a pending
    tracked order. *)
Lemma reconcile_pending (w : World) (st : Manager) (hasChanges : bool)
    (closedOrder : ClosedOrder.t) (o : TrackedOrder.t) :
  let id := ClosedOrder.orderId closedOrder in
  let parts := split_on "/" (ClosedOrder.filled closedOrder) in
  let filledUsdt := parseFloat_at parts 0 in
  let totalUsdt := parseFloat_at parts 1 in
  let shares := num_div filledUsdt (num_div (toNumber (TrackedOrder.price o)) (num_Z 100)) in
  trackedOrders st !! id = Some o ->
  TrackedOrder.status o = pending ->
  reconcile w (st, hasChanges) closedOrder =
    if (ClosedOrder.status closedOrder =? 2)
       && num_geb filledUsdt (num_mul totalUsdt (decimal 999 3))
    then (createReverseClearOrder w id
            (update_order id (TrackedOrder.set_fill (clock w) shares filledUsdt)
               (write_status id filled st)), true)
    else (st, hasChanges).
Proof.
  intros id parts filledUsdt totalUsdt shares Ho Hp.
  unfold reconcile. fold id. rewrite Ho, Hp.
  rewrite bool_decide_eq_true_2 by reflexivity. cbn [negb].
  destruct (ClosedOrder.status closedOrder =? 2); [| reflexivity].
  fold parts filledUsdt totalUsdt.
  destruct (num_geb filledUsdt (num_mul totalUsdt (decimal 999 3))); reflexivity.
Qed.

(** ** Idempotent creation *)

(** C3, as amended: for every orderId already present in the registry,
    calling [trackOrder] again with that orderId does not create a
    duplicate, but it replaces the stored record: the registry then holds,
    and the call returns, a fresh pending record built from the new
    parameters; the other orders are untouched and the registry is
    persisted. *)
Theorem trackOrder_replaces_existing (now : string) (params : TrackParams.t)
    (st : Manager) (existing : TrackedOrder.t) :
  let id := TrackParams.orderId params in
  let fresh :=
    TrackedOrder.mk id (TrackParams.topicId params) (TrackParams.position params)
      (TrackParams.side params) (val (parseFloat (TrackParams.price params)))
      (val (parseFloat (TrackParams.amount params))) now pending null null
      undefined undefined undefined undefined undefined undefined in
  let st' := (trackOrder now params st).2 in
  trackedOrders st !! id = Some existing ->
  (trackOrder now params st).1 = fresh
  /\ trackedOrders st' !! id = Some fresh
  /\ size (trackedOrders st') = size (trackedOrders st)
  /\ (forall j, j <> id -> trackedOrders st' !! j = trackedOrders st !! j)
  /\ storageFile st' = Stored (document_of (trackedOrders st'))
  /\ statusWrites st' = statusWrites st ++ [(id, pending)].
Proof.
  intros id fresh st' H. subst st'. unfold trackOrder, save.
  cbn [fst snd trackedOrders storageFile statusWrites]. fold id fresh.
  repeat split.
  - apply lookup_insert_eq.
  - apply map_size_insert_Some. rewrite H. by eexists.
  - intros j Hj. by apply lookup_insert_ne.
Qed.

(** Tracking order 7 again once it is cleared. *)
Lemma trackOrder_replaces_existing_witness :
  size (trackedOrders (trackOrder "2026-01-01T00:01:00.000Z" sample_params cleared_manager).2)
  = size (trackedOrders cleared_manager).
Proof.
  refine (proj1 (proj2 (proj2
    (trackOrder_replaces_existing "2026-01-01T00:01:00.000Z" sample_params
       cleared_manager (settle calm_world
          (TrackedOrder.set_fill (clock calm_world) (num_Z 10) (num_Z 9)
             (TrackedOrder.set_status filled
                (trackOrder "2026-01-01T00:00:00.000Z" sample_params empty_manager).1)))
       _)))).
  vm_compute. reflexivity.
Defined.

(** C3, as stated, fails: order 7 is stored as cleared, with its reverse
    order; tracking it again returns and stores a pending record without
    them. *)
Lemma trackOrder_again_overwrites :
  let again := trackOrder "2026-01-01T00:01:00.000Z" sample_params cleared_manager in
  (TrackedOrder.status <$> trackedOrders cleared_manager !! 7 = Some cleared
   /\ TrackedOrder.reverseOrderId <$> trackedOrders cleared_manager !! 7 = Some (val 8))
  /\ TrackedOrder.status again.1 = pending
  /\ TrackedOrder.reverseOrderId again.1 = null
  /\ trackedOrders again.2 !! 7 = Some again.1
  /\ trackedOrders again.2 !! 7 <> trackedOrders cleared_manager !! 7.
Proof.
  vm_compute. repeat split; try reflexivity. discriminate.
Qed.

(** ** The status state machine *)

Lemma writes_to_app (id : Z) (l1 l2 : list (Z * Status)) :
  writes_to id (l1 ++ l2) = writes_to id l1 ++ writes_to id l2.
Proof. unfold writes_to. by rewrite filter_app, fmap_app. Qed.

Lemma writes_to_cons (id j : Z) (s : Status) (l : list (Z * Status)) :
  writes_to id ((j, s) :: l) = if decide (j = id) then s :: writes_to id l else writes_to id l.
Proof.
  unfold writes_to. rewrite filter_cons. cbn [fst].
  destruct (decide (j = id)); reflexivity.
Qed.

Lemma last_status_cons (from : option Status) (s : Status) (l : list Status) :
  last_status from (s :: l) = last_status (Some s) l.
Proof.
  unfold last_status. destruct l as [| x l]; [reflexivity |].
  rewrite last_cons_cons. destruct (last (x :: l)) eqn:E; [reflexivity |].
  apply last_None in E. discriminate.
Qed.

Lemma last_status_app (l1 l2 : list Status) (from : option Status) :
  last_status from (l1 ++ l2) = last_status (last_status from l1) l2.
Proof.
  revert from. induction l1 as [| s l1 IH]; intros from; [reflexivity |].
  cbn [app]. rewrite !last_status_cons. apply IH.
Qed.

Lemma chain_app (l1 l2 : list Status) (from : option Status) :
  chain from l1 -> chain (last_status from l1) l2 -> chain from (l1 ++ l2).
Proof.
  revert from. induction l1 as [| s l1 IH]; intros from H1 H2; [exact H2 |].
  destruct H1 as [Hs H1]. rewrite last_status_cons in H2.
  split; [exact Hs | by apply IH].
Qed.

Lemma chain_terminal (s : Status) (l : list Status) :
  s = cleared \/ s = error -> chain (Some s) l -> l = [].
Proof.
  intros Hs H. destruct l as [| x l]; [reflexivity |].
  destruct H as [H _]. destruct Hs as [-> | ->]; destruct x; discriminate.
Qed.

Lemma chain_cleared_after_clearing (pre post : list Status) (from : option Status) :
  chain from (pre ++ cleared :: post) -> last_status from pre = Some clearing.
Proof.
  revert from. induction pre as [| s pre IH]; intros from H.
  - destruct H as [H _]. destruct from as [a |]; [| discriminate].
    destruct a; try discriminate. reflexivity.
  - destruct H as [_ H]. rewrite last_status_cons. by apply IH.
Qed.

Lemma advances_refl (st : Manager) : advances st st.
Proof.
  split; [reflexivity |]. exists []. split; [by rewrite app_nil_r |].
  intros id. split; [exact I | reflexivity].
Qed.

Lemma advances_trans (st1 st2 st3 : Manager) :
  advances st1 st2 -> advances st2 st3 -> advances st1 st3.
Proof.
  intros (Hi1 & new1 & Hw1 & H1) (Hi2 & new2 & Hw2 & H2).
  split; [congruence |]. exists (new1 ++ new2).
  split; [rewrite Hw2, Hw1; by rewrite app_assoc |].
  intros id. destruct (H1 id) as [Hc1 Hl1]. destruct (H2 id) as [Hc2 Hl2].
  rewrite writes_to_app. split.
  - apply chain_app; [exact Hc1 |]. rewrite <- Hl1. exact Hc2.
  - rewrite last_status_app, <- Hl1. exact Hl2.
Qed.

Lemma advances_save (st : Manager) : advances st (save st).
Proof.
  split; [reflexivity |]. exists []. split; [by rewrite app_nil_r |].
  intros id. split; [exact I | reflexivity].
Qed.

(** Writes to one order [id], from status [from] on. *)
Lemma advances_one_order (st st' : Manager) (id : Z) (l : list Status) :
  isInitialized st' = isInitialized st ->
  statusWrites st' = statusWrites st ++ ((fun s => (id, s)) <$> l) ->
  chain (status_of st id) l ->
  status_of st' id = last_status (status_of st id) l ->
  (forall j, j <> id -> status_of st' j = status_of st j) ->
  advances st st'.
Proof.
  intros Hi Hw Hc Hl Ho. split; [exact Hi |]. eexists. split; [exact Hw |].
  intros j.
  assert (Hj : writes_to j ((fun s => (id, s)) <$> l) = if decide (id = j) then l else []).
  { clear. induction l as [| s l IH]; cbn [fmap list_fmap].
    - by destruct (decide (id = j)).
    - rewrite writes_to_cons, IH. by destruct (decide (id = j)). }
  rewrite Hj. destruct (decide (id = j)) as [<- | Hne].
  - split; assumption.
  - split; [exact I |]. apply Ho. congruence.
Qed.

Lemma trackOrder_advances (now : string) (params : TrackParams.t) (st : Manager) :
  trackedOrders st !! TrackParams.orderId params = None ->
  advances st (trackOrder now params st).2.
Proof.
  intros H. apply (advances_one_order _ _ (TrackParams.orderId params) [pending]).
  - reflexivity.
  - reflexivity.
  - unfold status_of. rewrite H. split; [reflexivity | exact I].
  - unfold status_of, trackOrder, save. cbn [snd trackedOrders].
    by rewrite lookup_insert_eq.
  - intros j Hj. unfold status_of, trackOrder, save. cbn [snd trackedOrders].
    by rewrite lookup_insert_ne.
Qed.

Lemma createReverseClearOrder_advances (w : World) (id : Z) (st : Manager) :
  status_of st id = Some filled -> advances st (createReverseClearOrder w id st).
Proof.
  unfold status_of. intros H.
  destruct (trackedOrders st !! id) as [o |] eqn:Ho; [| discriminate].
  injection H as H.
  rewrite (createReverseClearOrder_settles w id st o Ho).
  apply (advances_one_order _ _ id [clearing; TrackedOrder.status (settle w o)]).
  - reflexivity.
  - reflexivity.
  - unfold status_of. rewrite Ho. cbn. rewrite H.
    destruct (settle_status w o) as [-> | ->]; repeat split; reflexivity.
  - unfold status_of. cbn [trackedOrders]. by rewrite lookup_insert_eq.
  - intros j Hj. unfold status_of. cbn [trackedOrders]. by rewrite lookup_insert_ne.
Qed.

Lemma reconcile_advances (w : World) (st : Manager) (hasChanges : bool)
    (closedOrder : ClosedOrder.t) :
  advances st (reconcile w (st, hasChanges) closedOrder).1.
Proof.
  destruct (trackedOrders st !! ClosedOrder.orderId closedOrder) as [o |] eqn:Ho.
  2: { unfold reconcile. rewrite Ho. apply advances_refl. }
  destruct (decide (TrackedOrder.status o = pending)) as [Hp | Hp].
  2: { unfold reconcile. rewrite Ho. rewrite bool_decide_eq_false_2 by exact Hp.
       apply advances_refl. }
  rewrite (reconcile_pending w st hasChanges closedOrder o Ho Hp).
  destruct (_ && _); [| apply advances_refl]. cbn [fst].
  rewrite (marked_filled w st _ o _ _ Ho).
  match goal with
  | |- advances _ (createReverseClearOrder _ _ ?m) => apply (advances_trans _ m)
  end.
  - apply (advances_one_order _ _ (ClosedOrder.orderId closedOrder) [filled]).
    + reflexivity.
    + reflexivity.
    + unfold status_of. rewrite Ho. cbn. rewrite Hp. split; [reflexivity | exact I].
    + unfold status_of. cbn [trackedOrders]. by rewrite lookup_insert_eq.
    + intros j Hj. unfold status_of. cbn [trackedOrders]. by rewrite lookup_insert_ne.
  - apply createReverseClearOrder_advances.
    unfold status_of. cbn [trackedOrders]. by rewrite lookup_insert_eq.
Qed.

Lemma reconcile_all_advances (w : World) (closedOrders : list ClosedOrder.t)
    (st : Manager) (hasChanges : bool) :
  advances st (fold_left (reconcile w) closedOrders (st, hasChanges)).1.
Proof.
  revert st hasChanges.
  induction closedOrders as [| c rest IH]; intros st hasChanges; [apply advances_refl |].
  cbn [fold_left].
  pose proof (reconcile_advances w st hasChanges c) as H.
  destruct (reconcile w (st, hasChanges) c) as [st1 h1]. cbn [fst] in H.
  eapply advances_trans; [exact H | apply IH].
Qed.

Lemma updateOrderStatus_advances (w : World) (closedOrders : list ClosedOrder.t)
    (st : Manager) :
  isInitialized st = true -> advances st (updateOrderStatus w closedOrders st).
Proof.
  intros Hi. unfold updateOrderStatus. rewrite Hi.
  destruct closedOrders as [| c rest]; [apply advances_refl |].
  pose proof (reconcile_all_advances w (c :: rest) st false) as H.
  destruct (fold_left (reconcile w) (c :: rest) (st, false)) as [st' h]. cbn [fst] in H.
  destruct h; [| exact H].
  eapply advances_trans; [exact H | apply advances_save].
Qed.

Lemma step_advances (st : Manager) (op : Op) :
  isInitialized st = true -> regular st op -> advances st (step st op).
Proof.
  intros Hi Hr. destruct op; cbn [step].
  - by apply trackOrder_advances.
  - by apply updateOrderStatus_advances.
  - by apply createReverseClearOrder_advances.
  - apply advances_refl.
  - apply advances_refl.
  - apply advances_refl.
Qed.

Lemma run_advances (ops : list Op) (st : Manager) :
  isInitialized st = true -> regular_run ops st -> advances st (run ops st).
Proof.
  revert st. induction ops as [| op rest IH]; intros st Hi Hr; [apply advances_refl |].
  destruct Hr as [Hop Hrest]. cbn [run fold_left].
  pose proof (step_advances st op Hi Hop) as H.
  eapply advances_trans; [exact H |].
  apply IH; [| exact Hrest]. destruct H as [H _]. congruence.
Qed.

(** C2, as amended: on an initialised manager, for every tracked order
    and every sequence of public operations in which [trackOrder] is only
    called with an orderId that is not tracked yet and
    [createReverseClearOrder] only on an order whose status is filled (the
    way [updateOrderStatus] calls it), the statuses written to the order
    move forward along pending -> filled -> clearing -> {cleared, error};
    cleared and error are terminal; and cleared is only written to an
    order that is in clearing. *)
Theorem status_only_moves_forward (ops : list Op) (st : Manager) (id : Z) :
  isInitialized st = true ->
  regular_run ops st ->
  exists new,
    statusWrites (run ops st) = statusWrites st ++ new
    /\ chain (status_of st id) (writes_to id new)
    /\ status_of (run ops st) id = last_status (status_of st id) (writes_to id new)
    /\ (status_of st id = Some cleared \/ status_of st id = Some error ->
        writes_to id new = [] /\ status_of (run ops st) id = status_of st id)
    /\ (forall pre post,
          writes_to id new = pre ++ cleared :: post ->
          last_status (status_of st id) pre = Some clearing).
Proof.
  intros Hi Hr.
  destruct (run_advances ops st Hi Hr) as (_ & new & Hw & H).
  destruct (H id) as [Hc Hl].
  exists new. split; [exact Hw |]. split; [exact Hc |]. split; [exact Hl |]. split.
  - intros Hs.
    assert (Hnil : writes_to id new = []).
    { destruct Hs as [Hs | Hs]; rewrite Hs in Hc.
      - apply (chain_terminal cleared); auto.
      - apply (chain_terminal error); auto. }
    split; [exact Hnil |]. rewrite Hl, Hnil. reflexivity.
  - intros pre post E. rewrite E in Hc.
    exact (chain_cleared_after_clearing pre post _ Hc).
Qed.

(** Order 7 is tracked, read, filled and cleared, and a later rejection
    by the exchange no longer touches it. *)
Lemma status_only_moves_forward_witness :
  let ops := [ TrackOrder "2026-01-01T00:00:00.000Z" sample_params;
               GetStats;
               UpdateOrderStatus calm_world [ClosedOrder.mk 7 2 "9/9"];
               UpdateOrderStatus rejecting_world [ClosedOrder.mk 7 2 "9/9"] ] in
  exists new,
    statusWrites (run ops empty_manager) = statusWrites empty_manager ++ new
    /\ chain (status_of empty_manager 7) (writes_to 7 new)
    /\ status_of (run ops empty_manager) 7
       = last_status (status_of empty_manager 7) (writes_to 7 new)
    /\ (status_of empty_manager 7 = Some cleared \/ status_of empty_manager 7 = Some error ->
        writes_to 7 new = [] /\ status_of (run ops empty_manager) 7 = status_of empty_manager 7)
    /\ (forall pre post,
          writes_to 7 new = pre ++ cleared :: post ->
          last_status (status_of empty_manager 7) pre = Some clearing).
Proof.
  intros ops. apply (status_only_moves_forward ops empty_manager 7).
  - reflexivity.
  - vm_compute. repeat split; reflexivity.
Defined.

(** C2, as stated, fails: [trackOrder] on the id of a cleared order
    writes pending over cleared, and [createReverseClearOrder] called on
    a cleared order writes clearing over cleared. *)
Lemma public_operations_move_status_backward :
  status_of cleared_manager 7 = Some cleared
  /\ status_of (run [TrackOrder "2026-01-01T00:01:00.000Z" sample_params] cleared_manager) 7
     = Some pending
  /\ forward cleared pending = false
  /\ statusWrites (run [CreateReverseClearOrder calm_world 7] cleared_manager)
     = [(7, pending); (7, filled); (7, clearing); (7, cleared); (7, clearing); (7, cleared)]
  /\ forward cleared clearing = false.
Proof. vm_compute. repeat split; reflexivity. Qed.

(** ** Snapshot differ *)

Lemma map_get_set (k k' : Z) (v : OpenOrder.t) (m : OrderMap) :
  map_get k (map_set k' v m) = if k =? k' then Some v else map_get k m.
Proof.
  induction m as [| [j x] m IH]; cbn [map_set map_get].
  - reflexivity.
  - destruct (k' =? j) eqn:E1; cbn [map_get].
    + apply Z.eqb_eq in E1. subst j. destruct (k =? k'); reflexivity.
    + destruct (k =? j) eqn:E2.
      * apply Z.eqb_eq in E2. subst j.
        rewrite Z.eqb_sym in E1. rewrite E1. reflexivity.
      * exact IH.
Qed.


Lemma compare_previous_emitted (now : string) (current : OrderMap) (d : Dashboard)
    (entry : Z * OpenOrder.t) :
  emitted (compare_previous now current d entry)
  = emitted d ++ previous_events now (topicTitle d) current entry
  /\ topicTitle (compare_previous now current d entry) = topicTitle d.
Proof.
  destruct entry as [id prev]. unfold compare_previous, previous_events. cbn [fst snd].
  destruct (map_get id current) as [c |].
  - destruct (num_gtb _ _); cbn; [split; reflexivity |].
    by rewrite app_nil_r.
  - cbn zeta.
    destruct (bool_decide _); destruct (isFilled prev); cbn; split; reflexivity.
Qed.

Lemma compare_current_emitted (now : string) (previous : OrderMap) (d : Dashboard)
    (entry : Z * OpenOrder.t) :
  emitted (compare_current now previous d entry)
  = emitted d ++ current_events now previous entry.
Proof.
  destruct entry as [id c]. unfold compare_current, current_events. cbn [fst snd].
  destruct (map_get id previous); cbn; [by rewrite app_nil_r | reflexivity].
Qed.

Lemma first_loop_emitted (now : string) (current : OrderMap) (l : OrderMap) (d : Dashboard) :
  emitted (fold_left (compare_previous now current) l d)
  = emitted d ++ flat_map (previous_events now (topicTitle d) current) l
  /\ topicTitle (fold_left (compare_previous now current) l d) = topicTitle d.
Proof.
  revert d. induction l as [| e l IH]; intros d; cbn [fold_left flat_map].
  - by rewrite app_nil_r.
  - destruct (compare_previous_emitted now current d e) as [He Ht].
    destruct (IH (compare_previous now current d e)) as [IHe IHt].
    rewrite IHe, IHt, He, Ht, app_assoc. split; reflexivity.
Qed.

Lemma second_loop_emitted (now : string) (previous : OrderMap) (l : OrderMap) (d : Dashboard) :
  emitted (fold_left (compare_current now previous) l d)
  = emitted d ++ flat_map (current_events now previous) l.
Proof.
  revert d. induction l as [| e l IH]; intros d; cbn [fold_left flat_map].
  - by rewrite app_nil_r.
  - rewrite IH, compare_current_emitted, app_assoc. reflexivity.
Qed.

(** The events of one cycle: those of the first loop in the order of the
    previous snapshot, then those of the second loop. *)
Lemma detectOrderChanges_emitted (now : string) (list : list OpenOrder.t) (d : Dashboard) :
  emitted (detectOrderChanges now (Some list) d)
  = emitted d
    ++ flat_map (previous_events now (topicTitle d) (orders_map list)) (previousOrdersMap d)
    ++ flat_map (current_events now (previousOrdersMap d)) (orders_map list).
Proof.
  unfold detectOrderChanges. cbn [emitted].
  rewrite second_loop_emitted.
  destruct (first_loop_emitted now (orders_map list) (previousOrdersMap d) d) as [-> _].
  by rewrite app_assoc.
Qed.

(** ** Persistence *)

(** *** Order ids as member names *)

Lemma scan_digits_uint (d : Decimal.uint) :
  scan_digits 10 (NilEmpty.string_of_uint d) = (uint_digits d, EmptyString).
Proof.
  induction d; cbn [NilEmpty.string_of_uint uint_digits]; [reflexivity | ..];
    cbn [scan_digits]; rewrite IHd; reflexivity.
Qed.

Lemma digits_value_acc (d : Decimal.uint) (acc : positive) :
  fold_left (fun a x => 10 * a + x) (uint_digits d) (Zpos acc)
  = Zpos (Pos.of_uint_acc d acc).
Proof.
  revert acc. induction d; intros acc; cbn [uint_digits fold_left Pos.of_uint_acc];
    [reflexivity | ..];
    match goal with
    | |- fold_left _ _ ?z = Z.pos (Pos.of_uint_acc _ ?p) =>
        replace z with (Zpos p) by lia; apply IHd
    end.
Qed.

Lemma digits_value_uint (d : Decimal.uint) :
  digits_value 10 (uint_digits d) = Z.of_N (Pos.of_uint d).
Proof.
  unfold digits_value.
  induction d; cbn [uint_digits fold_left Pos.of_uint]; [reflexivity | exact IHd | ..];
    apply (digits_value_acc d).
Qed.

Lemma parseInt_uint (p : positive) :
  parseInt (NilEmpty.string_of_uint (Pos.to_uint p)) = Some (Zpos p)
  /\ parseInt (String "-"%char (NilEmpty.string_of_uint (Pos.to_uint p))) = Some (Zneg p).
Proof.
  pose proof (DecimalPos.Unsigned.of_to p) as Hv.
  pose proof (DecimalPos.Unsigned.to_uint_nonnil p) as Hn.
  pose proof (scan_digits_uint (Pos.to_uint p)) as Hs.
  pose proof (digits_value_uint (Pos.to_uint p)) as Hd.
  rewrite Hv in Hd. cbn [Z.of_N] in Hd.
  destruct (Pos.to_uint p) as [| d | d | d | d | d | d | d | d | d | d];
    [congruence | ..].
  1: destruct d.
  all: unfold parseInt; cbn [NilEmpty.string_of_uint skip_spaces];
    repeat match goal with
      | |- context [is_space ?c] =>
          let b := eval vm_compute in (is_space c) in change (is_space c) with b
      end;
    cbn [take_sign];
    cbn [NilEmpty.string_of_uint] in Hs; rewrite Hs;
    cbn [uint_digits] in Hd |- *; rewrite Hd; split; reflexivity.
Qed.

Lemma parseInt_key_string (id : Z) : parseInt (key_string id) = Some id.
Proof.
  destruct id as [| p | p]; [reflexivity | ..];
    unfold key_string; cbn [Z.to_int NilZero.string_of_int];
    assert (E : NilZero.string_of_uint (Pos.to_uint p)
                = NilEmpty.string_of_uint (Pos.to_uint p))
      by (pose proof (DecimalPos.Unsigned.to_uint_nonnil p);
          destruct (Pos.to_uint p); [congruence | reflexivity ..]);
    rewrite E; apply parseInt_uint.
Qed.

#[export] Instance key_string_inj : Inj (=) (=) key_string.
Proof.
  intros a b H. apply (f_equal parseInt) in H.
  rewrite !parseInt_key_string in H. congruence.
Qed.

(** *** A tracked order written and parsed *)

Lemma get_member_app (name : string) (l1 l2 : json_object) :
  get_member name (l1 ++ l2)
  = match get_member name l1 with
    | undefined => get_member name l2
    | found => found
    end.
Proof.
  induction l1 as [| [n v] l1 IH]; cbn [app get_member]; [reflexivity |].
  destruct (String.eqb n name); [| exact IH]. destruct v; reflexivity.
Qed.

Lemma get_member_same {A : Type} (name : string) (enc : A -> json) (v : slot A) :
  get_member name (member name enc v) = written enc v.
Proof.
  destruct v as [| | a]; cbn [member get_member written]; rewrite ?String.eqb_refl;
    try reflexivity.
  destruct (enc a); reflexivity.
Qed.

Lemma get_member_other {A : Type} (name other : string) (enc : A -> json) (v : slot A) :
  String.eqb other name = false -> get_member name (member other enc v) = undefined.
Proof.
  intros E. destruct v; cbn [member get_member]; rewrite ?E; reflexivity.
Qed.

Ltac read_member :=
  intros; unfold stringify;
  rewrite !get_member_app;
  rewrite ?get_member_same;
  rewrite ?get_member_other by reflexivity;
  cbn [get_member String.eqb Ascii.eqb Bool.eqb json_of_Z];
  repeat match goal with
    | |- context [written ?e ?v] => destruct (written e v)
    end;
  reflexivity.

Lemma member_price (o : TrackedOrder.t) :
  get_member "price" (stringify o) = written json_of_number (TrackedOrder.price o).
Proof. read_member. Qed.

Lemma member_amount (o : TrackedOrder.t) :
  get_member "amount" (stringify o) = written json_of_number (TrackedOrder.amount o).
Proof. read_member. Qed.

Lemma member_filledShares (o : TrackedOrder.t) :
  get_member "filledShares" (stringify o)
  = written json_of_number (TrackedOrder.filledShares o).
Proof. read_member. Qed.

Lemma member_filledUsdt (o : TrackedOrder.t) :
  get_member "filledUsdt" (stringify o) = written json_of_number (TrackedOrder.filledUsdt o).
Proof. read_member. Qed.

Lemma member_reversePrice (o : TrackedOrder.t) :
  get_member "reversePrice" (stringify o)
  = written json_of_number (TrackedOrder.reversePrice o).
Proof. read_member. Qed.

Lemma member_reverseShares (o : TrackedOrder.t) :
  get_member "reverseShares" (stringify o)
  = written json_of_number (TrackedOrder.reverseShares o).
Proof. read_member. Qed.

Lemma member_errorMessage (o : TrackedOrder.t) :
  get_member "errorMessage" (stringify o) = written JString (TrackedOrder.errorMessage o).
Proof. read_member. Qed.

Lemma member_filledAt (o : TrackedOrder.t) :
  get_member "filledAt" (stringify o) = written JString (TrackedOrder.filledAt o).
Proof. read_member. Qed.

Lemma member_clearedAt (o : TrackedOrder.t) :
  get_member "clearedAt" (stringify o) = written JString (TrackedOrder.clearedAt o).
Proof. read_member. Qed.

Lemma member_reverseOrderId (o : TrackedOrder.t) :
  get_member "reverseOrderId" (stringify o) = written json_of_Z (TrackedOrder.reverseOrderId o).
Proof. read_member. Qed.

Lemma member_orderId (o : TrackedOrder.t) :
  get_member "orderId" (stringify o) = val (json_of_Z (TrackedOrder.orderId o)).
Proof. read_member. Qed.

Lemma member_side (o : TrackedOrder.t) :
  get_member "side" (stringify o) = val (json_of_Z (TrackedOrder.side o)).
Proof. read_member. Qed.

Lemma member_topicId (o : TrackedOrder.t) :
  get_member "topicId" (stringify o) = val (JString (TrackedOrder.topicId o)).
Proof. read_member. Qed.

Lemma member_position (o : TrackedOrder.t) :
  get_member "position" (stringify o) = val (JString (TrackedOrder.position o)).
Proof. read_member. Qed.

Lemma member_trackedAt (o : TrackedOrder.t) :
  get_member "trackedAt" (stringify o) = val (JString (TrackedOrder.trackedAt o)).
Proof. read_member. Qed.

Lemma member_status (o : TrackedOrder.t) :
  get_member "status" (stringify o) = val (JString (status_name (TrackedOrder.status o))).
Proof. read_member. Qed.

Lemma integer_of_Z (z : Z) : integer_of (inject_Z z) = Some z.
Proof.
  unfold integer_of. rewrite Qfloor_Z.
  rewrite (proj2 (Qeq_bool_iff _ _)) by reflexivity. reflexivity.
Qed.

Lemma as_number_written (v : slot number) :
  as_number (written json_of_number v) = Some (reload_number v).
Proof. destruct v as [| | [| s | q]]; reflexivity. Qed.

Lemma as_string_written (v : slot string) : as_string (written JString v) = Some v.
Proof. destruct v; reflexivity. Qed.

Lemma as_Z_written (v : slot Z) : as_Z (written json_of_Z v) = Some v.
Proof.
  destruct v as [| | z]; [reflexivity | reflexivity |].
  cbn [written json_of_Z as_Z]. rewrite integer_of_Z. reflexivity.
Qed.

Lemma status_of_status_name (s : Status) : status_of_name (status_name s) = Some s.
Proof. destruct s; reflexivity. Qed.

(** Parsing what [save] wrote for an order gives the order back, its
    numbers that are not finite turned into [null]. *)
Lemma parse_order_stringify (o : TrackedOrder.t) :
  parse_order (stringify o) = Some (reload o).
Proof.
  unfold parse_order.
  rewrite member_orderId, member_topicId, member_position, member_side, member_price,
    member_amount, member_trackedAt, member_status, member_errorMessage,
    member_reverseOrderId, member_filledAt, member_filledShares, member_filledUsdt,
    member_reversePrice, member_reverseShares, member_clearedAt.
  rewrite !as_number_written, !as_string_written, !as_Z_written.
  cbn [as_Z as_string required json_of_Z mbind option_bind].
  rewrite !integer_of_Z. cbn [mbind option_bind required].
  rewrite status_of_status_name. reflexivity.
Qed.


Lemma member_reload (name : string) (v : slot number) :
  member name json_of_number (reload_number v) = member name json_of_number v.
Proof. destruct v as [| | [| s | q]]; reflexivity. Qed.

Lemma stringify_reload (o : TrackedOrder.t) : stringify (reload o) = stringify o.
Proof.
  unfold stringify, reload. cbn. by rewrite !member_reload.
Qed.

(** *** The registry saved and loaded *)

Lemma parse_written_entries (l : list (Z * TrackedOrder.t)) :
  omap parse_entry (prod_map key_string id <$> (prod_map id stringify <$> l))
  = prod_map id reload <$> l.
Proof.
  induction l as [| [k o] l IH]; [reflexivity |].
  cbn [fmap list_fmap omap list_omap prod_map fst snd id].
  unfold parse_entry at 1. cbn [fst snd].
  rewrite parseInt_key_string, parse_order_stringify. cbn [mbind option_bind].
  f_equal. exact IH.
Qed.

Lemma orders_of_document_of (orders : gmap Z TrackedOrder.t) :
  orders_of (document_of orders) = reload <$> orders.
Proof.
  unfold orders_of, document_of.
  rewrite <- (list_to_map_to_list orders) at 2.
  rewrite <- list_to_map_fmap.
  symmetry. apply list_to_map_proper.
  - assert (E : forall l : list (Z * TrackedOrder.t), (prod_map id reload <$> l).*1 = l.*1).
    { induction l as [| [k o] l IH]; [reflexivity |]. cbn. by rewrite IH. }
    rewrite E. apply NoDup_fst_map_to_list.
  - rewrite map_to_list_kmap, map_to_list_fmap, parse_written_entries;
      [reflexivity | exact key_string_inj].
Qed.

Lemma document_of_reload (orders : gmap Z TrackedOrder.t) :
  document_of (reload <$> orders) = document_of orders.
Proof.
  unfold document_of. f_equal. rewrite <- map_fmap_compose.
  apply map_fmap_ext. intros k o _. apply stringify_reload.
Qed.





(** * Further properties of the manager *)

(** ** The storage file mirrors the registry *)

Lemma in_sync_save (st : Manager) : in_sync (save st).
Proof. reflexivity. Qed.

Lemma reload_union (orders : gmap Z TrackedOrder.t) :
  (reload <$> orders) ∪ orders = reload <$> orders.
Proof.
  apply map_eq. intros id. rewrite lookup_union, lookup_fmap.
  destruct (orders !! id); reflexivity.
Qed.

Lemma in_sync_initialize (st : Manager) : in_sync st -> in_sync (initialize st).
Proof.
  unfold in_sync, initialize. destruct (storageFile st) as [| | stored] eqn:E;
    cbn [storageFile trackedOrders]; rewrite ?E; try done.
  intros ->. rewrite orders_of_document_of, reload_union.
  symmetry. apply document_of_reload.
Qed.

Lemma in_sync_createReverseClearOrder (w : World) (id : Z) (st : Manager) :
  in_sync st -> in_sync (createReverseClearOrder w id st).
Proof.
  intros H. destruct (trackedOrders st !! id) as [o |] eqn:Ho.
  - rewrite (createReverseClearOrder_settles w id st o Ho). reflexivity.
  - unfold createReverseClearOrder. rewrite Ho. exact H.
Qed.

Lemma in_sync_reconcile (w : World) (st : Manager) (hasChanges : bool)
    (closedOrder : ClosedOrder.t) :
  in_sync st -> in_sync (reconcile w (st, hasChanges) closedOrder).1.
Proof.
  intros H. unfold reconcile.
  destruct (trackedOrders st !! ClosedOrder.orderId closedOrder) as [o |] eqn:Ho; [| exact H].
  repeat match goal with
    | |- context [if ?b then _ else _] => destruct b; try exact H
    end.
  cbn [fst].
  rewrite (marked_filled w st _ o _ _ Ho).
  match goal with
  | |- in_sync (createReverseClearOrder _ ?i ?m) =>
      assert (Hm : trackedOrders m !! i = Some
                (TrackedOrder.set_fill (clock w)
                   (num_div (parseFloat_at (split_on "/" (ClosedOrder.filled closedOrder)) 0)
                      (num_div (toNumber (TrackedOrder.price o)) (num_Z 100)))
                   (parseFloat_at (split_on "/" (ClosedOrder.filled closedOrder)) 0)
                   (TrackedOrder.set_status filled o)))
        by apply lookup_insert_eq;
      rewrite (createReverseClearOrder_settles _ _ _ _ Hm)
  end.
  reflexivity.
Qed.

Lemma in_sync_reconcile_all (w : World) (closedOrders : list ClosedOrder.t)
    (st : Manager) (hasChanges : bool) :
  in_sync st -> in_sync (fold_left (reconcile w) closedOrders (st, hasChanges)).1.
Proof.
  revert st hasChanges. induction closedOrders as [| c rest IH]; intros st h H; [exact H |].
  cbn [fold_left].
  pose proof (in_sync_reconcile w st h c H) as H1.
  destruct (reconcile w (st, h) c) as [st1 h1]. by apply IH.
Qed.

Lemma in_sync_updateOrderStatus (w : World) (closedOrders : list ClosedOrder.t)
    (st : Manager) :
  in_sync st -> in_sync (updateOrderStatus w closedOrders st).
Proof.
  intros H. unfold updateOrderStatus.
  assert (H0 : in_sync (if isInitialized st then st else initialize st))
    by (destruct (isInitialized st); [exact H | by apply in_sync_initialize]).
  destruct closedOrders as [| c rest]; [exact H0 |].
  pose proof (in_sync_reconcile_all w (c :: rest) _ false H0) as H1.
  destruct (fold_left _ _ _) as [st' h]. destruct h; [apply in_sync_save | exact H1].
Qed.

Lemma in_sync_call (st : Manager) (c : Call) : in_sync st -> in_sync (call st c).
Proof.
  intros H. destruct c as [[now params | w cos | w id | | |] | id | |]; cbn [call step].
  - apply in_sync_save.
  - by apply in_sync_updateOrderStatus.
  - by apply in_sync_createReverseClearOrder.
  - exact H.
  - exact H.
  - exact H.
  - unfold removeTrackedOrder. destruct (trackedOrders st !! id); [apply in_sync_save | exact H].
  - apply in_sync_save.
  - by apply in_sync_initialize.
Qed.

(** X1: every call keeps the storage file in step with the registry: if
    the file mirrors the tracked orders (or nothing is tracked and no
    file was written yet), it still does after any sequence of
    [trackOrder], [updateOrderStatus], [createReverseClearOrder],
    [removeTrackedOrder], [clearAll], [initialize] and reads, whatever the
    collaborators answer.  Writing the file is taken to succeed, as in
    the definition of [save]. *)
Theorem storage_file_mirrors_registry (calls : list Call) (st : Manager) :
  in_sync st -> in_sync (fold_left call calls st).
Proof.
  revert st. induction calls as [| c rest IH]; intros st H; [exact H |].
  cbn [fold_left]. apply IH. by apply in_sync_call.
Qed.

(** From a manager that tracks nothing: an order is tracked, filled,
    rejected by the exchange, and removed. *)
Lemma storage_file_mirrors_registry_witness :
  in_sync (fold_left call
             [ Public (TrackOrder "2026-01-01T00:00:00.000Z" sample_params);
               Public (UpdateOrderStatus rejecting_world [ClosedOrder.mk 7 2 "9/9"]);
               RemoveTrackedOrder 7 ]
             empty_manager).
Proof.
  apply storage_file_mirrors_registry. reflexivity.
Defined.

(** ** Removing orders *)

(** X2: [removeTrackedOrder] answers whether the id was tracked; it
    forgets that order and no other and assigns no status.  On an id
    that is not tracked the manager, file included, is left as it was.
    When it removed the order the removal is durable: a manager
    restarted on the file does not track the id, and tracks every other
    order as it reads back from the file. *)
Theorem removeTrackedOrder_removes_one (id : Z) (st : Manager) :
  (removeTrackedOrder id st).1 = bool_decide (is_Some (trackedOrders st !! id))
  /\ trackedOrders (removeTrackedOrder id st).2 !! id = None
  /\ (forall j, j <> id ->
        trackedOrders (removeTrackedOrder id st).2 !! j = trackedOrders st !! j)
  /\ statusWrites (removeTrackedOrder id st).2 = statusWrites st
  /\ ((removeTrackedOrder id st).1 = false -> (removeTrackedOrder id st).2 = st)
  /\ ((removeTrackedOrder id st).1 = true ->
        forall j,
          trackedOrders (restart (removeTrackedOrder id st).2) !! j
          = if decide (j = id) then None else reload <$> trackedOrders st !! j).
Proof.
  unfold removeTrackedOrder. destruct (trackedOrders st !! id) as [o |] eqn:Ho;
    cbn [fst snd save trackedOrders storageFile statusWrites].
  - split; [reflexivity |]. split; [apply lookup_delete_eq |].
    split; [intros j Hj; by apply lookup_delete_ne |].
    split; [reflexivity |]. split; [discriminate |].
    intros _ j. unfold restart, initialize, save. cbn [storageFile trackedOrders].
    rewrite orders_of_document_of, (right_id_L ∅ (∪)), lookup_fmap.
    destruct (decide (j = id)) as [-> | Hne].
    + by rewrite lookup_delete_eq.
    + by rewrite lookup_delete_ne.
  - split; [reflexivity |]. split; [exact Ho |]. split; [reflexivity |].
    split; [reflexivity |]. split; [reflexivity | discriminate].
Qed.

Lemma document_of_empty : document_of ∅ = ∅.
Proof. unfold document_of. rewrite fmap_empty. apply kmap_empty. Qed.

Lemma orders_of_empty : orders_of ∅ = ∅.
Proof. unfold orders_of. rewrite map_to_list_empty. reflexivity. Qed.

(** X3: [clearAll] is durable: nothing is tracked afterwards, every
    counter of [getStats] is zero, the file holds the empty object, and
    a manager restarted on the file tracks nothing. *)
Theorem clearAll_forgets_everything (st : Manager) :
  trackedOrders (clearAll st) = ∅
  /\ storageFile (clearAll st) = Stored ∅
  /\ getStats (clearAll st) = mkStats 0 0 0 0 0 0
  /\ trackedOrders (restart (clearAll st)) = ∅.
Proof.
  unfold clearAll, save. cbn [trackedOrders]. rewrite document_of_empty.
  split; [reflexivity |]. split; [reflexivity |]. split.
  - unfold getStats, getTrackedOrders. cbn [trackedOrders].
    rewrite map_to_list_empty. reflexivity.
  - unfold restart, initialize. cbn [storageFile trackedOrders].
    rewrite orders_of_empty. apply map_empty_union.
Qed.

(** ** Reading the registry *)

Lemma status_partition (orders : list TrackedOrder.t) :
  let count s := length (filter (fun o => TrackedOrder.status o = s) orders) in
  length orders
  = (count pending + count filled + count clearing + count cleared + count error)%nat.
Proof.
  induction orders as [| o rest IH]; [reflexivity |].
  cbn beta zeta in *. rewrite !filter_cons.
  destruct (TrackedOrder.status o); repeat case_decide; try congruence;
    cbn [length]; lia.
Qed.

(** X4: the counters of [getStats] partition the registry: [total] is the
    number of tracked orders, and the five status counters add up to
    it. *)
Theorem getStats_partitions_the_registry (st : Manager) :
  stat_total (getStats st) = size (trackedOrders st)
  /\ stat_total (getStats st)
     = (stat_pending (getStats st) + stat_filled (getStats st)
        + stat_clearing (getStats st) + stat_cleared (getStats st)
        + stat_error (getStats st))%nat.
Proof.
  split.
  - unfold getStats, getTrackedOrders. cbn [stat_total].
    rewrite length_fmap. apply length_map_to_list.
  - apply (status_partition (getTrackedOrders st)).
Qed.

(** X5: [getOrdersByStatus] returns the tracked orders of that status and
    nothing else, each tracked id once: an order is listed exactly when it
    is stored under some id with that status, and the five lists together
    are as long as [getTrackedOrders]. *)
Theorem getOrdersByStatus_selects (status : Status) (st : Manager) (o : TrackedOrder.t) :
  (o ∈ getOrdersByStatus status st
   <-> TrackedOrder.status o = status /\ exists id, trackedOrders st !! id = Some o)
  /\ length (getTrackedOrders st)
     = (length (getOrdersByStatus pending st) + length (getOrdersByStatus filled st)
        + length (getOrdersByStatus clearing st) + length (getOrdersByStatus cleared st)
        + length (getOrdersByStatus error st))%nat.
Proof.
  split; [| apply (status_partition (getTrackedOrders st))].
  unfold getOrdersByStatus, getTrackedOrders.
  rewrite list_elem_of_filter, list_elem_of_fmap. split.
  - intros [Hs [[id o'] [-> Hin]]]. split; [exact Hs |]. exists id.
    by apply elem_of_map_to_list in Hin.
  - intros [Hs [id Hid]]. split; [exact Hs |]. exists (id, o). split; [reflexivity |].
    by apply elem_of_map_to_list.
Qed.

(** ** The loop of [updateOrderStatus] *)

(** A turn of the loop that finds a pending order fully filled. *)
Lemma reconcile_clears (w : World) (st : Manager) (hasChanges : bool)
    (closedOrder : ClosedOrder.t) (o : TrackedOrder.t) :
  let id := ClosedOrder.orderId closedOrder in
  let o' := settle w (fill_record w closedOrder o) in
  trackedOrders st !! id = Some o ->
  TrackedOrder.status o = pending ->
  fully_filled closedOrder = true ->
  reconcile w (st, hasChanges) closedOrder
  = (mkManager (<[id := o']> (trackedOrders st))
       (Stored (document_of (<[id := o']> (trackedOrders st))))
       (isInitialized st)
       (statusWrites st ++ [(id, filled); (id, clearing); (id, TrackedOrder.status o')]),
     true).
Proof.
  intros id o' Ho Hp Hf.
  rewrite (reconcile_pending w st hasChanges closedOrder o Ho Hp).
  unfold fully_filled in Hf. cbn zeta in Hf. rewrite Hf.
  rewrite (marked_filled w st _ o _ _ Ho).
  match goal with
  | |- (createReverseClearOrder _ ?i ?m, _) = _ =>
      assert (Hm : trackedOrders m !! i = Some (fill_record w closedOrder o))
        by apply lookup_insert_eq;
      rewrite (createReverseClearOrder_settles _ _ _ _ Hm)
  end.
  cbn [trackedOrders storageFile isInitialized statusWrites].
  fold id. fold o'. rewrite insert_insert_eq, <- app_assoc. reflexivity.
Qed.

(** Every other turn leaves the manager as it is. *)
Lemma reconcile_skips (w : World) (st : Manager) (hasChanges : bool)
    (closedOrder : ClosedOrder.t) :
  (forall o, trackedOrders st !! ClosedOrder.orderId closedOrder = Some o ->
             TrackedOrder.status o = pending -> fully_filled closedOrder = false) ->
  reconcile w (st, hasChanges) closedOrder = (st, hasChanges).
Proof.
  intros H. unfold reconcile.
  destruct (trackedOrders st !! ClosedOrder.orderId closedOrder) as [o |]; [| reflexivity].
  case_bool_decide as Hp; cbn [negb]; [| reflexivity].
  specialize (H o eq_refl Hp). unfold fully_filled in H. cbn zeta in H.
  destruct (ClosedOrder.status closedOrder =? 2); [| reflexivity].
  cbn [andb] in H. rewrite H. reflexivity.
Qed.

(** The two cases, side by side. *)
Lemma reconcile_cases (w : World) (st : Manager) (hasChanges : bool)
    (closedOrder : ClosedOrder.t) :
  reconcile w (st, hasChanges) closedOrder = (st, hasChanges)
  \/ exists o,
       trackedOrders st !! ClosedOrder.orderId closedOrder = Some o
       /\ TrackedOrder.status o = pending
       /\ fully_filled closedOrder = true
       /\ (reconcile w (st, hasChanges) closedOrder).2 = true
       /\ trackedOrders (reconcile w (st, hasChanges) closedOrder).1
          = <[ClosedOrder.orderId closedOrder := settle w (fill_record w closedOrder o)]>
              (trackedOrders st)
       /\ isInitialized (reconcile w (st, hasChanges) closedOrder).1 = isInitialized st.
Proof.
  destruct (trackedOrders st !! ClosedOrder.orderId closedOrder) as [o |] eqn:Ho.
  - destruct (decide (TrackedOrder.status o = pending)) as [Hp | Hp].
    + destruct (fully_filled closedOrder) eqn:Hf.
      * right. exists o. rewrite (reconcile_clears w st hasChanges closedOrder o Ho Hp Hf).
        repeat split; assumption.
      * left. apply reconcile_skips. intros; exact Hf.
    + left. apply reconcile_skips. intros o' Ho' Hp'. congruence.
  - left. apply reconcile_skips. intros o' Ho'. congruence.
Qed.

Lemma settle_not_pending (w : World) (o : TrackedOrder.t) :
  TrackedOrder.status (settle w o) <> pending.
Proof. destruct (settle_status w o) as [H | H]; rewrite H; discriminate. Qed.

Lemma reconcile_keeps_not_pending (w : World) (st : Manager) (hasChanges : bool)
    (closedOrder : ClosedOrder.t) (j : Z) :
  not_pending st j -> not_pending (reconcile w (st, hasChanges) closedOrder).1 j.
Proof.
  intros H.
  destruct (reconcile_cases w st hasChanges closedOrder)
    as [-> | (o & Ho & Hp & Hf & _ & Hreg & _)]; [exact H |].
  intros o'. rewrite Hreg.
  destruct (decide (j = ClosedOrder.orderId closedOrder)) as [-> | Hne].
  - rewrite lookup_insert_eq. intros [= <-]. apply settle_not_pending.
  - rewrite lookup_insert_ne by congruence. apply H.
Qed.

Lemma reconcile_done (w : World) (st : Manager) (hasChanges : bool)
    (closedOrder : ClosedOrder.t) :
  done_with (reconcile w (st, hasChanges) closedOrder).1 closedOrder.
Proof.
  intros Hf o'.
  destruct (trackedOrders st !! ClosedOrder.orderId closedOrder) as [o |] eqn:Ho.
  - destruct (decide (TrackedOrder.status o = pending)) as [Hp | Hp].
    + rewrite (reconcile_clears w st hasChanges closedOrder o Ho Hp Hf).
      cbn [fst trackedOrders]. rewrite lookup_insert_eq. intros [= <-].
      apply settle_not_pending.
    + rewrite reconcile_skips by (intros; congruence). cbn [fst]. congruence.
  - rewrite reconcile_skips by (intros; congruence). cbn [fst]. congruence.
Qed.

Lemma reconcile_keeps_done (w : World) (st : Manager) (hasChanges : bool)
    (closedOrder c : ClosedOrder.t) :
  done_with st c -> done_with (reconcile w (st, hasChanges) closedOrder).1 c.
Proof. intros H Hf. apply reconcile_keeps_not_pending. by apply H. Qed.

Lemma reconcile_all_keeps_done (w : World) (closedOrders : list ClosedOrder.t)
    (st : Manager) (hasChanges : bool) (c : ClosedOrder.t) :
  done_with st c -> done_with (fold_left (reconcile w) closedOrders (st, hasChanges)).1 c.
Proof.
  revert st hasChanges. induction closedOrders as [| c' rest IH]; intros st h H; [exact H |].
  cbn [fold_left]. pose proof (reconcile_keeps_done w st h c' c H) as H1.
  destruct (reconcile w (st, h) c') as [st1 h1]. by apply IH.
Qed.

Lemma reconcile_all_done (w : World) (closedOrders : list ClosedOrder.t)
    (st : Manager) (hasChanges : bool) :
  Forall (done_with (fold_left (reconcile w) closedOrders (st, hasChanges)).1) closedOrders.
Proof.
  revert st hasChanges. induction closedOrders as [| c rest IH]; intros st h; [constructor |].
  cbn [fold_left]. pose proof (reconcile_done w st h c) as H1.
  destruct (reconcile w (st, h) c) as [st1 h1]. constructor; [| apply IH].
  by apply reconcile_all_keeps_done.
Qed.

Lemma reconcile_all_noop (w : World) (closedOrders : list ClosedOrder.t)
    (st : Manager) (hasChanges : bool) :
  Forall (done_with st) closedOrders ->
  fold_left (reconcile w) closedOrders (st, hasChanges) = (st, hasChanges).
Proof.
  induction 1 as [| c rest Hc _ IH]; [reflexivity |].
  cbn [fold_left]. rewrite reconcile_skips; [exact IH |].
  intros o Ho Hp. destruct (fully_filled c) eqn:Hf; [| reflexivity].
  exfalso. exact (Hc Hf o Ho Hp).
Qed.

Lemma reconcile_all_initialized (w : World) (closedOrders : list ClosedOrder.t)
    (st : Manager) (hasChanges : bool) :
  isInitialized (fold_left (reconcile w) closedOrders (st, hasChanges)).1 = isInitialized st.
Proof.
  revert st hasChanges. induction closedOrders as [| c rest IH]; intros st h; [reflexivity |].
  cbn [fold_left].
  destruct (reconcile_cases w st h c) as [-> | (o & _ & _ & _ & _ & _ & Hi)]; [apply IH |].
  destruct (reconcile w (st, h) c) as [st1 h1]. rewrite IH. exact Hi.
Qed.

(** After [updateOrderStatus] the manager is initialised and done with
    every closed order it was given. *)
Lemma updateOrderStatus_done (w : World) (closedOrders : list ClosedOrder.t)
    (st : Manager) :
  isInitialized (updateOrderStatus w closedOrders st) = true
  /\ Forall (done_with (updateOrderStatus w closedOrders st)) closedOrders.
Proof.
  assert (Hi : isInitialized (if isInitialized st then st else initialize st) = true).
  { destruct (isInitialized st) eqn:E; [exact E |].
    unfold initialize. destruct (storageFile st); reflexivity. }
  unfold updateOrderStatus.
  set (st0 := if isInitialized st then st else initialize st) in *.
  destruct closedOrders as [| c rest]; [split; [exact Hi | constructor] |].
  pose proof (reconcile_all_done w (c :: rest) st0 false) as Hd.
  pose proof (reconcile_all_initialized w (c :: rest) st0 false) as Hin.
  destruct (fold_left (reconcile w) (c :: rest) (st0, false)) as [st' h].
  cbn [fst] in Hd, Hin. rewrite Hi in Hin.
  destruct h; cbn [save isInitialized]; split; assumption.
Qed.

(** On such a manager [updateOrderStatus] does nothing. *)
Lemma updateOrderStatus_noop (w : World) (closedOrders : list ClosedOrder.t)
    (st : Manager) :
  isInitialized st = true ->
  Forall (done_with st) closedOrders ->
  updateOrderStatus w closedOrders st = st.
Proof.
  intros Hi Hdone. unfold updateOrderStatus. rewrite Hi.
  destruct closedOrders as [| c rest]; [reflexivity |].
  rewrite (reconcile_all_noop w (c :: rest) st false Hdone). reflexivity.
Qed.

(** X6: seeing the same closed orders again changes nothing.  Once
    [updateOrderStatus] has processed a list, a second call with that list
    returns the manager as it is, file included, whatever the
    collaborators would answer the second time: no order is cleared
    twice and no second sell is attempted. *)
Theorem updateOrderStatus_twice (w w' : World) (closedOrders : list ClosedOrder.t)
    (st : Manager) :
  updateOrderStatus w' closedOrders (updateOrderStatus w closedOrders st)
  = updateOrderStatus w closedOrders st.
Proof.
  destruct (updateOrderStatus_done w closedOrders st) as [Hinit Hdone].
  apply updateOrderStatus_noop.
  - exact Hinit.
  - exact Hdone.
Qed.

(** ** What reconciliation leaves alone *)

Lemma same_identity_refl (o : TrackedOrder.t) : same_identity o o.
Proof. repeat split. Qed.

Lemma same_identity_trans (a b c : TrackedOrder.t) :
  same_identity a b -> same_identity b c -> same_identity a c.
Proof. unfold same_identity. intuition congruence. Qed.

Lemma settle_same_identity (w : World) (o : TrackedOrder.t) : same_identity o (settle w o).
Proof. unfold settle. destruct (attempt_clear w _); repeat split. Qed.

Lemma fill_record_same_identity (w : World) (c : ClosedOrder.t) (o : TrackedOrder.t) :
  same_identity o (fill_record w c o).
Proof. repeat split. Qed.

Lemma same_orders_refl (st : Manager) : same_orders st st.
Proof. intros id. destruct (trackedOrders st !! id); [apply same_identity_refl | exact I]. Qed.

Lemma same_orders_trans (a b c : Manager) :
  same_orders a b -> same_orders b c -> same_orders a c.
Proof.
  intros H1 H2 id. specialize (H1 id). specialize (H2 id).
  destruct (trackedOrders a !! id), (trackedOrders b !! id), (trackedOrders c !! id);
    try done. by eapply same_identity_trans.
Qed.

Lemma same_orders_insert (st st' : Manager) (id : Z) (o o' : TrackedOrder.t) :
  trackedOrders st !! id = Some o ->
  trackedOrders st' = <[id := o']> (trackedOrders st) ->
  same_identity o o' ->
  same_orders st st'.
Proof.
  intros Ho Hreg Hid j. rewrite Hreg.
  destruct (decide (j = id)) as [-> | Hne].
  - rewrite Ho, lookup_insert_eq. exact Hid.
  - rewrite lookup_insert_ne by congruence.
    destruct (trackedOrders st !! j); [apply same_identity_refl | exact I].
Qed.

Lemma same_orders_createReverseClearOrder (w : World) (id : Z) (st : Manager) :
  same_orders st (createReverseClearOrder w id st).
Proof.
  destruct (trackedOrders st !! id) as [o |] eqn:Ho.
  - apply (same_orders_insert _ _ id o (settle w o) Ho).
    + rewrite (createReverseClearOrder_settles w id st o Ho). reflexivity.
    + apply settle_same_identity.
  - unfold createReverseClearOrder. rewrite Ho. apply same_orders_refl.
Qed.

Lemma same_orders_reconcile (w : World) (st : Manager) (hasChanges : bool)
    (closedOrder : ClosedOrder.t) :
  same_orders st (reconcile w (st, hasChanges) closedOrder).1.
Proof.
  destruct (reconcile_cases w st hasChanges closedOrder)
    as [-> | (o & Ho & _ & _ & _ & Hreg & _)]; [apply same_orders_refl |].
  apply (same_orders_insert _ _ _ o _ Ho Hreg).
  eapply same_identity_trans;
    [apply (fill_record_same_identity w closedOrder) | apply settle_same_identity].
Qed.

Lemma same_orders_reconcile_all (w : World) (closedOrders : list ClosedOrder.t)
    (st : Manager) (hasChanges : bool) :
  same_orders st (fold_left (reconcile w) closedOrders (st, hasChanges)).1.
Proof.
  revert st hasChanges.
  induction closedOrders as [| c rest IH]; intros st h; [apply same_orders_refl |].
  cbn [fold_left]. pose proof (same_orders_reconcile w st h c) as H1.
  destruct (reconcile w (st, h) c) as [st1 h1].
  exact (same_orders_trans _ _ _ H1 (IH st1 h1)).
Qed.

(** X7: reconciliation neither adds nor drops a tracked order, and never
    rewrites which order a record is: on an initialised manager,
    [updateOrderStatus] and [createReverseClearOrder] leave the set of
    tracked ids and every order's orderId, topicId, position, side,
    price, amount and trackedAt as they were, whatever the closed orders
    and the collaborators are. *)
Theorem reconciliation_keeps_the_orders (w : World) (closedOrders : list ClosedOrder.t)
    (id : Z) (st : Manager) :
  isInitialized st = true ->
  same_orders st (updateOrderStatus w closedOrders st)
  /\ same_orders st (createReverseClearOrder w id st).
Proof.
  intros Hi. split; [| apply same_orders_createReverseClearOrder].
  unfold updateOrderStatus. rewrite Hi.
  destruct closedOrders as [| c rest]; [apply same_orders_refl |].
  pose proof (same_orders_reconcile_all w (c :: rest) st false) as H.
  destruct (fold_left _ _ _) as [st' h]. destruct h; exact H.
Qed.

Lemma reconciliation_keeps_the_orders_witness :
  same_orders tracked_manager
    (updateOrderStatus calm_world [ClosedOrder.mk 7 2 "9/9"] tracked_manager)
  /\ same_orders tracked_manager (createReverseClearOrder calm_world 7 tracked_manager).
Proof.
  apply (reconciliation_keeps_the_orders calm_world [ClosedOrder.mk 7 2 "9/9"] 7
           tracked_manager).
  reflexivity.
Defined.

Lemma reconcile_all_untouched (w : World) (closedOrders : list ClosedOrder.t)
    (st : Manager) (hasChanges : bool) (j : Z) :
  j ∉ ClosedOrder.orderId <$> closedOrders ->
  trackedOrders (fold_left (reconcile w) closedOrders (st, hasChanges)).1 !! j
  = trackedOrders st !! j.
Proof.
  revert st hasChanges. induction closedOrders as [| c rest IH]; intros st h Hj; [reflexivity |].
  rewrite fmap_cons, not_elem_of_cons in Hj. destruct Hj as [Hne Hj].
  cbn [fold_left].
  destruct (reconcile_cases w st h c) as [-> | (o & _ & _ & _ & _ & Hreg & _)];
    [by apply IH |].
  destruct (reconcile w (st, h) c) as [st1 h1]. cbn [fst] in Hreg.
  rewrite IH by exact Hj. rewrite Hreg. by apply lookup_insert_ne.
Qed.

(** X8: [updateOrderStatus] touches only the orders that the closed
    orders name: on an initialised manager, a tracked order whose id is
    the orderId of none of the closed orders is left exactly as it was,
    in every property. *)
Theorem updateOrderStatus_touches_named_orders_only (w : World)
    (closedOrders : list ClosedOrder.t) (st : Manager) (j : Z) :
  isInitialized st = true ->
  j ∉ ClosedOrder.orderId <$> closedOrders ->
  trackedOrders (updateOrderStatus w closedOrders st) !! j = trackedOrders st !! j.
Proof.
  intros Hi Hj. unfold updateOrderStatus. rewrite Hi.
  destruct closedOrders as [| c rest]; [reflexivity |].
  pose proof (reconcile_all_untouched w (c :: rest) st false j Hj) as H.
  destruct (fold_left _ _ _) as [st' h]. destruct h; exact H.
Qed.

Lemma updateOrderStatus_touches_named_orders_only_witness :
  trackedOrders (updateOrderStatus calm_world [ClosedOrder.mk 9 2 "9/9"] tracked_manager) !! 7
  = trackedOrders tracked_manager !! 7.
Proof.
  apply updateOrderStatus_touches_named_orders_only; [reflexivity |].
  cbn. rewrite list_elem_of_singleton. discriminate.
Defined.

(** ** The two ends of [createReverseClearOrder] *)

(** X9: an order that is not a buy needs no collaborator: for a tracked
    order whose side is not 1, [createReverseClearOrder] ends with status
    cleared after passing through clearing, writes the file, and changes
    nothing else of the record: no reverse order id, price, shares or
    clearedAt is stored, and the result is the same in every world, so no
    book is read and no sell is submitted. *)
Theorem sell_side_order_is_cleared_without_a_sell (w : World) (id : Z) (st : Manager)
    (o : TrackedOrder.t) :
  trackedOrders st !! id = Some o ->
  TrackedOrder.side o <> 1 ->
  createReverseClearOrder w id st
  = mkManager (<[id := TrackedOrder.set_status cleared o]> (trackedOrders st))
      (Stored (document_of (<[id := TrackedOrder.set_status cleared o]> (trackedOrders st))))
      (isInitialized st)
      (statusWrites st ++ [(id, clearing); (id, cleared)]).
Proof.
  intros Ho Hside.
  rewrite (createReverseClearOrder_settles w id st o Ho).
  assert (Hs : settle w o = TrackedOrder.set_status cleared o).
  { unfold settle, attempt_clear. cbn [TrackedOrder.set_status TrackedOrder.side].
    apply Z.eqb_neq in Hside. rewrite Hside. reflexivity. }
  rewrite Hs. reflexivity.
Qed.

Lemma sell_side_order_is_cleared_without_a_sell_witness :
  let o := TrackedOrder.mk 7 "789" "YES" 2 (val (Num 90)) (val (Num 10))
             "2026-01-01T00:00:00.000Z" pending null null
             undefined undefined undefined undefined undefined undefined in
  let st := mkManager {[ 7 := o ]} NoFile true [] in
  createReverseClearOrder rejecting_world 7 st
  = mkManager (<[7 := TrackedOrder.set_status cleared o]> (trackedOrders st))
      (Stored (document_of (<[7 := TrackedOrder.set_status cleared o]> (trackedOrders st))))
      true [(7, clearing); (7, cleared)].
Proof.
  intros o st.
  apply (sell_side_order_is_cleared_without_a_sell rejecting_world 7 st o).
  - reflexivity.
  - discriminate.
Defined.

(** How an attempt ends with a submitted sell. *)
Lemma attempt_clear_submitted (w : World) (o : TrackedOrder.t)
    (reverseOrderId : slot Z) (clearPrice shares : number) :
  attempt_clear w o = Submitted reverseOrderId clearPrice shares ->
  TrackedOrder.side o = 1
  /\ invalid_filledShares (TrackedOrder.filledShares o) = false
  /\ shares = toNumber (TrackedOrder.filledShares o)
  /\ exists config answer,
       getOrderBookConfig w (TrackedOrder.topicId o) = inr (Some config)
       /\ truthy_text (questionId config) = true
       /\ is_Some (tokens config)
       /\ calculateClearPrice
            (num_div (toNumber (TrackedOrder.price o)) (num_Z 100))
            (getOrderBook w config (TrackedOrder.position o))
          = Some clearPrice
       /\ sellByTopic w
            (SellRequest.mk (TrackedOrder.topicId o) (TrackedOrder.position o)
               (toFixed 2 (num_mul clearPrice (num_Z 100)))
               (toFixed 4 (toNumber (TrackedOrder.filledShares o))))
          = inr answer.
Proof.
  unfold attempt_clear.
  destruct (TrackedOrder.side o =? 1) eqn:Hside; cbn [negb]; [| discriminate].
  destruct (invalid_filledShares _) eqn:Hinv; [discriminate |].
  destruct (getTopicInfo w _); [discriminate |].
  destruct (getOrderBookConfig w _) as [| [config |]] eqn:Hconfig; try discriminate.
  unfold new_OrderBookAPI.
  destruct (truthy_text (questionId config)) eqn:Hq; cbn [negb orb]; [| discriminate].
  case_bool_decide as Htok; cbn [negb]; [| discriminate].
  match goal with |- context [if ?b then Failed _ else _] => destruct b; [discriminate |] end.
  destruct (calculateClearPrice _ _) as [p |] eqn:Hp; [| discriminate].
  destruct (num_falsy p); [discriminate |].
  destruct (sellByTopic w _) as [| answer] eqn:Hsell; [discriminate |].
  intros [= _ <- <-]. apply Z.eqb_eq in Hside.
  repeat split; try assumption. exists config, answer. repeat split; assumption.
Qed.

Lemma attempt_clear_buy (w : World) (o : TrackedOrder.t) :
  TrackedOrder.side o = 1 -> attempt_clear w o <> NotNeeded.
Proof.
  intros Hside. unfold attempt_clear. rewrite Hside.
  change (negb (1 =? 1)) with false. cbn iota.
  destruct (invalid_filledShares _); [discriminate |].
  destruct (getTopicInfo w _); [discriminate |].
  destruct (getOrderBookConfig w _) as [| config]; [discriminate |].
  destruct (new_OrderBookAPI config); [discriminate |].
  match goal with |- context [if ?b then Failed _ else _] => destruct b; [discriminate |] end.
  destruct (calculateClearPrice _ _) as [p |]; [| discriminate].
  destruct (num_falsy p); [discriminate |].
  destruct (sellByTopic w _); discriminate.
Qed.

(** X10: a buy order only ends cleared after the exchange accepted the
    sell.  If [createReverseClearOrder] leaves a tracked buy order (side
    1) with status cleared, then the depth configuration was obtained,
    [calculateClearPrice] returned a price for costPrice = price / 100 on
    the book fetched for the order's position, and the exchange accepted
    a sell of the position at that price times 100 printed with two
    decimals, for filledShares printed with four decimals; the price is
    stored as reversePrice and the shares as reverseShares, and
    filledShares was a number above zero. *)
Theorem cleared_buy_order_was_sold (w : World) (id : Z) (st : Manager)
    (o o' : TrackedOrder.t) :
  trackedOrders st !! id = Some o ->
  TrackedOrder.side o = 1 ->
  trackedOrders (createReverseClearOrder w id st) !! id = Some o' ->
  TrackedOrder.status o' = cleared ->
  invalid_filledShares (TrackedOrder.filledShares o) = false
  /\ TrackedOrder.reverseShares o' = val (toNumber (TrackedOrder.filledShares o))
  /\ exists config clearPrice answer,
       getOrderBookConfig w (TrackedOrder.topicId o) = inr (Some config)
       /\ calculateClearPrice
            (num_div (toNumber (TrackedOrder.price o)) (num_Z 100))
            (getOrderBook w config (TrackedOrder.position o))
          = Some clearPrice
       /\ sellByTopic w
            (SellRequest.mk (TrackedOrder.topicId o) (TrackedOrder.position o)
               (toFixed 2 (num_mul clearPrice (num_Z 100)))
               (toFixed 4 (toNumber (TrackedOrder.filledShares o))))
          = inr answer
       /\ TrackedOrder.reversePrice o' = val clearPrice.
Proof.
  intros Ho Hside Ho' Hs.
  rewrite (createReverseClearOrder_settles w id st o Ho) in Ho'.
  cbn [trackedOrders] in Ho'. rewrite lookup_insert_eq in Ho'.
  injection Ho' as <-. unfold settle in *.
  destruct (attempt_clear w _) as [| r p n | msg] eqn:Ha.
  - exfalso. revert Ha. apply attempt_clear_buy. exact Hside.
  - apply attempt_clear_submitted in Ha.
    cbn [TrackedOrder.set_status TrackedOrder.side TrackedOrder.filledShares
           TrackedOrder.topicId TrackedOrder.position TrackedOrder.price] in Ha.
    destruct Ha as (_ & Hinv & -> & config & answer & Hc & _ & _ & Hp & Hsell).
    split; [exact Hinv |]. split; [reflexivity |].
    exists config, p, answer. repeat split; assumption.
  - discriminate.
Qed.

(** Order 7, a buy at 90.00, marked filled for 9 USDT and cleared in the
    calm world. *)
Lemma cleared_buy_order_was_sold_witness :
  let o := fill_record calm_world (ClosedOrder.mk 7 2 "9/9")
             (trackOrder "2026-01-01T00:00:00.000Z" sample_params empty_manager).1 in
  let st := mkManager {[ 7 := o ]} NoFile true [] in
  exists o',
    trackedOrders (createReverseClearOrder calm_world 7 st) !! 7 = Some o'
    /\ TrackedOrder.reversePrice o' = val (decimal 93 2)
    /\ exists config clearPrice answer,
         getOrderBookConfig calm_world (TrackedOrder.topicId o) = inr (Some config)
         /\ calculateClearPrice
              (num_div (toNumber (TrackedOrder.price o)) (num_Z 100))
              (getOrderBook calm_world config (TrackedOrder.position o))
            = Some clearPrice
         /\ sellByTopic calm_world
              (SellRequest.mk (TrackedOrder.topicId o) (TrackedOrder.position o)
                 (toFixed 2 (num_mul clearPrice (num_Z 100)))
                 (toFixed 4 (toNumber (TrackedOrder.filledShares o))))
            = inr answer
         /\ TrackedOrder.reversePrice o' = val clearPrice.
Proof.
  intros o st.
  eexists. split; [vm_compute; reflexivity |]. split; [vm_compute; reflexivity |].
  refine (proj2 (proj2 (cleared_buy_order_was_sold calm_world 7 st o _ _ _ _ _))).
  - reflexivity.
  - reflexivity.
  - vm_compute. reflexivity.
  - reflexivity.
Defined.

(** ** Orders at rest *)

Lemma resting_settle (w : World) (o : TrackedOrder.t) : resting (settle w o).
Proof.
  unfold settle, resting. destruct (attempt_clear w _); cbn; eauto.
Qed.

Lemma resting_reload (o : TrackedOrder.t) : resting o -> resting (reload o).
Proof. intros H. exact H. Qed.

Lemma at_rest_save (st : Manager) :
  (forall id o, trackedOrders st !! id = Some o -> resting o) -> at_rest (save st).
Proof. intros H. split; [apply in_sync_save | exact H]. Qed.

Lemma at_rest_initialize (st : Manager) : at_rest st -> at_rest (initialize st).
Proof.
  intros [Hs Hr]. split; [by apply in_sync_initialize |].
  unfold in_sync in Hs. unfold initialize.
  destruct (storageFile st) as [| | stored]; cbn [trackedOrders]; try exact Hr.
  subst stored. rewrite orders_of_document_of, reload_union.
  intros id o. rewrite lookup_fmap. destruct (trackedOrders st !! id) as [o0 |] eqn:Ho;
    [| discriminate].
  intros [= <-]. apply resting_reload. by eapply Hr.
Qed.

Lemma at_rest_insert (st st' : Manager) (id : Z) (o : TrackedOrder.t) :
  at_rest st -> in_sync st' -> trackedOrders st' = <[id := o]> (trackedOrders st) ->
  resting o -> at_rest st'.
Proof.
  intros [_ Hr] Hs Hreg Ho. split; [exact Hs |]. intros j o'. rewrite Hreg.
  destruct (decide (j = id)) as [-> | Hne].
  - rewrite lookup_insert_eq. by intros [= <-].
  - rewrite lookup_insert_ne by congruence. apply Hr.
Qed.

Lemma at_rest_createReverseClearOrder (w : World) (id : Z) (st : Manager) :
  at_rest st -> at_rest (createReverseClearOrder w id st).
Proof.
  intros H. destruct (trackedOrders st !! id) as [o |] eqn:Ho.
  - apply (at_rest_insert st _ id (settle w o) H).
    + apply in_sync_createReverseClearOrder, H.
    + rewrite (createReverseClearOrder_settles w id st o Ho). reflexivity.
    + apply resting_settle.
  - unfold createReverseClearOrder. rewrite Ho. exact H.
Qed.

Lemma at_rest_reconcile (w : World) (st : Manager) (hasChanges : bool)
    (closedOrder : ClosedOrder.t) :
  at_rest st -> at_rest (reconcile w (st, hasChanges) closedOrder).1.
Proof.
  intros H.
  pose proof (in_sync_reconcile w st hasChanges closedOrder (proj1 H)) as Hs.
  destruct (reconcile_cases w st hasChanges closedOrder)
    as [-> | (o & _ & _ & _ & _ & Hreg & _)]; [exact H |].
  exact (at_rest_insert st _ _ _ H Hs Hreg (resting_settle w _)).
Qed.

Lemma at_rest_reconcile_all (w : World) (closedOrders : list ClosedOrder.t)
    (st : Manager) (hasChanges : bool) :
  at_rest st -> at_rest (fold_left (reconcile w) closedOrders (st, hasChanges)).1.
Proof.
  revert st hasChanges. induction closedOrders as [| c rest IH]; intros st h H; [exact H |].
  cbn [fold_left]. pose proof (at_rest_reconcile w st h c H) as H1.
  destruct (reconcile w (st, h) c) as [st1 h1]. by apply IH.
Qed.

Lemma at_rest_call (st : Manager) (c : Call) : at_rest st -> at_rest (call st c).
Proof.
  intros H. destruct c as [[now params | w cos | w id | | |] | id | |]; cbn [call step];
    try exact H.
  - unfold trackOrder. cbn [snd]. apply at_rest_save. cbn [trackedOrders].
    intros j o. destruct (decide (j = TrackParams.orderId params)) as [-> | Hne].
    + rewrite lookup_insert_eq. intros [= <-]. exact I.
    + rewrite lookup_insert_ne by congruence. apply H.
  - unfold updateOrderStatus.
    assert (H0 : at_rest (if isInitialized st then st else initialize st))
      by (destruct (isInitialized st); [exact H | by apply at_rest_initialize]).
    destruct cos as [| c rest]; [exact H0 |].
    pose proof (at_rest_reconcile_all w (c :: rest) _ false H0) as H1.
    destruct (fold_left _ _ _) as [st' h]. destruct h; [| exact H1].
    apply at_rest_save, H1.
  - by apply at_rest_createReverseClearOrder.
  - unfold removeTrackedOrder. destruct (trackedOrders st !! id) eqn:Ho; [| exact H].
    cbn [snd]. apply at_rest_save. cbn [trackedOrders]. intros j o.
    destruct (decide (j = id)) as [-> | Hne].
    + by rewrite lookup_delete_eq.
    + rewrite lookup_delete_ne by congruence. apply H.
  - unfold clearAll. apply at_rest_save. cbn [trackedOrders]. intros j o.
    by rewrite lookup_empty.
  - by apply at_rest_initialize.
Qed.

Lemma no_order_of_status (status : Status) (st : Manager) :
  (forall id o, trackedOrders st !! id = Some o -> TrackedOrder.status o <> status) ->
  getOrdersByStatus status st = [].
Proof.
  intros H. unfold getOrdersByStatus, getTrackedOrders.
  destruct (filter _ _) as [| o rest] eqn:E; [reflexivity |].
  assert (Hin : o ∈ filter (fun order => TrackedOrder.status order = status)
                      (map_to_list (trackedOrders st)).*2)
    by (rewrite E; left).
  apply list_elem_of_filter in Hin as [Hs Hin].
  apply list_elem_of_fmap in Hin as [[id o'] [-> Hin]].
  apply elem_of_map_to_list in Hin. exfalso. exact (H id o' Hin Hs).
Qed.

(** X11: filled and clearing are passing statuses.  Starting from a
    manager whose file mirrors its registry and whose orders are all
    pending, cleared or error (an error order carrying its message), the
    same holds after every sequence of calls: when a call has ended, no
    tracked order is left in status filled or clearing, the two counters
    of [getStats] for them are zero, and every order in status error has
    an errorMessage. *)
Theorem orders_rest_between_calls (calls : list Call) (st : Manager) :
  at_rest st ->
  at_rest (fold_left call calls st)
  /\ getOrdersByStatus filled (fold_left call calls st) = []
  /\ getOrdersByStatus clearing (fold_left call calls st) = []
  /\ stat_filled (getStats (fold_left call calls st)) = 0%nat
  /\ stat_clearing (getStats (fold_left call calls st)) = 0%nat.
Proof.
  intros H.
  assert (Hr : at_rest (fold_left call calls st)).
  { revert st H. induction calls as [| c rest IH]; intros st H; [exact H |].
    cbn [fold_left]. apply IH. by apply at_rest_call. }
  assert (Hf : getOrdersByStatus filled (fold_left call calls st) = []).
  { apply no_order_of_status. intros id o Ho Hs.
    pose proof (proj2 Hr id o Ho) as Hrest. unfold resting in Hrest.
    rewrite Hs in Hrest. exact Hrest. }
  assert (Hc : getOrdersByStatus clearing (fold_left call calls st) = []).
  { apply no_order_of_status. intros id o Ho Hs.
    pose proof (proj2 Hr id o Ho) as Hrest. unfold resting in Hrest.
    rewrite Hs in Hrest. exact Hrest. }
  split; [exact Hr |]. split; [exact Hf |]. split; [exact Hc |].
  unfold getOrdersByStatus in Hf, Hc. unfold getStats. cbn [stat_filled stat_clearing].
  rewrite Hf, Hc. split; reflexivity.
Qed.

Lemma orders_rest_between_calls_witness :
  let calls :=
    [ Public (TrackOrder "2026-01-01T00:00:00.000Z" sample_params);
      Public (UpdateOrderStatus rejecting_world [ClosedOrder.mk 7 2 "9/9"]);
      Public (CreateReverseClearOrder calm_world 7) ] in
  at_rest (fold_left call calls empty_manager)
  /\ getOrdersByStatus filled (fold_left call calls empty_manager) = []
  /\ getOrdersByStatus clearing (fold_left call calls empty_manager) = []
  /\ stat_filled (getStats (fold_left call calls empty_manager)) = 0%nat
  /\ stat_clearing (getStats (fold_left call calls empty_manager)) = 0%nat.
Proof.
  intros calls. apply (orders_rest_between_calls calls empty_manager).
  split; [reflexivity |]. intros id o Ho. vm_compute in Ho. discriminate.
Defined.

(** ** Loading *)

(** X12: [initialize] merges the file into the registry and can be
    repeated.  When the file holds the document of [saved], an id of
    [saved] is tracked afterwards with the record read back from the file,
    replacing what the registry held under that id, and every other id
    keeps what the registry held; the manager is initialised, and a
    second [initialize] changes nothing. *)
Theorem initialize_merges_the_file (st : Manager) (saved : gmap Z TrackedOrder.t) :
  storageFile st = Stored (document_of saved) ->
  (forall id,
     trackedOrders (initialize st) !! id
     = match saved !! id with
       | Some o => Some (reload o)
       | None => trackedOrders st !! id
       end)
  /\ isInitialized (initialize st) = true
  /\ initialize (initialize st) = initialize st.
Proof.
  intros Hfile. unfold initialize. rewrite Hfile.
  cbn [trackedOrders storageFile isInitialized]. rewrite ?Hfile.
  rewrite orders_of_document_of. split; [| split; [reflexivity |]].
  - intros id. rewrite lookup_union, lookup_fmap.
    destruct (saved !! id), (trackedOrders st !! id); reflexivity.
  - f_equal. rewrite (assoc_L (∪)). f_equal. apply map_eq. intros id.
    rewrite lookup_union. destruct ((reload <$> saved) !! id); reflexivity.
Qed.

Lemma initialize_merges_the_file_witness :
  let st := mkManager ∅ (storageFile cleared_manager) false [] in
  (forall id,
     trackedOrders (initialize st) !! id
     = match trackedOrders cleared_manager !! id with
       | Some o => Some (reload o)
       | None => trackedOrders st !! id
       end)
  /\ isInitialized (initialize st) = true
  /\ initialize (initialize st) = initialize st.
Proof.
  intros st. apply (initialize_merges_the_file st (trackedOrders cleared_manager)).
  reflexivity.
Defined.


(** * Further properties of the snapshot differ *)

(** ** The snapshot map *)

Lemma map_set_keys (k : Z) (v : OpenOrder.t) (m : OrderMap) :
  (map_set k v m).*1 = if bool_decide (k ∈ m.*1) then m.*1 else m.*1 ++ [k].
Proof.
  induction m as [| [j x] m IH]; cbn [map_set fmap list_fmap fst].
  - rewrite bool_decide_eq_false_2 by apply not_elem_of_nil. reflexivity.
  - destruct (k =? j) eqn:E.
    + apply Z.eqb_eq in E. subst j. cbn [fmap list_fmap fst].
      rewrite bool_decide_eq_true_2 by left. reflexivity.
    + apply Z.eqb_neq in E. cbn [fmap list_fmap fst]. fold (@fmap list _ _ _ fst m).
      fold (@fmap list _ _ _ fst (map_set k v m)). rewrite IH.
      case_bool_decide as H1; case_bool_decide as H2; try reflexivity.
      * exfalso. apply H2. by right.
      * exfalso. apply elem_of_cons in H2 as [? | ?]; [congruence | contradiction].
Qed.

Lemma map_set_NoDup (k : Z) (v : OpenOrder.t) (m : OrderMap) :
  NoDup m.*1 -> NoDup (map_set k v m).*1.
Proof.
  intros H. rewrite map_set_keys. case_bool_decide as Hk; [exact H |].
  apply NoDup_app. split; [exact H |]. split; [| apply NoDup_singleton].
  intros x Hx Hx'. apply list_elem_of_singleton in Hx'. congruence.
Qed.

Lemma orders_map_from_NoDup (list : list OpenOrder.t) (m : OrderMap) :
  NoDup m.*1 ->
  NoDup (fold_left (fun m order => map_set (OpenOrder.orderId order) order m) list m).*1.
Proof.
  revert m. induction list as [| o rest IH]; intros m H; [exact H |].
  cbn [fold_left]. apply IH. by apply map_set_NoDup.
Qed.

Lemma orders_map_NoDup (list : list OpenOrder.t) : NoDup (orders_map list).*1.
Proof. apply orders_map_from_NoDup. constructor. Qed.

Lemma map_get_elem_of (k : Z) (v : OpenOrder.t) (m : OrderMap) :
  NoDup m.*1 -> (k, v) ∈ m -> map_get k m = Some v.
Proof.
  induction m as [| [j x] m IH]; intros Hnd Hin; [by apply elem_of_nil in Hin |].
  cbn [fmap list_fmap fst] in Hnd. apply NoDup_cons in Hnd as [Hj Hnd].
  cbn [map_get]. apply elem_of_cons in Hin as [[= -> ->] | Hin].
  - by rewrite Z.eqb_refl.
  - destruct (k =? j) eqn:E; [| by apply IH].
    apply Z.eqb_eq in E. subst j. exfalso. apply Hj.
    apply list_elem_of_fmap. by exists (k, v).
Qed.

Lemma map_get_is_Some (k : Z) (m : OrderMap) : is_Some (map_get k m) <-> k ∈ m.*1.
Proof.
  induction m as [| [j x] m IH]; cbn [map_get fmap list_fmap fst].
  - split; [by intros [? ?] | by intros ?%elem_of_nil].
  - destruct (k =? j) eqn:E.
    + apply Z.eqb_eq in E. subst j. split; [left | by eexists].
    + apply Z.eqb_neq in E. rewrite IH. split; [by right |].
      intros [? | ?]%elem_of_cons; [congruence | assumption].
Qed.

Lemma orders_map_from_lookup (id : Z) (list : list OpenOrder.t) (m : OrderMap) :
  map_get id (fold_left (fun m order => map_set (OpenOrder.orderId order) order m) list m)
  = match last (filter (fun order => OpenOrder.orderId order = id) list) with
    | Some order => Some order
    | None => map_get id m
    end.
Proof.
  revert m. induction list as [| o rest IH]; intros m; [reflexivity |].
  cbn [fold_left]. rewrite IH, filter_cons, map_get_set.
  case_decide as Ho.
  - subst id. rewrite Z.eqb_refl, last_cons.
    destruct (last (filter _ rest)); reflexivity.
  - assert (E : (id =? OpenOrder.orderId o) = false) by (apply Z.eqb_neq; congruence).
    rewrite E. reflexivity.
Qed.

Lemma orders_map_from_keys (id : Z) (list : list OpenOrder.t) (m : OrderMap) :
  id ∈ (fold_left (fun m order => map_set (OpenOrder.orderId order) order m) list m).*1
  <-> id ∈ m.*1 \/ id ∈ OpenOrder.orderId <$> list.
Proof.
  revert m. induction list as [| o rest IH]; intros m.
  - cbn [fold_left]. rewrite fmap_nil, elem_of_nil. tauto.
  - cbn [fold_left]. rewrite IH, map_set_keys, fmap_cons, elem_of_cons.
    case_bool_decide as Hk.
    + split; [tauto |]. intros [? | [-> | ?]]; tauto.
    + rewrite elem_of_app, list_elem_of_singleton. tauto.
Qed.

(** X13: the snapshot built from the order list is a map: it holds one
    entry per order id, an id of the list is a key and no other is, and
    looking an id up gives the last order of the list that carries it
    (a later duplicate overwrites an earlier one). *)
Theorem orders_map_keeps_the_last_order (list : list OpenOrder.t) (id : Z) :
  NoDup (orders_map list).*1
  /\ (id ∈ (orders_map list).*1 <-> id ∈ OpenOrder.orderId <$> list)
  /\ map_get id (orders_map list)
     = last (filter (fun order => OpenOrder.orderId order = id) list).
Proof.
  split; [apply orders_map_NoDup |]. split.
  - unfold orders_map. rewrite orders_map_from_keys, fmap_nil, elem_of_nil. tauto.
  - unfold orders_map. rewrite orders_map_from_lookup.
    destruct (last _); reflexivity.
Qed.

(** ** A cycle against an unchanged list *)

Lemma num_gtb_irrefl (x : number) : num_gtb x x = false.
Proof.
  destruct x as [| s | q]; cbn; [reflexivity | by destruct s |].
  unfold Qltb. apply negb_false_iff, Qle_bool_iff, Qle_refl.
Qed.

Lemma fold_left_unchanged {A B : Type} (f : A -> B -> A) (l : list B) (a : A) :
  (forall b, b ∈ l -> f a b = a) -> fold_left f l a = a.
Proof.
  induction l as [| b l IH]; intros H; [reflexivity |].
  cbn [fold_left]. rewrite (H b) by left. apply IH. intros b' Hb'. apply H. by right.
Qed.

(** Compared with itself, a snapshot raises nothing, in either loop. *)
Lemma first_loop_silent (now : string) (list : list OpenOrder.t) (d : Dashboard) :
  fold_left (compare_previous now (orders_map list)) (orders_map list) d = d.
Proof.
  apply fold_left_unchanged. intros [k v] Hin. unfold compare_previous.
  rewrite (map_get_elem_of k v _ (orders_map_NoDup list) Hin).
  by rewrite num_gtb_irrefl.
Qed.

Lemma second_loop_silent (now : string) (list : list OpenOrder.t) (d : Dashboard) :
  fold_left (compare_current now (orders_map list)) (orders_map list) d = d.
Proof.
  apply fold_left_unchanged. intros [k v] Hin. unfold compare_current.
  by rewrite (map_get_elem_of k v _ (orders_map_NoDup list) Hin).
Qed.

(** X14: a cycle that sees the list it saw last time is silent.  After
    [detectOrderChanges] has run on a list, running it again on the same
    list changes nothing: no event, no notification, the same history and
    the same marks. *)
Theorem detectOrderChanges_twice (now now' : string) (list : list OpenOrder.t)
    (d : Dashboard) :
  detectOrderChanges now' (Some list) (detectOrderChanges now (Some list) d)
  = detectOrderChanges now (Some list) d.
Proof.
  set (d1 := detectOrderChanges now (Some list) d).
  assert (Hprev : previousOrdersMap d1 = orders_map list) by reflexivity.
  unfold detectOrderChanges at 1.
  rewrite Hprev, first_loop_silent, second_loop_silent.
  destruct d1 as [previous history marks title sent events].
  cbn [previousOrdersMap] in Hprev. subst previous. reflexivity.
Qed.

(** ** The event history *)

Lemma newest_length {A : Type} (n : nat) (l : list A) : (length (newest n l) <= n)%nat.
Proof. unfold newest. rewrite length_drop. lia. Qed.

Lemma newest_short {A : Type} (n : nat) (l : list A) :
  (length l <= n)%nat -> newest n l = l.
Proof. intros H. unfold newest. replace (length l - n)%nat with 0%nat by lia. reflexivity. Qed.

Lemma newest_app {A : Type} (n : nat) (a b : list A) :
  newest n (newest n a ++ b) = newest n (a ++ b).
Proof.
  destruct (decide (length a <= n)%nat) as [Hle | Hgt].
  - by rewrite (newest_short n a Hle).
  - unfold newest. rewrite !length_app, length_drop.
    rewrite <- (drop_app_le a b (length a - n)) by lia.
    rewrite drop_drop. f_equal. lia.
Qed.

Lemma addEvent_history (event : Event.t) (d : Dashboard) :
  eventHistory (addEvent event d) = newest MAX_EVENT_HISTORY (eventHistory d ++ [event]).
Proof. reflexivity. Qed.

Lemma logged_trans (d1 d2 d3 : Dashboard) (a b : list Event.t) :
  logged d1 d2 a -> logged d2 d3 b -> logged d1 d3 (a ++ b).
Proof.
  intros [He1 Hh1] [He2 Hh2]. split.
  - by rewrite He2, He1, app_assoc.
  - by rewrite Hh2, Hh1, newest_app, app_assoc.
Qed.

Lemma logged_compare_previous (now : string) (current : OrderMap) (d : Dashboard)
    (entry : Z * OpenOrder.t) :
  (length (eventHistory d) <= MAX_EVENT_HISTORY)%nat ->
  logged d (compare_previous now current d entry)
    (previous_events now (topicTitle d) current entry).
Proof.
  intros Hlen. destruct entry as [id prev].
  unfold logged, compare_previous, previous_events. cbn [fst snd].
  destruct (map_get id current) as [c |].
  - destruct (num_gtb _ _); cbn [addEvent emitted eventHistory]; [split; reflexivity |].
    rewrite !app_nil_r. split; [reflexivity |]. symmetry. by apply newest_short.
  - cbn zeta.
    destruct (bool_decide _); destruct (isFilled prev); cbn; split; reflexivity.
Qed.

Lemma logged_compare_current (now : string) (previous : OrderMap) (d : Dashboard)
    (entry : Z * OpenOrder.t) :
  (length (eventHistory d) <= MAX_EVENT_HISTORY)%nat ->
  logged d (compare_current now previous d entry) (current_events now previous entry).
Proof.
  intros Hlen. destruct entry as [id c].
  unfold logged, compare_current, current_events. cbn [fst snd].
  destruct (map_get id previous); cbn [addEvent emitted eventHistory];
    [| split; reflexivity].
  rewrite !app_nil_r. split; [reflexivity |]. symmetry. by apply newest_short.
Qed.

Lemma logged_capped (d d' : Dashboard) (new : list Event.t) :
  logged d d' new -> (length (eventHistory d') <= MAX_EVENT_HISTORY)%nat.
Proof. intros [_ ->]. apply newest_length. Qed.

Lemma logged_first_loop (now : string) (current : OrderMap) (l : OrderMap) (d : Dashboard) :
  (length (eventHistory d) <= MAX_EVENT_HISTORY)%nat ->
  logged d (fold_left (compare_previous now current) l d)
    (flat_map (previous_events now (topicTitle d) current) l).
Proof.
  revert d. induction l as [| e l IH]; intros d Hlen; cbn [fold_left flat_map].
  - split; rewrite app_nil_r; [reflexivity |]. symmetry. by apply newest_short.
  - pose proof (logged_compare_previous now current d e Hlen) as H1.
    eapply logged_trans; [exact H1 |].
    destruct (compare_previous_emitted now current d e) as [_ Ht]. rewrite <- Ht.
    apply IH. exact (logged_capped _ _ _ H1).
Qed.

Lemma logged_second_loop (now : string) (previous : OrderMap) (l : OrderMap) (d : Dashboard) :
  (length (eventHistory d) <= MAX_EVENT_HISTORY)%nat ->
  logged d (fold_left (compare_current now previous) l d)
    (flat_map (current_events now previous) l).
Proof.
  revert d. induction l as [| e l IH]; intros d Hlen; cbn [fold_left flat_map].
  - split; rewrite app_nil_r; [reflexivity |]. symmetry. by apply newest_short.
  - pose proof (logged_compare_current now previous d e Hlen) as H1.
    eapply logged_trans; [exact H1 |]. apply IH. exact (logged_capped _ _ _ H1).
Qed.

Lemma logged_detectOrderChanges (now : string) (list : list OpenOrder.t) (d : Dashboard) :
  (length (eventHistory d) <= MAX_EVENT_HISTORY)%nat ->
  logged d (detectOrderChanges now (Some list) d)
    (flat_map (previous_events now (topicTitle d) (orders_map list)) (previousOrdersMap d)
     ++ flat_map (current_events now (previousOrdersMap d)) (orders_map list)).
Proof.
  intros Hlen.
  pose proof (logged_first_loop now (orders_map list) (previousOrdersMap d) d Hlen) as H1.
  pose proof (logged_second_loop now (previousOrdersMap d) (orders_map list) _
                (logged_capped _ _ _ H1)) as H2.
  exact (logged_trans _ _ _ _ _ H1 H2).
Qed.

(** X15: the event history is a window on the events.  [addEvent] never
    leaves more than MAX_EVENT_HISTORY = 100 entries, and after a cycle of
    [detectOrderChanges] the history is the old history followed by the
    events of the cycle, cut to its newest 100 entries: events are dropped
    oldest first and never reordered. *)
Theorem event_history_is_a_window (now : string) (list : list OpenOrder.t)
    (event : Event.t) (d : Dashboard) :
  (length (eventHistory d) <= MAX_EVENT_HISTORY)%nat ->
  (length (eventHistory (addEvent event d)) <= MAX_EVENT_HISTORY)%nat
  /\ exists new,
       emitted (detectOrderChanges now (Some list) d) = emitted d ++ new
       /\ eventHistory (detectOrderChanges now (Some list) d)
          = drop (length (eventHistory d ++ new) - MAX_EVENT_HISTORY) (eventHistory d ++ new)
       /\ (length (eventHistory (detectOrderChanges now (Some list) d))
           <= MAX_EVENT_HISTORY)%nat.
Proof.
  intros Hlen. split; [rewrite addEvent_history; apply newest_length |].
  pose proof (logged_detectOrderChanges now list d Hlen) as H.
  eexists. split; [exact (proj1 H) |]. split; [exact (proj2 H) |].
  exact (logged_capped _ _ _ H).
Qed.

Lemma event_history_is_a_window_witness :
  let d := snapshot_of "10" "0" in
  let event := creation_event "12:00:00" 6 (OpenOrder.mk 6 1 None "0.4" "3" None) in
  (length (eventHistory (addEvent event d)) <= MAX_EVENT_HISTORY)%nat
  /\ exists new,
       emitted (detectOrderChanges "12:00:05" (Some []) d) = emitted d ++ new
       /\ eventHistory (detectOrderChanges "12:00:05" (Some []) d)
          = drop (length (eventHistory d ++ new) - MAX_EVENT_HISTORY) (eventHistory d ++ new)
       /\ (length (eventHistory (detectOrderChanges "12:00:05" (Some []) d))
           <= MAX_EVENT_HISTORY)%nat.
Proof.
  intros d event. apply (event_history_is_a_window "12:00:05" [] event d).
  cbn. lia.
Defined.

(** ** What the events of a cycle are about *)

Lemma elem_of_flat_map {A B : Type} (f : A -> list B) (l : list A) (b : B) :
  b ∈ flat_map f l <-> exists a, a ∈ l /\ b ∈ f a.
Proof.
  rewrite !list_elem_of_In, in_flat_map. split; intros [a [H1 H2]]; exists a;
    by rewrite ?list_elem_of_In in *.
Qed.

Lemma map_get_of_entry (k : Z) (v : OpenOrder.t) (m : OrderMap) :
  (k, v) ∈ m -> is_Some (map_get k m).
Proof.
  intros Hin. apply map_get_is_Some, list_elem_of_fmap. by exists (k, v).
Qed.

(** X16: every event of a cycle is about an order of one of the two
    snapshots, and its type says where the order stands: an order_filled
    or order_removed event names an order of the previous snapshot that
    is missing from the current list, an order_partially_filled event an
    order present in both, and an order_created event an order of the
    current list that the previous snapshot did not hold. *)
Theorem events_name_the_changed_orders (now : string) (list : list OpenOrder.t)
    (d : Dashboard) (event : Event.t) :
  event ∈ drop (length (emitted d)) (emitted (detectOrderChanges now (Some list) d)) ->
  let before := map_get (Event.orderId event) (previousOrdersMap d) in
  let after := map_get (Event.orderId event) (orders_map list) in
  match Event.type event with
  | order_filled | order_removed => is_Some before /\ after = None
  | order_partially_filled => is_Some before /\ is_Some after
  | order_created => before = None /\ is_Some after
  end.
Proof.
  rewrite detectOrderChanges_emitted, drop_app_length.
  intros Hin. apply elem_of_app in Hin as [Hin | Hin];
    apply elem_of_flat_map in Hin as [[k v] [Hentry Hin]].
  - pose proof (map_get_of_entry k v _ Hentry) as Hsome.
    unfold previous_events in Hin. cbn [fst snd] in Hin.
    destruct (map_get k (orders_map list)) as [c |] eqn:Hc.
    + destruct (num_gtb _ _); [| by apply elem_of_nil in Hin].
      apply list_elem_of_singleton in Hin. subst event. cbn. rewrite Hc. by split.
    + apply list_elem_of_singleton in Hin. subst event. unfold removal_event. cbn.
      destruct (isFilled v); by split.
  - pose proof (map_get_of_entry k v _ Hentry) as Hsome.
    unfold current_events in Hin. cbn [fst snd] in Hin.
    destruct (map_get k (previousOrdersMap d)) as [c |] eqn:Hc;
      [by apply elem_of_nil in Hin |].
    apply list_elem_of_singleton in Hin. subst event. cbn. by split.
Qed.

Lemma events_name_the_changed_orders_witness :
  let d := snapshot_of "10" "0" in
  let event := removal_event "12:00:05" undefined 5
                 (OpenOrder.mk 5 1 (Some "YES"%string) "0.5" "10" (Some "0"%string)) in
  is_Some (map_get (Event.orderId event) (previousOrdersMap d))
  /\ map_get (Event.orderId event) (orders_map []) = None.
Proof.
  intros d event.
  apply (events_name_the_changed_orders "12:00:05" [] d event).
  vm_compute. left.
Defined.

(** ** Notifications and the marks of manual cancellation *)

Lemma compare_current_quiet (now : string) (previous : OrderMap) (d : Dashboard)
    (entry : Z * OpenOrder.t) :
  notified (compare_current now previous d entry) = notified d
  /\ manuallyCancelledOrders (compare_current now previous d entry)
     = manuallyCancelledOrders d.
Proof.
  destruct entry as [id c]. unfold compare_current.
  destruct (map_get id previous); split; reflexivity.
Qed.

Lemma second_loop_quiet (now : string) (previous : OrderMap) (l : OrderMap) (d : Dashboard) :
  notified (fold_left (compare_current now previous) l d) = notified d
  /\ manuallyCancelledOrders (fold_left (compare_current now previous) l d)
     = manuallyCancelledOrders d.
Proof.
  revert d. induction l as [| e l IH]; intros d; cbn [fold_left]; [split; reflexivity |].
  destruct (IH (compare_current now previous d e)) as [-> ->].
  apply compare_current_quiet.
Qed.

Lemma compare_previous_notices (now : string) (current : OrderMap) (d : Dashboard)
    (entry : Z * OpenOrder.t) :
  notified (compare_previous now current d entry)
  = notified d
    ++ removal_notices now (topicTitle d) (manuallyCancelledOrders d) current entry
  /\ manuallyCancelledOrders (compare_previous now current d entry)
     = manuallyCancelledOrders d ∖ list_to_set (removed_ids current [entry]).
Proof.
  destruct entry as [id prev].
  unfold compare_previous, removal_notices, removed_ids. cbn [fst snd flat_map].
  destruct (map_get id current) as [c |].
  - cbn [app list_to_set]. rewrite app_nil_r.
    destruct (num_gtb _ _); cbn [addEvent notified manuallyCancelledOrders];
      split; try reflexivity; set_solver.
  - cbn zeta. cbn [addEvent manuallyCancelledOrders]. rewrite app_nil_r.
    case_bool_decide as Hm; destruct (isFilled prev);
      cbn [negb notify addEvent notified manuallyCancelledOrders];
      rewrite ?app_nil_r; split; try reflexivity; set_solver.
Qed.

Lemma removal_notices_other_mark (now : string) (title : slot string) (manual : gset Z)
    (current : OrderMap) (k : Z) (l : OrderMap) :
  k ∉ l.*1 ->
  flat_map (removal_notices now title (manual ∖ {[k]}) current) l
  = flat_map (removal_notices now title manual current) l.
Proof.
  induction l as [| [j x] l IH]; intros Hk; [reflexivity |].
  cbn [fmap list_fmap fst] in Hk. apply not_elem_of_cons in Hk as [Hne Hk].
  cbn [flat_map]. rewrite (IH Hk). f_equal.
  unfold removal_notices. cbn [fst snd].
  destruct (map_get j current); [reflexivity |].
  destruct (isFilled x); [reflexivity |].
  assert (E : bool_decide (j ∈ manual ∖ {[k]}) = bool_decide (j ∈ manual))
    by (apply bool_decide_ext; set_solver).
  rewrite E. reflexivity.
Qed.

Lemma first_loop_notices (now : string) (current : OrderMap) (l : OrderMap) (d : Dashboard) :
  NoDup l.*1 ->
  notified (fold_left (compare_previous now current) l d)
  = notified d
    ++ flat_map (removal_notices now (topicTitle d) (manuallyCancelledOrders d) current) l
  /\ manuallyCancelledOrders (fold_left (compare_previous now current) l d)
     = manuallyCancelledOrders d ∖ list_to_set (removed_ids current l).
Proof.
  revert d. induction l as [| [k v] l IH]; intros d Hnd.
  - cbn [fold_left flat_map removed_ids list_to_set]. rewrite app_nil_r.
    split; [reflexivity | set_solver].
  - cbn [fmap list_fmap fst] in Hnd. apply NoDup_cons in Hnd as [Hk Hnd].
    cbn [fold_left].
    destruct (IH (compare_previous now current d (k, v)) Hnd) as [-> ->].
    destruct (compare_previous_notices now current d (k, v)) as [-> ->].
    destruct (compare_previous_emitted now current d (k, v)) as [_ ->].
    split.
    + rewrite <- app_assoc. f_equal. cbn [flat_map]. f_equal.
      unfold removed_ids. cbn [flat_map fst]. rewrite app_nil_r.
      destruct (map_get k current).
      * cbn [list_to_set]. 
        replace (manuallyCancelledOrders d ∖ ∅) with (manuallyCancelledOrders d)
          by set_solver.
        reflexivity.
      * cbn [list_to_set].
        replace (manuallyCancelledOrders d ∖ ({[k]} ∪ ∅))
          with (manuallyCancelledOrders d ∖ {[k]}) by set_solver.
        by apply removal_notices_other_mark.
    + unfold removed_ids. cbn [flat_map]. rewrite list_to_set_app_L. set_solver.
Qed.

(** X17: who is told about an order that left the list.  When the
    previous snapshot holds one entry per order id (it does once
    [detectOrderChanges] has built it), a cycle sends, for each order
    missing from the current list and in the order of the snapshot, a
    filled notification if [isFilled] holds, a removed notification if
    it does not hold and the id is not marked as cancelled by the user,
    and nothing if it is marked; orders still listed and new orders send
    nothing.  Afterwards the mark of every order that left is cleared, and
    no other. *)
Theorem removals_are_notified (now : string) (list : list OpenOrder.t) (d : Dashboard) :
  NoDup (previousOrdersMap d).*1 ->
  notified (detectOrderChanges now (Some list) d)
  = notified d
    ++ flat_map (removal_notices now (topicTitle d) (manuallyCancelledOrders d)
                   (orders_map list))
         (previousOrdersMap d)
  /\ manuallyCancelledOrders (detectOrderChanges now (Some list) d)
     = manuallyCancelledOrders d
       ∖ list_to_set (removed_ids (orders_map list) (previousOrdersMap d)).
Proof.
  intros Hnd. unfold detectOrderChanges. cbn [notified manuallyCancelledOrders].
  destruct (second_loop_quiet now (previousOrdersMap d) (orders_map list)
              (fold_left (compare_previous now (orders_map list)) (previousOrdersMap d) d))
    as [-> ->].
  by apply first_loop_notices.
Qed.

(** Order 5 was cancelled by the user and is gone from the list: nothing
    is sent and the mark is cleared. *)
Lemma removals_are_notified_witness :
  let d := mkDashboard
             [(5, OpenOrder.mk 5 1 (Some "YES"%string) "0.5" "10" (Some "0"%string))]
             [] {[ 5 ]} undefined [] [] in
  notified (detectOrderChanges "12:00:05" (Some []) d)
  = notified d
    ++ flat_map (removal_notices "12:00:05" (topicTitle d) (manuallyCancelledOrders d)
                   (orders_map []))
         (previousOrdersMap d)
  /\ manuallyCancelledOrders (detectOrderChanges "12:00:05" (Some []) d)
     = manuallyCancelledOrders d
       ∖ list_to_set (removed_ids (orders_map []) (previousOrdersMap d)).
Proof.
  intros d. apply (removals_are_notified "12:00:05" [] d).
  cbn. apply NoDup_singleton.
Defined.

(** ** The first cycle *)

(** X18: on a dashboard that holds no previous snapshot, as after start,
    a cycle reports every open order as created: one order_created event
    per order id of the list, in the order in which the ids first appear,
    each built from the last order carrying the id; nothing is notified
    and no mark is touched. *)
Theorem first_cycle_reports_every_order (now : string) (list : list OpenOrder.t)
    (d : Dashboard) :
  previousOrdersMap d = [] ->
  emitted (detectOrderChanges now (Some list) d)
  = emitted d
    ++ ((fun entry : Z * OpenOrder.t => creation_event now entry.1 entry.2)
          <$> orders_map list)
  /\ notified (detectOrderChanges now (Some list) d) = notified d
  /\ manuallyCancelledOrders (detectOrderChanges now (Some list) d)
     = manuallyCancelledOrders d.
Proof.
  intros Hprev. rewrite detectOrderChanges_emitted.
  unfold detectOrderChanges. cbn [notified manuallyCancelledOrders].
  rewrite Hprev. cbn [fold_left flat_map app].
  split; [| apply second_loop_quiet].
  apply (f_equal (app (emitted d))).
  induction (orders_map list) as [| [k v] m IH]; [reflexivity |].
  cbn [flat_map fmap list_fmap]. rewrite IH. reflexivity.
Qed.

Lemma first_cycle_reports_every_order_witness :
  let d := mkDashboard [] [] ∅ undefined [] [] in
  let list := [OpenOrder.mk 5 1 (Some "YES"%string) "0.5" "10" (Some "0"%string);
               OpenOrder.mk 5 1 (Some "YES"%string) "0.5" "10" (Some "2"%string)] in
  emitted (detectOrderChanges "12:00:05" (Some list) d)
  = emitted d
    ++ ((fun entry : Z * OpenOrder.t => creation_event "12:00:05" entry.1 entry.2)
          <$> orders_map list)
  /\ notified (detectOrderChanges "12:00:05" (Some list) d) = notified d
  /\ manuallyCancelledOrders (detectOrderChanges "12:00:05" (Some list) d)
     = manuallyCancelledOrders d.
Proof.
  intros d list. apply (first_cycle_reports_every_order "12:00:05" list d).
  reflexivity.
Defined.


(** * The refresh of the open orders *)

Lemma newest_grows {A : Type} (n : nat) (h new : list A) :
  (length h <= n)%nat ->
  ((length h <? length (newest n (h ++ new)))%nat = true
   <-> new <> [] /\ (length h < n)%nat).
Proof.
  intros Hlen. unfold newest. rewrite length_drop, length_app, Nat.ltb_lt.
  destruct new as [| e new]; cbn [length].
  - split; [lia | intros [? _]; congruence].
  - split; [intros; split; [discriminate | lia] | lia].
Qed.

(** X19: the beep follows the length of the capped history, not the
    events.  In a refresh whose open-order query answers, [playBeep] is
    called once if the cycle emitted an event while the history held
    fewer than MAX_EVENT_HISTORY entries, and not at all otherwise: once
    the history holds 100 events, no change of the orders beeps any
    more. *)
Theorem beep_needs_room_in_the_history (x : Exchange) (p : Panel)
    (result : OrdersResult.t) :
  sdkEnabled p = true ->
  getOpenOrders x = inr result ->
  (length (eventHistory (dashboard p)) <= MAX_EVENT_HISTORY)%nat ->
  let new := drop (length (emitted (dashboard p)))
               (emitted (dashboard (refreshOpenOrders x p))) in
  beeps (refreshOpenOrders x p)
  = if bool_decide (new <> [] /\ (length (eventHistory (dashboard p)) < MAX_EVENT_HISTORY)%nat)
    then S (beeps p) else beeps p.
Proof.
  intros Hsdk Hopen Hlen.
  assert (Hd : dashboard (refreshOpenOrders x p)
               = detectOrderChanges (eventTime x) (OrdersResult.list result) (dashboard p)
               /\ beeps (refreshOpenOrders x p)
                  = if (length (eventHistory (dashboard p))
                        <? length (eventHistory
                                     (detectOrderChanges (eventTime x)
                                        (OrdersResult.list result) (dashboard p))))%nat
                    then S (beeps p) else beeps p).
  { unfold refreshOpenOrders. rewrite Hsdk, Hopen. cbn [negb].
    destruct (autoClearManager p); [destruct (getClosedOrders x) |]; split; reflexivity. }
  destruct Hd as [-> ->]. cbn zeta.
  destruct (OrdersResult.list result) as [list |].
  - destruct (logged_detectOrderChanges (eventTime x) list (dashboard p) Hlen) as [He Hh].
    rewrite He, drop_app_length, Hh.
    match goal with
    | |- context [newest _ (_ ++ ?new)] =>
        pose proof (newest_grows MAX_EVENT_HISTORY (eventHistory (dashboard p)) new Hlen)
          as Hg
    end.
    case_bool_decide as Hb.
    + apply Hg in Hb. rewrite Hb. reflexivity.
    + destruct (_ <? _)%nat eqn:E; [| reflexivity]. exfalso. apply Hb, Hg. reflexivity.
  - cbn [detectOrderChanges]. rewrite Nat.ltb_irrefl, drop_all.
    rewrite bool_decide_eq_false_2 by (intros [? _]; congruence). reflexivity.
Qed.

Lemma beep_needs_room_in_the_history_witness :
  let new := drop (length (emitted (dashboard sample_panel)))
               (emitted (dashboard (refreshOpenOrders answering_exchange sample_panel))) in
  beeps (refreshOpenOrders answering_exchange sample_panel)
  = if bool_decide
         (new <> []
          /\ (length (eventHistory (dashboard sample_panel)) < MAX_EVENT_HISTORY)%nat)
    then S (beeps sample_panel) else beeps sample_panel.
Proof.
  apply (beep_needs_room_in_the_history answering_exchange sample_panel
           (OrdersResult.mk None (Some [sample_order]) 1)).
  - reflexivity.
  - reflexivity.
  - cbn. lia.
Defined.

(** ** Seeing the same answers again *)

(** A refresh in which both queries answer. *)
Lemma refreshOpenOrders_answered (x : Exchange) (p : Panel)
    (result : OrdersResult.t) (closedOrders : option (list ClosedOrder.t)) :
  sdkEnabled p = true ->
  getOpenOrders x = inr result ->
  getClosedOrders x = inr closedOrders ->
  let d := detectOrderChanges (eventTime x) (OrdersResult.list result) (dashboard p) in
  let currentOrderCount :=
    match OrdersResult.list result with
    | Some list => length list
    | None => 0%nat
    end in
  refreshOpenOrders x p
  = mkPanel d true
      (updateOrderStatus (clearingWorld x) (default [] closedOrders) <$> autoClearManager p)
      (val result) currentOrderCount
      (if (0 <? previousOrderCount p)%nat && (currentOrderCount <? previousOrderCount p)%nat
       then shownMessages p ++ [reduced_message (previousOrderCount p) currentOrderCount]
       else shownMessages p)
      (if (length (eventHistory (dashboard p)) <? length (eventHistory d))%nat
       then S (beeps p) else beeps p).
Proof.
  intros Hsdk Ho Hc. unfold refreshOpenOrders. rewrite Hsdk, Ho, Hc. cbn [negb].
  destruct (autoClearManager p); reflexivity.
Qed.

(** X20: a refresh that gets the answers of the refresh before it is
    silent.  When both order queries answer, repeating
    [refreshOpenOrders] with the same two answers, at any later time and
    whatever the topic, depth and exchange services do then, leaves the
    panel exactly as the first refresh left it: no event, no beep, no
    message, no notification, and no tracked order touched or sold
    again. *)
Theorem refreshOpenOrders_twice (x x' : Exchange) (p : Panel)
    (result : OrdersResult.t) (closedOrders : option (list ClosedOrder.t)) :
  getOpenOrders x = inr result -> getOpenOrders x' = inr result ->
  getClosedOrders x = inr closedOrders -> getClosedOrders x' = inr closedOrders ->
  refreshOpenOrders x' (refreshOpenOrders x p) = refreshOpenOrders x p.
Proof.
  intros Ho Ho' Hc Hc'.
  destruct (sdkEnabled p) eqn:Hsdk.
  2: { unfold refreshOpenOrders. rewrite Hsdk. cbn [negb]. by rewrite Hsdk. }
  assert (Hsilent : forall d,
             detectOrderChanges (eventTime x') (OrdersResult.list result)
               (detectOrderChanges (eventTime x) (OrdersResult.list result) d)
             = detectOrderChanges (eventTime x) (OrdersResult.list result) d).
  { intros d. destruct (OrdersResult.list result) as [list |]; [| reflexivity].
    set (d1 := detectOrderChanges (eventTime x) (Some list) d).
    assert (Hprev : previousOrdersMap d1 = orders_map list) by reflexivity.
    unfold detectOrderChanges at 1.
    rewrite Hprev, first_loop_silent, second_loop_silent.
    destruct d1 as [previous history marks title sent events].
    cbn [previousOrdersMap] in Hprev. subst previous. reflexivity. }
  rewrite (refreshOpenOrders_answered x p result closedOrders Hsdk Ho Hc).
  cbn zeta.
  match goal with
  | |- refreshOpenOrders x' ?p1 = _ =>
      rewrite (refreshOpenOrders_answered x' p1 result closedOrders eq_refl Ho' Hc')
  end.
  cbn zeta.
  cbn [sdkEnabled dashboard autoClearManager previousOrderCount shownMessages beeps].
  rewrite Hsilent, !Nat.ltb_irrefl, andb_false_r.
  f_equal. destruct (autoClearManager p) as [manager |]; [| reflexivity].
  cbn [fmap option_fmap option_map]. f_equal.
  destruct (updateOrderStatus_done (clearingWorld x) (default [] closedOrders) manager)
    as [Hinit Hdone].
  by apply updateOrderStatus_noop.
Qed.

Lemma refreshOpenOrders_twice_witness :
  refreshOpenOrders
    (mkExchange "12:00:10" (getOpenOrders answering_exchange)
       (getClosedOrders answering_exchange) rejecting_world)
    (refreshOpenOrders answering_exchange sample_panel)
  = refreshOpenOrders answering_exchange sample_panel.
Proof.
  apply (refreshOpenOrders_twice answering_exchange _ sample_panel
           (OrdersResult.mk None (Some [sample_order]) 1)
           (Some [ClosedOrder.mk 7 2 "9/9"])); reflexivity.
Defined.

(** ** A refresh that fails *)

(** X21: a rejected closed-order query hides the open orders, and the
    next refresh repairs it.  If the open orders arrive but the
    closed-order query is rejected, the differ has already run on the
    list and the order count is updated, the manager is left as it was,
    and [openOrders] holds the error with an empty list in place of the
    list that had just been fetched.  A following refresh in which both
    queries answer, with the same open orders, shows the list again,
    raises no event and no beep for it a second time, and hands the
    closed orders to the manager as the failed refresh left it. *)
Theorem rejected_closed_order_query (x x' : Exchange) (p : Panel) (message : string)
    (result : OrdersResult.t) (manager : Manager)
    (closedOrders : option (list ClosedOrder.t)) :
  sdkEnabled p = true ->
  getOpenOrders x = inr result ->
  autoClearManager p = Some manager ->
  getClosedOrders x = inl message ->
  getOpenOrders x' = inr result ->
  getClosedOrders x' = inr closedOrders ->
  (autoClearManager (refreshOpenOrders x p) = Some manager
   /\ openOrders (refreshOpenOrders x p) = val (OrdersResult.mk (Some message) (Some []) 0)
   /\ dashboard (refreshOpenOrders x p)
      = detectOrderChanges (eventTime x) (OrdersResult.list result) (dashboard p)
   /\ previousOrderCount (refreshOpenOrders x p)
      = match OrdersResult.list result with
        | Some list => length list
        | None => 0%nat
        end)
  /\ (dashboard (refreshOpenOrders x' (refreshOpenOrders x p))
      = dashboard (refreshOpenOrders x p)
     /\ beeps (refreshOpenOrders x' (refreshOpenOrders x p)) = beeps (refreshOpenOrders x p)
     /\ shownMessages (refreshOpenOrders x' (refreshOpenOrders x p))
        = shownMessages (refreshOpenOrders x p)
     /\ openOrders (refreshOpenOrders x' (refreshOpenOrders x p)) = val result
     /\ autoClearManager (refreshOpenOrders x' (refreshOpenOrders x p))
        = Some (updateOrderStatus (clearingWorld x') (default [] closedOrders) manager)).
Proof.
  intros Hsdk Ho Hm Hc Ho' Hc'.
  assert (H : refreshOpenOrders x p
              = failed_refresh message
                  (mkPanel
                     (detectOrderChanges (eventTime x) (OrdersResult.list result) (dashboard p))
                     true (Some manager) (val result)
                     (match OrdersResult.list result with
                      | Some list => length list
                      | None => 0%nat
                      end)
                     (shownMessages (refreshOpenOrders x p))
                     (beeps (refreshOpenOrders x p)))).
  { unfold refreshOpenOrders. rewrite Hsdk, Ho, Hm, Hc. reflexivity. }
  split; [rewrite H; repeat split |].
  match goal with
  | |- context [refreshOpenOrders x' ?p1] =>
      assert (Hsdk1 : sdkEnabled p1 = true) by (rewrite H; reflexivity);
      rewrite (refreshOpenOrders_answered x' p1 result closedOrders Hsdk1 Ho' Hc')
  end.
  cbn zeta. cbn [dashboard beeps shownMessages openOrders autoClearManager].
  rewrite H at 1 2 3 4 5 6 7 8 9.
  cbn [failed_refresh dashboard beeps shownMessages previousOrderCount autoClearManager].
  assert (Hsilent : forall d,
             detectOrderChanges (eventTime x') (OrdersResult.list result)
               (detectOrderChanges (eventTime x) (OrdersResult.list result) d)
             = detectOrderChanges (eventTime x) (OrdersResult.list result) d).
  { intros d. destruct (OrdersResult.list result) as [list |]; [| reflexivity].
    set (d1 := detectOrderChanges (eventTime x) (Some list) d).
    assert (Hprev : previousOrdersMap d1 = orders_map list) by reflexivity.
    unfold detectOrderChanges at 1.
    rewrite Hprev, first_loop_silent, second_loop_silent.
    destruct d1 as [previous history marks title sent events].
    cbn [previousOrdersMap] in Hprev. subst previous. reflexivity. }
  rewrite Hsilent, !Nat.ltb_irrefl, andb_false_r.
  rewrite H. cbn [failed_refresh dashboard beeps shownMessages]. repeat split.
Qed.

Lemma rejected_closed_order_query_witness :
  (autoClearManager (refreshOpenOrders half_answering_exchange sample_panel)
   = Some tracked_manager
   /\ openOrders (refreshOpenOrders half_answering_exchange sample_panel)
      = val (OrdersResult.mk (Some "Request timeout"%string) (Some []) 0)
   /\ dashboard (refreshOpenOrders half_answering_exchange sample_panel)
      = detectOrderChanges "12:00:05" (Some [sample_order]) (dashboard sample_panel)
   /\ previousOrderCount (refreshOpenOrders half_answering_exchange sample_panel) = 1%nat)
  /\ (dashboard (refreshOpenOrders answering_exchange
                   (refreshOpenOrders half_answering_exchange sample_panel))
      = dashboard (refreshOpenOrders half_answering_exchange sample_panel)
     /\ beeps (refreshOpenOrders answering_exchange
                 (refreshOpenOrders half_answering_exchange sample_panel))
        = beeps (refreshOpenOrders half_answering_exchange sample_panel)
     /\ shownMessages (refreshOpenOrders answering_exchange
                         (refreshOpenOrders half_answering_exchange sample_panel))
        = shownMessages (refreshOpenOrders half_answering_exchange sample_panel)
     /\ openOrders (refreshOpenOrders answering_exchange
                      (refreshOpenOrders half_answering_exchange sample_panel))
        = val (OrdersResult.mk None (Some [sample_order]) 1)
     /\ autoClearManager (refreshOpenOrders answering_exchange
                            (refreshOpenOrders half_answering_exchange sample_panel))
        = Some (updateOrderStatus calm_world [ClosedOrder.mk 7 2 "9/9"] tracked_manager)).
Proof.
  apply (rejected_closed_order_query half_answering_exchange answering_exchange
           sample_panel "Request timeout" (OrdersResult.mk None (Some [sample_order]) 1)
           tracked_manager (Some [ClosedOrder.mk 7 2 "9/9"])); reflexivity.
Defined.

(** X22: a rejected open-order query stops the refresh before anything
    is compared.  The panel keeps its snapshot, history, marks, order
    count, messages and beeps, the manager is not called, so that no
    tracked order changes and nothing is sold, and [openOrders] becomes
    the error with an empty list.  The next refresh then goes as if the
    failed one had not happened: it compares against the snapshot taken
    before the failure. *)
Theorem rejected_open_order_query (x x' : Exchange) (p : Panel) (message : string) :
  sdkEnabled p = true ->
  getOpenOrders x = inl message ->
  refreshOpenOrders x p
  = mkPanel (dashboard p) true (autoClearManager p)
      (val (OrdersResult.mk (Some message) (Some []) 0))
      (previousOrderCount p) (shownMessages p) (beeps p)
  /\ refreshOpenOrders x' (refreshOpenOrders x p) = refreshOpenOrders x' p.
Proof.
  intros Hsdk Ho.
  assert (H : refreshOpenOrders x p
              = mkPanel (dashboard p) true (autoClearManager p)
                  (val (OrdersResult.mk (Some message) (Some []) 0))
                  (previousOrderCount p) (shownMessages p) (beeps p)).
  { unfold refreshOpenOrders, failed_refresh. rewrite Hsdk, Ho. reflexivity. }
  rewrite H. split; [reflexivity |].
  unfold refreshOpenOrders, failed_refresh.
  cbn [sdkEnabled negb dashboard autoClearManager previousOrderCount shownMessages beeps].
  rewrite Hsdk. cbn [negb].
  destruct (getOpenOrders x'); [reflexivity |].
  destruct (autoClearManager p); [destruct (getClosedOrders x') |]; reflexivity.
Qed.

Lemma rejected_open_order_query_witness :
  refreshOpenOrders silent_exchange sample_panel
  = mkPanel (dashboard sample_panel) true (autoClearManager sample_panel)
      (val (OrdersResult.mk (Some "Request timeout"%string) (Some []) 0))
      (previousOrderCount sample_panel) (shownMessages sample_panel) (beeps sample_panel)
  /\ refreshOpenOrders answering_exchange (refreshOpenOrders silent_exchange sample_panel)
     = refreshOpenOrders answering_exchange sample_panel.
Proof.
  apply (rejected_open_order_query silent_exchange answering_exchange sample_panel
           "Request timeout"); reflexivity.
Defined.


(** * The depth service *)

(** ** Sorting the levels *)

Lemma insert_sorted_perm {A : Type} (compare : A -> A -> number) (x : A) (l : list A) :
  insert_sorted compare x l ≡ₚ x :: l.
Proof.
  induction l as [| y rest IH]; cbn [insert_sorted]; [reflexivity |].
  destruct (num_gtb _ _); [| reflexivity].
  rewrite IH. apply Permutation_swap.
Qed.

Lemma array_sort_perm {A : Type} (compare : A -> A -> number) (l : list A) :
  array_sort compare l ≡ₚ l.
Proof.
  induction l as [| x l IH]; [reflexivity |].
  unfold array_sort in *. cbn [foldr]. rewrite insert_sorted_perm. by constructor.
Qed.

Section Sorting.
Context {A : Type} (compare : A -> A -> number) (R : A -> A -> Prop) (P : A -> Prop).
Hypothesis stays : forall x y, P x -> P y -> num_gtb (compare x y) (Num 0) = false -> R x y.
Hypothesis moves : forall x y, P x -> P y -> num_gtb (compare x y) (Num 0) = true -> R y x.
Hypothesis trans : forall x y z, P x -> P y -> P z -> R x y -> R y z -> R x z.

Lemma insert_sorted_sorted (x : A) (l : list A) :
  P x -> Forall P l -> StronglySorted R l -> StronglySorted R (insert_sorted compare x l).
Proof using stays moves trans.
  intros Hx Hl Hs. induction l as [| y rest IH]; cbn [insert_sorted].
  - repeat constructor.
  - apply Forall_cons in Hl as [Hy Hrest]. apply StronglySorted_inv in Hs as [Hs Hall].
    destruct (num_gtb (compare x y) (Num 0)) eqn:E.
    + constructor; [by apply IH |].
      rewrite insert_sorted_perm. constructor; [by apply moves | exact Hall].
    + constructor; [by constructor |].
      constructor; [by apply stays |].
      rewrite Forall_forall in Hall, Hrest |- *. intros z Hz.
      apply (trans x y z); auto.
Qed.

Lemma array_sort_sorted (l : list A) : Forall P l -> StronglySorted R (array_sort compare l).
Proof using stays moves trans.
  induction l as [| x l IH]; intros Hl; [constructor |].
  apply Forall_cons in Hl as [Hx Hl]. unfold array_sort in *. cbn [foldr].
  apply insert_sorted_sorted; [exact Hx | | by apply IH].
  fold (array_sort compare l). by rewrite array_sort_perm.
Qed.
End Sorting.

Lemma priced_levels (entries : list (string * string)) :
  priced entries -> Forall has_price (level_of <$> entries).
Proof.
  intros H. apply Forall_fmap. eapply Forall_impl; [exact H |].
  intros entry [q Hq]. exists q. exact Hq.
Qed.

Lemma bids_sorted (levels : list (Level.t number)) :
  Forall has_price levels -> StronglySorted not_below (array_sort highest_first levels).
Proof.
  apply (array_sort_sorted highest_first not_below has_price).
  - intros x y [qx Hx] [qy Hy]. unfold highest_first, not_below. rewrite Hx, Hy.
    cbn. rewrite Qltb_ge, Qred_correct, Qle_bool_iff. lra.
  - intros x y [qx Hx] [qy Hy]. unfold highest_first, not_below. rewrite Hx, Hy.
    cbn. rewrite Qltb_lt, Qred_correct, Qle_bool_iff. lra.
  - intros x y z [qx Hx] [qy Hy] [qz Hz]. unfold not_below. rewrite Hx, Hy, Hz.
    cbn. rewrite !Qle_bool_iff. lra.
Qed.

Lemma asks_sorted (levels : list (Level.t number)) :
  Forall has_price levels -> StronglySorted not_above (array_sort lowest_first levels).
Proof.
  apply (array_sort_sorted lowest_first not_above has_price).
  - intros x y [qx Hx] [qy Hy]. unfold lowest_first, not_above. rewrite Hx, Hy.
    cbn. rewrite Qltb_ge, Qred_correct, Qle_bool_iff. lra.
  - intros x y [qx Hx] [qy Hy]. unfold lowest_first, not_above. rewrite Hx, Hy.
    cbn. rewrite Qltb_lt, Qred_correct, Qle_bool_iff. lra.
  - intros x y z [qx Hx] [qy Hy] [qz Hz]. unfold not_above. rewrite Hx, Hy, Hz.
    cbn. rewrite !Qle_bool_iff. lra.
Qed.

(** X23: [parseOrderBook] puts the best prices first.  When the depth of
    the answer lists bids and asks whose prices read as numbers, the book
    holds exactly the levels of the answer, each with total = price times
    amount, the bids ordered from the highest price down and the asks from
    the lowest price up, so that [bids[0]] is the highest bid and
    [asks[0]] the lowest ask; and the book carries no error. *)
Theorem parseOrderBook_puts_the_best_prices_first (now : string) (response : Response.t)
    (type : string) (bids asks : list (string * string)) :
  Depth.bids (depth_of response) = Some bids ->
  Depth.asks (depth_of response) = Some asks ->
  priced bids -> priced asks ->
  let book := parseOrderBook now response type in
  DepthBook.bids book ≡ₚ level_of <$> bids
  /\ DepthBook.asks book ≡ₚ level_of <$> asks
  /\ StronglySorted not_below (DepthBook.bids book)
  /\ StronglySorted not_above (DepthBook.asks book)
  /\ Forall (fun level =>
               Level.total level = num_mul (Level.price level) (Level.amount level))
        (DepthBook.bids book ++ DepthBook.asks book)
  /\ DepthBook.error book = None.
Proof.
  intros Hb Ha Hpb Hpa. cbn zeta. unfold parseOrderBook. rewrite Hb, Ha.
  cbn [DepthBook.bids DepthBook.asks DepthBook.error].
  split; [apply array_sort_perm |]. split; [apply array_sort_perm |].
  split; [by apply bids_sorted, priced_levels |].
  split; [by apply asks_sorted, priced_levels |].
  split; [| reflexivity].
  rewrite !array_sort_perm. apply Forall_app. split; by apply Forall_fmap, Forall_true.
Qed.

Lemma parseOrderBook_puts_the_best_prices_first_witness :
  let bids := [("0.90", "5"); ("0.91", "7")]%string in
  let asks := [("0.95", "1"); ("0.93", "2")]%string in
  let response := Response.mk (Some (Depth.mk (Some bids) (Some asks) None)) None
                    (Depth.mk None None None) in
  let book := parseOrderBook "2026-01-01T00:00:05.000Z" response "YES" in
  DepthBook.bids book ≡ₚ level_of <$> bids
  /\ DepthBook.asks book ≡ₚ level_of <$> asks
  /\ StronglySorted not_below (DepthBook.bids book)
  /\ StronglySorted not_above (DepthBook.asks book)
  /\ Forall (fun level =>
               Level.total level = num_mul (Level.price level) (Level.amount level))
        (DepthBook.bids book ++ DepthBook.asks book)
  /\ DepthBook.error book = None.
Proof.
  intros bids asks response.
  apply (parseOrderBook_puts_the_best_prices_first "2026-01-01T00:00:05.000Z" response
           "YES" bids asks).
  - reflexivity.
  - reflexivity.
  - repeat constructor; eexists; vm_compute; reflexivity.
  - repeat constructor; eexists; vm_compute; reflexivity.
Defined.

(** ** A depth request that fails *)

(** X24: a rejected depth request ends the clearing in error.  When the
    depth of a buy order to clear is the book that [getOrderBook] returns
    for a rejected request, [createReverseClearOrder] submits nothing and
    leaves the order in status error; the errorMessage names the order
    book and the message of the rejection, except that an empty message
    makes the check of the book pass, and the two empty sides then fail
    the price calculation. *)
Theorem rejected_depth_request_ends_in_error (w : World) (id : Z) (st : Manager)
    (o : TrackedOrder.t) (config : OrderBookConfig) (now message : string) :
  trackedOrders st !! id = Some o ->
  TrackedOrder.side o = 1 ->
  invalid_filledShares (TrackedOrder.filledShares o) = false ->
  getTopicInfo w (TrackedOrder.topicId o) = inr tt ->
  getOrderBookConfig w (TrackedOrder.topicId o) = inr (Some config) ->
  new_OrderBookAPI (Some config) = inr config ->
  getOrderBook w config (TrackedOrder.position o)
  = order_book_of (OrderBookAPI_getOrderBook now (inl message) (TrackedOrder.position o)) ->
  trackedOrders (createReverseClearOrder w id st) !! id
  = Some (TrackedOrder.set_errorMessage
            (match message with
             | EmptyString => "无法计算安全的清理价格（盘口异常）"
             | _ => "无法获取订单簿: " ++ message
             end)%string
            (TrackedOrder.set_status error o)).
Proof.
  intros Ho Hside Hshares Htopic Hconfig Hapi Hbook.
  rewrite (createReverseClearOrder_settles w id st o Ho).
  cbn [trackedOrders]. rewrite lookup_insert_eq. f_equal.
  unfold settle.
  set (o1 := TrackedOrder.set_status clearing o).
  assert (Ha : attempt_clear w o1
               = Failed (match message with
                         | EmptyString => "无法计算安全的清理价格（盘口异常）"
                         | _ => "无法获取订单簿: " ++ message
                         end)%string).
  { destruct message as [| c r].
    - apply (no_safe_price_fails w o1 config config Hside Hshares Htopic Hconfig Hapi).
      + subst o1. cbn [TrackedOrder.position TrackedOrder.set_status]. rewrite Hbook.
        reflexivity.
      + subst o1. cbn [TrackedOrder.position TrackedOrder.set_status]. rewrite Hbook.
        by eexists.
      + subst o1. cbn [TrackedOrder.position TrackedOrder.set_status]. rewrite Hbook.
        by eexists.
      + subst o1. cbn [TrackedOrder.position TrackedOrder.set_status]. rewrite Hbook.
        reflexivity.
    - apply (book_error_fails w o1 config config Hside Hshares Htopic Hconfig Hapi).
      + subst o1. cbn [TrackedOrder.position TrackedOrder.set_status]. rewrite Hbook.
        reflexivity.
      + reflexivity. }
  rewrite Ha. reflexivity.
Qed.

Lemma rejected_depth_request_ends_in_error_witness :
  let o := fill_record calm_world (ClosedOrder.mk 7 2 "9/9")
             (trackOrder "2026-01-01T00:00:00.000Z" sample_params empty_manager).1 in
  let st := mkManager {[ 7 := o ]} NoFile true [] in
  trackedOrders (createReverseClearOrder offline_world 7 st) !! 7
  = Some (TrackedOrder.set_errorMessage "无法获取订单簿: Request timeout"
            (TrackedOrder.set_status error o)).
Proof.
  intros o st.
  apply (rejected_depth_request_ends_in_error offline_world 7 st o
           (mkConfig (Some "question"%string) (Some ("yes"%string, "no"%string)))
           "2026-01-01T00:00:05.000Z" "Request timeout"); reflexivity.
Defined.


(** * Clearing happens once *)

Lemma clearings_app (id : Z) (st st' : Manager) (writes : list (Z * Status)) :
  statusWrites st' = statusWrites st ++ writes ->
  clearings id st'
  = (clearings id st + length (filter (fun write => write = (id, clearing)) writes))%nat.
Proof. intros H. unfold clearings. by rewrite H, filter_app, length_app. Qed.

Lemma reconcile_writes (w : World) (st : Manager) (hasChanges : bool)
    (closedOrder : ClosedOrder.t) :
  reconcile w (st, hasChanges) closedOrder = (st, hasChanges)
  \/ exists o s,
       trackedOrders st !! ClosedOrder.orderId closedOrder = Some o
       /\ TrackedOrder.status o = pending
       /\ s <> clearing
       /\ statusWrites (reconcile w (st, hasChanges) closedOrder).1
          = statusWrites st
            ++ [(ClosedOrder.orderId closedOrder, filled);
                (ClosedOrder.orderId closedOrder, clearing);
                (ClosedOrder.orderId closedOrder, s)].
Proof.
  destruct (trackedOrders st !! ClosedOrder.orderId closedOrder) as [o |] eqn:Ho.
  - destruct (decide (TrackedOrder.status o = pending)) as [Hp | Hp].
    + destruct (fully_filled closedOrder) eqn:Hf.
      * right. exists o, (TrackedOrder.status (settle w (fill_record w closedOrder o))).
        rewrite (reconcile_clears w st hasChanges closedOrder o Ho Hp Hf).
        repeat split; try assumption.
        destruct (settle_status w (fill_record w closedOrder o)) as [-> | ->]; discriminate.
      * left. apply reconcile_skips. intros; exact Hf.
    + left. apply reconcile_skips. intros o' Ho' Hp'. congruence.
  - left. apply reconcile_skips. intros o' Ho'. congruence.
Qed.

Lemma reconcile_at_most_once (w : World) (st : Manager) (hasChanges : bool)
    (closedOrder : ClosedOrder.t) (id : Z) (base : nat) :
  isInitialized st = true ->
  cleared_at_most_once id base st ->
  cleared_at_most_once id base (reconcile w (st, hasChanges) closedOrder).1
  /\ isInitialized (reconcile w (st, hasChanges) closedOrder).1 = true.
Proof.
  intros Hi H.
  assert (Hi' : isInitialized (reconcile w (st, hasChanges) closedOrder).1 = true).
  { destruct (reconcile_cases w st hasChanges closedOrder)
      as [-> | (_ & _ & _ & _ & _ & _ & ->)]; exact Hi. }
  split; [| exact Hi'].
  pose proof (reconcile_keeps_not_pending w st hasChanges closedOrder id) as Hkeep.
  pose proof (reconcile_done w st hasChanges closedOrder) as Hdone.
  destruct (reconcile_writes w st hasChanges closedOrder)
    as [E | (o & s & Ho & Hp & Hs & Hw)]; [by rewrite E |].
  assert (Hf : fully_filled closedOrder = true).
  { destruct (fully_filled closedOrder) eqn:Hf; [reflexivity |].
    rewrite reconcile_skips in Hw by (intros; exact Hf). cbn [fst] in Hw.
    apply (f_equal length) in Hw. rewrite length_app in Hw. cbn in Hw. lia. }
  pose proof (clearings_app id _ _ _ Hw) as Hc.
  destruct (decide (ClosedOrder.orderId closedOrder = id)) as [Heq | Hne].
  - subst id. destruct H as [Hbase | (_ & _ & Hnp)]; [| exfalso; exact (Hnp o Ho Hp)].
    right. split; [| split; [exact Hi' | by apply Hdone]].
    rewrite Hc, Hbase, !filter_cons, filter_nil.
    repeat case_decide; try congruence; cbn [length]; lia.
  - assert (Hsame : clearings id (reconcile w (st, hasChanges) closedOrder).1
                    = clearings id st).
    { rewrite Hc, !filter_cons, filter_nil.
      repeat case_decide; try congruence; cbn [length]; lia. }
    destruct H as [Hbase | (Hbase & _ & Hnp)]; [left | right].
    + by rewrite Hsame.
    + split; [by rewrite Hsame |]. split; [exact Hi' | by apply Hkeep].
Qed.

Lemma reconcile_all_at_most_once (w : World) (closedOrders : list ClosedOrder.t)
    (st : Manager) (hasChanges : bool) (id : Z) (base : nat) :
  isInitialized st = true ->
  cleared_at_most_once id base st ->
  cleared_at_most_once id base (fold_left (reconcile w) closedOrders (st, hasChanges)).1
  /\ isInitialized (fold_left (reconcile w) closedOrders (st, hasChanges)).1 = true.
Proof.
  revert st hasChanges. induction closedOrders as [| c rest IH]; intros st h Hi H;
    [split; assumption |].
  cbn [fold_left].
  destruct (reconcile_at_most_once w st h c id base Hi H) as [H1 Hi1].
  destruct (reconcile w (st, h) c) as [st1 h1]. by apply IH.
Qed.

Lemma at_most_once_save (id : Z) (base : nat) (st : Manager) :
  cleared_at_most_once id base st -> cleared_at_most_once id base (save st).
Proof. intros H. exact H. Qed.

Lemma updateOrderStatus_at_most_once (w : World) (closedOrders : list ClosedOrder.t)
    (st : Manager) (id : Z) (base : nat) :
  cleared_at_most_once id base st ->
  cleared_at_most_once id base (updateOrderStatus w closedOrders st).
Proof.
  intros H. unfold updateOrderStatus.
  set (st0 := if isInitialized st then st else initialize st).
  assert (H0 : isInitialized st0 = true /\ cleared_at_most_once id base st0).
  { subst st0. destruct (isInitialized st) eqn:Hi; [by split |].
    destruct H as [Hbase | (_ & Hinit & _)]; [| congruence].
    unfold initialize. destruct (storageFile st); split; try reflexivity; by left. }
  destruct H0 as [Hi0 H0].
  destruct closedOrders as [| c rest]; [exact H0 |].
  destruct (reconcile_all_at_most_once w (c :: rest) st0 false id base Hi0 H0) as [H1 _].
  destruct (fold_left _ _ _) as [st' h]. destruct h; [by apply at_most_once_save | exact H1].
Qed.

(** X25: reconciliation clears an order at most once.  Over any number
    of refresh cycles, whatever closed orders they bring and whatever
    the collaborators answer, [createReverseClearOrder] starts at most
    once on a tracked order: its status is set to clearing at most one
    more time than before the cycles: once a clearing has started during
    the cycles, no later cycle starts another one on that order, whether
    the first ended in cleared or in error. *)
Theorem reconciliation_clears_at_most_once (cycles : list (World * list ClosedOrder.t))
    (st : Manager) (id : Z) :
  (clearings id st <= clearings id (reconcile_cycles cycles st) <= S (clearings id st))%nat.
Proof.
  assert (H : cleared_at_most_once id (clearings id st) (reconcile_cycles cycles st)).
  { unfold reconcile_cycles.
    assert (G : forall m, cleared_at_most_once id (clearings id st) m ->
                cleared_at_most_once id (clearings id st)
                  (fold_left (fun st cycle => updateOrderStatus cycle.1 cycle.2 st) cycles m)).
    { induction cycles as [| [w cos] rest IH]; intros m Hm; [exact Hm |].
      cbn [fold_left fst snd]. apply IH. by apply updateOrderStatus_at_most_once. }
    apply G. by left. }
  destruct H as [-> | (-> & _)]; lia.
Qed.


Lemma reconcile_settled (w : World) (st : Manager) (hasChanges : bool)
    (closedOrder : ClosedOrder.t) (id : Z) :
  not_pending st id ->
  trackedOrders (reconcile w (st, hasChanges) closedOrder).1 !! id = trackedOrders st !! id
  /\ clearings id (reconcile w (st, hasChanges) closedOrder).1 = clearings id st
  /\ isInitialized (reconcile w (st, hasChanges) closedOrder).1 = isInitialized st.
Proof.
  intros Hnp.
  destruct (reconcile_writes w st hasChanges closedOrder)
    as [E | (o & s & Ho & Hp & Hs & Hw)]; [by rewrite E |].
  destruct (reconcile_cases w st hasChanges closedOrder)
    as [E | (o' & _ & _ & _ & _ & Hreg & Hi)].
  { rewrite E in Hw. cbn [fst] in Hw. apply (f_equal length) in Hw.
    rewrite length_app in Hw. cbn in Hw. lia. }
  assert (Hne : ClosedOrder.orderId closedOrder <> id).
  { intros <-. exact (Hnp o Ho Hp). }
  split; [rewrite Hreg; by apply lookup_insert_ne |]. split; [| exact Hi].
  rewrite (clearings_app id _ _ _ Hw), !filter_cons, filter_nil.
  repeat case_decide; try congruence; cbn [length]; lia.
Qed.

Lemma reconcile_all_settled (w : World) (closedOrders : list ClosedOrder.t)
    (st : Manager) (hasChanges : bool) (id : Z) :
  not_pending st id ->
  trackedOrders (fold_left (reconcile w) closedOrders (st, hasChanges)).1 !! id
  = trackedOrders st !! id
  /\ clearings id (fold_left (reconcile w) closedOrders (st, hasChanges)).1 = clearings id st
  /\ isInitialized (fold_left (reconcile w) closedOrders (st, hasChanges)).1
     = isInitialized st.
Proof.
  revert st hasChanges. induction closedOrders as [| c rest IH]; intros st h Hnp;
    [repeat split |].
  cbn [fold_left].
  destruct (reconcile_settled w st h c id Hnp) as (Hl & Hc & Hi).
  pose proof (reconcile_keeps_not_pending w st h c id Hnp) as Hnp1.
  destruct (reconcile w (st, h) c) as [st1 h1]. cbn [fst] in *.
  destruct (IH st1 h1 Hnp1) as (-> & -> & ->). repeat split; assumption.
Qed.

Lemma updateOrderStatus_settled (w : World) (closedOrders : list ClosedOrder.t)
    (st : Manager) (id : Z) :
  isInitialized st = true -> not_pending st id ->
  trackedOrders (updateOrderStatus w closedOrders st) !! id = trackedOrders st !! id
  /\ clearings id (updateOrderStatus w closedOrders st) = clearings id st
  /\ isInitialized (updateOrderStatus w closedOrders st) = true.
Proof.
  intros Hi Hnp. unfold updateOrderStatus. rewrite Hi.
  destruct closedOrders as [| c rest]; [repeat split; assumption |].
  destruct (reconcile_all_settled w (c :: rest) st false id Hnp) as (Hl & Hc & Hi').
  destruct (fold_left _ _ _) as [st' h]. cbn [fst] in *. rewrite Hi in Hi'.
  destruct h; repeat split; assumption.
Qed.

(** X26: reconciliation leaves settled orders alone.  On an initialised
    manager, a tracked order that is not pending (its clearing ended, in
    cleared or in error) is never touched again by [updateOrderStatus]:
    after any number of refresh cycles its record is the same in every
    property, and no clearing has started on it, so that a failed
    clearing is not retried. *)
Theorem settled_orders_are_left_alone (cycles : list (World * list ClosedOrder.t))
    (st : Manager) (id : Z) :
  isInitialized st = true ->
  not_pending st id ->
  trackedOrders (reconcile_cycles cycles st) !! id = trackedOrders st !! id
  /\ clearings id (reconcile_cycles cycles st) = clearings id st.
Proof.
  unfold reconcile_cycles. revert st.
  induction cycles as [| [w cos] rest IH]; intros st Hi Hnp; [split; reflexivity |].
  cbn [fold_left fst snd].
  destruct (updateOrderStatus_settled w cos st id Hi Hnp) as (Hl & Hc & Hi').
  assert (Hnp' : not_pending (updateOrderStatus w cos st) id).
  { intros o. rewrite Hl. apply Hnp. }
  destruct (IH _ Hi' Hnp') as [-> ->]. split; assumption.
Qed.

(** Order 7 ended in error; two more cycles report it as filled. *)
Lemma settled_orders_are_left_alone_witness :
  let st := updateOrderStatus rejecting_world [ClosedOrder.mk 7 2 "9/9"] tracked_manager in
  let cycles := [(calm_world, [ClosedOrder.mk 7 2 "9/9"]);
                 (calm_world, [ClosedOrder.mk 7 2 "9/9"])] in
  trackedOrders (reconcile_cycles cycles st) !! 7 = trackedOrders st !! 7
  /\ clearings 7 (reconcile_cycles cycles st) = clearings 7 st.
Proof.
  intros st cycles. apply (settled_orders_are_left_alone cycles st 7).
  - reflexivity.
  - intros o Ho. vm_compute in Ho. injection Ho as <-. discriminate.
Defined.


(** * The selection grid *)

Section GridProperties.
Context {Item : Type}.
Implicit Types (rows : list (option (list (option Item)))) (g : GridManager Item).

Lemma occupied_in_range rows (x y : Z) :
  occupied rows x y = true -> 0 <= x /\ 0 <= y < Z.of_nat (length rows).
Proof.
  unfold occupied, item_at. intros H. apply bool_decide_eq_true in H.
  destruct (x <? 0) eqn:Ex; [by destruct H |].
  destruct (y <? 0) eqn:Ey; [by destruct H |].
  cbn [orb] in H. apply Z.ltb_ge in Ex, Ey.
  destruct (rows !! Z.to_nat y) as [row |] eqn:Hrow; [| by destruct H].
  apply lookup_lt_Some in Hrow. lia.
Qed.

Lemma clamped_start rows (newX cursorY : Z) : clamped rows newX cursorY 0 (-1, None).
Proof.
  unfold clamped. cbn [fst snd]. split; [| split; [| split]].
  - intros _. split; [reflexivity |]. intros y Hy. lia.
  - intros H. lia.
  - intros y Hy Ho _. apply occupied_in_range in Ho. lia.
  - intros y Hy Ho _. apply occupied_in_range in Ho. lia.
Qed.

Lemma clamped_step rows (newX cursorY k : Z) (best : Z * option Z) :
  0 <= k ->
  clamped rows newX cursorY k best ->
  clamped rows newX cursorY (k + 1) (closer rows newX cursorY best k).
Proof.
  intros Hk (Hnone & Hsome & Hup & Hdown). destruct best as [bestY bestDistance].
  cbn [fst snd] in *. unfold closer.
  assert (Hbest : bestY = -1
                  \/ (occupied rows newX bestY = true /\ 0 <= bestY < k
                      /\ bestDistance = Some (Z.abs (bestY - cursorY)))).
  { destruct (decide (bestY = -1)) as [| Hne]; [by left | right].
    destruct (Hsome Hne) as (Ho & Hlt & Hd). pose proof (occupied_in_range _ _ _ Ho). 
    repeat split; try assumption; lia. }
  assert (Hempty : bestY = -1 -> forall y, y < k -> occupied rows newX y = true -> False).
  { intros Hb y Hy Ho. pose proof (occupied_in_range _ _ _ Ho) as Hr.
    rewrite (proj2 (Hnone Hb) y) in Ho; [discriminate | lia]. }
  destruct (occupied rows newX k) eqn:Hocc.
  - destruct (k <=? cursorY) eqn:Hle.
    + apply Z.leb_le in Hle.
      assert (Hupd : match bestDistance with
                     | None => true
                     | Some d => (Z.abs (k - cursorY) <? d)
                                 || ((Z.abs (k - cursorY) =? d) && (bestY <? k))
                     end = true).
      { destruct bestDistance as [d |]; [| reflexivity].
        destruct Hbest as [Hb | (_ & Hr & [= ->])].
        - destruct (Hnone Hb) as [Hd _]. discriminate.
        - apply orb_true_iff. left. apply Z.ltb_lt. lia. }
      rewrite Hupd. unfold clamped. cbn [fst snd]. split; [| split; [| split]].
      * intros Hb. lia.
      * intros _. repeat split; [exact Hocc | lia].
      * intros y Hy Ho Hyc. lia.
      * intros y Hy Ho Hyc. lia.
    + apply Z.leb_gt in Hle. destruct Hbest as [-> | (Hbo & Hr & Hd)].
      * rewrite Z.eqb_refl. cbn [orb]. unfold clamped. cbn [fst snd]. split; [| split; [| split]].
        -- intros Hb. lia.
        -- intros _. repeat split; [exact Hocc | lia].
        -- intros y Hy Ho Hyc. exfalso. apply (Hempty eq_refl y); [lia | exact Ho].
        -- intros y Hy Ho Hyc. destruct (decide (y = k)) as [-> | Hne]; [lia |].
           exfalso. apply (Hempty eq_refl y); [lia | exact Ho].
      * assert (E : ((bestY =? -1) || (k <? bestY)) = false).
        { apply orb_false_iff. split; [apply Z.eqb_neq | apply Z.ltb_ge]; lia. }
        rewrite E. unfold clamped. cbn [fst snd]. split; [| split; [| split]].
        -- intros ->. lia.
        -- intros _. repeat split; [exact Hbo | lia | exact Hd].
        -- intros y Hy Ho Hyc. apply (Hup y); [lia | exact Ho | exact Hyc].
        -- intros y Hy Ho Hyc. destruct (decide (y = k)) as [-> | Hne]; [lia |].
           apply (Hdown y); [lia | exact Ho | exact Hyc].
  - unfold clamped. cbn [fst snd]. split; [| split; [| split]].
    + intros Hb. split; [apply (Hnone Hb) |].
      intros y Hy. destruct (decide (y = k)) as [-> | Hne]; [exact Hocc |].
      apply (Hnone Hb). lia.
    + intros Hb. destruct (Hsome Hb) as (Ho & Hlt & Hd). repeat split; [exact Ho | lia | exact Hd].
    + intros y Hy Ho Hyc. destruct (decide (y = k)) as [-> | Hne]; [congruence |].
      apply (Hup y); [lia | exact Ho | exact Hyc].
    + intros y Hy Ho Hyc. destruct (decide (y = k)) as [-> | Hne]; [congruence |].
      apply (Hdown y); [lia | exact Ho | exact Hyc].
Qed.

Lemma clamped_loop rows (newX cursorY : Z) (n : nat) :
  clamped rows newX cursorY (Z.of_nat n)
    (fold_left (closer rows newX cursorY) (seqZ 0 (Z.of_nat n)) (-1, None)).
Proof.
  induction n as [| n IH]; [apply clamped_start |].
  rewrite seqZ_S, fold_left_app. cbn [fold_left]. rewrite Z.add_0_l.
  replace (Z.of_nat (S n)) with (Z.of_nat n + 1) by lia.
  apply clamped_step; [lia | exact IH].
Qed.

Lemma occupied_test rows (x y : Z) :
  (0 <=? y) && (y <? Z.of_nat (length rows)) && occupied rows x y = occupied rows x y.
Proof.
  destruct (occupied rows x y) eqn:Ho; [| apply andb_false_r].
  apply occupied_in_range in Ho. rewrite andb_true_r.
  apply andb_true_iff. split; [apply Z.leb_le | apply Z.ltb_lt]; lia.
Qed.

End GridProperties.

(** X27: a move of the cursor lands on an item or does not happen.
    [moveCursor] never changes the grid; when it returns true the cursor
    is on a cell that holds an item, whatever the offsets and wherever
    the cursor was, and when it returns false the cursor has not
    moved. *)
Theorem moveCursor_lands_on_an_item {Item : Type} (dx dy : Z) (g : GridManager Item) :
  grid (moveCursor dx dy g).2 = grid g
  /\ if (moveCursor dx dy g).1
     then is_Some (getCurrentSelection (moveCursor dx dy g).2)
     else (moveCursor dx dy g).2 = g.
Proof.
  unfold moveCursor, getCurrentSelection. rewrite occupied_test.
  destruct (occupied (grid g) (cursorX g + dx) (cursorY g + dy)) eqn:Hdirect.
  { cbn [fst snd grid cursorX cursorY]. split; [reflexivity |].
    by apply bool_decide_eq_true in Hdirect. }
  destruct (negb (dy =? 0) && (dx =? 0)).
  { destruct (find _ _) as [y |] eqn:Hfind; cbn [fst snd grid cursorX cursorY];
      [| split; reflexivity].
    split; [reflexivity |]. apply find_some in Hfind as [_ Ho].
    by apply bool_decide_eq_true in Ho. }
  destruct (negb (dx =? 0) && (dy =? 0) && (0 <=? cursorX g + dx));
    [| split; reflexivity].
  pose proof (clamped_loop (grid g) (cursorX g + dx) (cursorY g) (length (grid g))) as Hc.
  destruct (fold_left _ _ _) as [bestY bestDistance]. cbn [fst snd] in *.
  destruct (bestY =? -1) eqn:E; cbn [negb fst snd grid cursorX cursorY];
    [split; reflexivity |].
  split; [reflexivity |]. apply Z.eqb_neq in E.
  destruct Hc as (_ & Hsome & _). destruct (Hsome E) as (Ho & _).
  by apply bool_decide_eq_true in Ho.
Qed.

(** X28: a horizontal move clamps to the nearest row of the target
    column.  For a move by [dx] columns to a column that is not negative,
    [moveCursor] succeeds exactly when the target column holds an item;
    the cursor then goes to that column, on the lowest row that holds an
    item among the rows at or above the cursor row (the row with the
    largest y not above cursorY), and, if there is none, on the first
    row below that holds one. *)
Theorem horizontal_move_clamps {Item : Type} (dx : Z) (g : GridManager Item) :
  dx <> 0 -> 0 <= cursorX g + dx ->
  let x := cursorX g + dx in
  let moved := moveCursor dx 0 g in
  (moved.1 = true <-> exists y, occupied (grid g) x y = true)
  /\ (moved.1 = true ->
        cursorX moved.2 = x
        /\ occupied (grid g) x (cursorY moved.2) = true
        /\ (forall y, occupied (grid g) x y = true -> y <= cursorY g ->
              y <= cursorY moved.2 <= cursorY g)
        /\ (forall y, occupied (grid g) x y = true -> cursorY g < y ->
              cursorY moved.2 <= y)).
Proof.
  intros Hdx Hx x moved. subst moved. unfold moveCursor. fold x.
  rewrite occupied_test, Z.add_0_r.
  destruct (occupied (grid g) x (cursorY g)) eqn:Hdirect.
  { cbn [fst snd cursorX cursorY]. split; [split; [by eexists | reflexivity] |].
    intros _. repeat split; try assumption; lia. }
  assert (E1 : (negb (0 =? 0) && (dx =? 0)) = false) by reflexivity.
  assert (E2 : (negb (dx =? 0) && (0 =? 0) && (0 <=? x)) = true).
  { apply andb_true_iff. split; [| apply Z.leb_le; exact Hx].
    rewrite andb_true_r. apply negb_true_iff, Z.eqb_neq, Hdx. }
  rewrite E1, E2.
  pose proof (clamped_loop (grid g) x (cursorY g) (length (grid g))) as Hc.
  destruct (fold_left _ _ _) as [bestY bestDistance]. cbn [fst snd] in *.
  destruct Hc as (Hnone & Hsome & Hup & Hdown).
  destruct (bestY =? -1) eqn:E; cbn [negb fst snd cursorX cursorY].
  - apply Z.eqb_eq in E. split; [| discriminate].
    split; [discriminate |]. intros [y Ho]. pose proof (occupied_in_range _ _ _ Ho) as Hr.
    rewrite (proj2 (Hnone E) y) in Ho; [discriminate | lia].
  - apply Z.eqb_neq in E. destruct (Hsome E) as (Ho & Hlt & _).
    split; [split; [by eexists | reflexivity] |].
    intros _. split; [reflexivity |]. split; [exact Ho |]. split.
    + intros y Hy Hyc. apply (Hup y); [| exact Hy | exact Hyc].
      apply occupied_in_range in Hy. lia.
    + intros y Hy Hyc. apply (Hdown y); [| exact Hy | exact Hyc].
      apply occupied_in_range in Hy. lia.
Qed.

Lemma horizontal_move_clamps_witness :
  let x := cursorX sample_grid + 1 in
  let moved := moveCursor 1 0 sample_grid in
  (moved.1 = true <-> exists y, occupied (grid sample_grid) x y = true)
  /\ (moved.1 = true ->
        cursorX moved.2 = x
        /\ occupied (grid sample_grid) x (cursorY moved.2) = true
        /\ (forall y, occupied (grid sample_grid) x y = true -> y <= cursorY sample_grid ->
              y <= cursorY moved.2 <= cursorY sample_grid)
        /\ (forall y, occupied (grid sample_grid) x y = true -> cursorY sample_grid < y ->
              cursorY moved.2 <= y)).
Proof.
  apply (horizontal_move_clamps 1 sample_grid).
  - lia.
  - cbn. lia.
Defined.

Lemma find_upward (f : Z -> bool) (start : Z) (n : nat) (x : Z) :
  find f (seqZ start (Z.of_nat n)) = Some x ->
  f x = true /\ start <= x < start + Z.of_nat n
  /\ forall y, start <= y < x -> f y = false.
Proof.
  revert start. induction n as [| n IH]; intros start; [discriminate |].
  rewrite seqZ_cons by lia. cbn [find].
  replace (Z.pred (Z.of_nat (S n))) with (Z.of_nat n) by lia.
  destruct (f start) eqn:Hs.
  - intros [= <-]. repeat split; [exact Hs | lia | lia | intros y Hy; lia].
  - intros H. destruct (IH _ H) as (Hx & Hr & Hbefore).
    repeat split; [exact Hx | lia | lia |].
    intros y Hy. destruct (decide (y = start)) as [-> | Hne]; [exact Hs |].
    apply Hbefore. lia.
Qed.

Lemma find_downward (f : Z -> bool) (n : nat) (x : Z) :
  find f (reverse (seqZ 0 (Z.of_nat n))) = Some x ->
  f x = true /\ 0 <= x < Z.of_nat n
  /\ forall y, x < y < Z.of_nat n -> f y = false.
Proof.
  induction n as [| n IH]; [discriminate |].
  rewrite seqZ_S, reverse_app. cbn [reverse rev_append app find]. rewrite Z.add_0_l.
  change (rev_append (seqZ 0 (Z.of_nat n)) []) with (reverse (seqZ 0 (Z.of_nat n))).
  destruct (f (Z.of_nat n)) eqn:Hs.
  - intros [= <-]. repeat split; [exact Hs | lia | lia | intros y Hy; lia].
  - intros H. destruct (IH H) as (Hx & Hr & Hafter).
    repeat split; [exact Hx | lia | lia |].
    intros y Hy. destruct (decide (y = Z.of_nat n)) as [-> | Hne]; [exact Hs |].
    apply Hafter. lia.
Qed.

(** X29: a vertical move goes to the next item of the column.  When a
    move by [dy] rows within the column succeeds, the cursor stays in
    its column and lands on an item; moving down it lands on the first
    row at or after the target row that holds an item, and moving up on
    the first row at or before the target row (row 0 if the target is
    above the grid) that holds one: no item of the column is jumped
    over. *)
Theorem vertical_move_finds_the_next_item {Item : Type} (dy : Z) (g : GridManager Item) :
  dy <> 0 ->
  let moved := moveCursor 0 dy g in
  let start := Z.max 0 (cursorY g + dy) in
  moved.1 = true ->
  cursorX moved.2 = cursorX g
  /\ occupied (grid g) (cursorX g) (cursorY moved.2) = true
  /\ (0 < dy ->
        cursorY g + dy <= cursorY moved.2
        /\ forall y, cursorY g + dy <= y < cursorY moved.2 ->
             occupied (grid g) (cursorX g) y = false)
  /\ (dy < 0 ->
        cursorY moved.2 <= start
        /\ forall y, cursorY moved.2 < y <= start ->
             occupied (grid g) (cursorX g) y = false).
Proof.
  intros Hdy moved start. subst moved. unfold moveCursor.
  rewrite Z.add_0_r.
  assert (Htest : forall rows x y,
             (0 <=? y) && (y <? Z.of_nat (length rows)) && @occupied Item rows x y
             = occupied rows x y).
  { intros rows x y. destruct (occupied rows x y) eqn:Ho; [| apply andb_false_r].
    unfold occupied, item_at in Ho. apply bool_decide_eq_true in Ho.
    destruct (x <? 0) eqn:Ex; [by destruct Ho |].
    destruct (y <? 0) eqn:Ey; [by destruct Ho |].
    cbn [orb] in Ho. apply Z.ltb_ge in Ey.
    destruct (rows !! Z.to_nat y) as [row |] eqn:Hrow; [| by destruct Ho].
    apply lookup_lt_Some in Hrow. rewrite andb_true_r.
    apply andb_true_iff. split; [apply Z.leb_le | apply Z.ltb_lt]; lia. }
  rewrite Htest.
  destruct (occupied (grid g) (cursorX g) (cursorY g + dy)) eqn:Hdirect.
  { cbn [fst snd cursorX cursorY]. intros _.
    assert (Hr : 0 <= cursorY g + dy).
    { unfold occupied, item_at in Hdirect. apply bool_decide_eq_true in Hdirect.
      destruct (cursorX g <? 0); [by destruct Hdirect |].
      destruct (cursorY g + dy <? 0) eqn:Ey; [by destruct Hdirect |].
      by apply Z.ltb_ge in Ey. }
    split; [reflexivity |]. split; [exact Hdirect |]. subst start.
    split; intros _; (split; [lia |]); intros y Hy; lia. }
  assert (E : (negb (dy =? 0) && (0 =? 0)) = true).
  { rewrite andb_true_r. apply negb_true_iff, Z.eqb_neq, Hdy. }
  rewrite E. unfold rows_searched. fold start.
  destruct (find _ _) as [y |] eqn:Hfind; cbn [fst snd cursorX cursorY]; [| discriminate].
  intros _. split; [reflexivity |].
  destruct (0 <? dy) eqn:Hpos.
  - apply Z.ltb_lt in Hpos.
    destruct (decide (start <= Z.of_nat (length (grid g)))) as [Hle | Hgt].
    + replace (Z.of_nat (length (grid g)) - start)
        with (Z.of_nat (Z.to_nat (Z.of_nat (length (grid g)) - start))) in Hfind by lia.
      apply find_upward in Hfind as (Ho & Hr & Hbefore).
      split; [exact Ho |]. split; [| lia]. intros _. split; [lia |].
      intros y' Hy'. destruct (decide (start <= y')) as [Hs | Hs]; [apply Hbefore; lia |].
      apply not_true_is_false. intros Ho'.
      assert (0 <= y'); [| lia].
      unfold occupied, item_at in Ho'. apply bool_decide_eq_true in Ho'.
      destruct (cursorX g <? 0); [by destruct Ho' |].
      destruct (y' <? 0) eqn:Ey; [by destruct Ho' |].
      by apply Z.ltb_ge in Ey.
    + rewrite seqZ_nil in Hfind by lia. discriminate.
  - apply Z.ltb_ge in Hpos.
    destruct (start <? Z.of_nat (length (grid g))) eqn:Hin; [| discriminate].
    replace (start + 1) with (Z.of_nat (Z.to_nat (start + 1))) in Hfind by lia.
    apply find_downward in Hfind as (Ho & Hr & Hafter).
    split; [exact Ho |]. split; [lia |]. intros _. split; [lia |].
    intros y' Hy'. apply Hafter. lia.
Qed.

(** From (0,0) in the sample grid, a move down skips the empty cell
    (0,1) and lands on (0,2). *)
Lemma vertical_move_finds_the_next_item_witness :
  let moved := moveCursor 0 1 sample_grid in
  let start := Z.max 0 (cursorY sample_grid + 1) in
  cursorX moved.2 = cursorX sample_grid
  /\ occupied (grid sample_grid) (cursorX sample_grid) (cursorY moved.2) = true
  /\ (0 < 1 ->
        cursorY sample_grid + 1 <= cursorY moved.2
        /\ forall y, cursorY sample_grid + 1 <= y < cursorY moved.2 ->
             occupied (grid sample_grid) (cursorX sample_grid) y = false)
  /\ (1 < 0 ->
        cursorY moved.2 <= start
        /\ forall y, cursorY moved.2 < y <= start ->
             occupied (grid sample_grid) (cursorX sample_grid) y = false).
Proof.
  apply (vertical_move_finds_the_next_item 1 sample_grid); [lia | reflexivity].
Defined.

(** * The request monitor *)

Lemma filter_all {A : Type} (P : A -> Prop) `{forall x, Decision (P x)} (l : list A) :
  Forall P l -> filter P l = l.
Proof.
  induction 1 as [| x l Hx _ IH]; [reflexivity |].
  rewrite filter_cons, decide_True by exact Hx. by rewrite IH.
Qed.

Lemma shift_before_sorted (cutoff : Z) (timestamps : list Z) :
  StronglySorted Z.le timestamps ->
  shift_before cutoff timestamps = filter (fun t => cutoff <= t) timestamps.
Proof.
  induction 1 as [| t rest Hs IH Hall]; [reflexivity |].
  cbn [shift_before]. rewrite filter_cons. destruct (t <? cutoff) eqn:E.
  - apply Z.ltb_lt in E. rewrite decide_False by lia. exact IH.
  - apply Z.ltb_ge in E. rewrite decide_True by lia. f_equal.
    symmetry. apply filter_all. eapply Forall_impl; [exact Hall |].
    intros y Hy. cbn in Hy. lia.
Qed.

Lemma filter_later (c c' : Z) (l : list Z) :
  c <= c' ->
  filter (fun t => c' <= t) (filter (fun t => c <= t) l) = filter (fun t => c' <= t) l.
Proof.
  intros Hc. induction l as [| t l IH]; [reflexivity |].
  rewrite !filter_cons. destruct (decide (c <= t)) as [H1 | H1].
  - rewrite filter_cons. destruct (decide (c' <= t)); by rewrite IH.
  - rewrite decide_False by lia. exact IH.
Qed.

Lemma sorted_filter (P : Z -> Prop) `{forall x, Decision (P x)} (l : list Z) :
  StronglySorted Z.le l -> StronglySorted Z.le (filter P l).
Proof.
  induction 1 as [| t rest Hs IH Hall]; [constructor |].
  rewrite filter_cons. destruct (decide (P t)); [| exact IH].
  constructor; [exact IH |]. rewrite Forall_forall in Hall |- *.
  intros y Hy. apply Hall. by apply list_elem_of_filter in Hy as [_ Hy].
Qed.

Lemma monitored_snoc (domain : string) (requests : list (string * Z)) (r : string * Z) :
  monitored domain (requests ++ [r])
  = monitored domain requests ++ (if includes domain r.1 then [r.2] else []).
Proof.
  unfold monitored. rewrite filter_app, fmap_app. f_equal.
  rewrite filter_cons, filter_nil. destruct (includes domain r.1); reflexivity.
Qed.

Lemma monitored_times (domain : string) (requests : list (string * Z)) (t : Z) :
  t ∈ monitored domain requests -> t ∈ requests.*2.
Proof.
  unfold monitored. rewrite !list_elem_of_fmap. intros [r [-> Hr]].
  apply list_elem_of_filter in Hr as [_ Hr]. by exists r.
Qed.

Lemma monitored_sorted (domain : string) (requests : list (string * Z)) :
  StronglySorted Z.le requests.*2 -> StronglySorted Z.le (monitored domain requests).
Proof.
  induction requests as [| r requests IH] using rev_ind; [constructor |].
  rewrite fmap_app, monitored_snoc. intros Hs.
  apply StronglySorted_app in Hs as (Hle & Hs & _).
  destruct (includes domain r.1); [| rewrite app_nil_r; by apply IH].
  apply StronglySorted_app. split; [| split; [by apply IH | repeat constructor]].
  intros x1 x2 Hx1 Hx2. apply Hle; [by eapply monitored_times |].
  apply list_elem_of_singleton in Hx2. subst x2. cbn. left.
Qed.

Lemma record_all_fields (requests : list (string * Z)) (m : NetworkPerformance) :
  windowSize (record_all requests m) = windowSize m
  /\ targetDomain (record_all requests m) = targetDomain m.
Proof.
  unfold record_all. revert m. induction requests as [| r requests IH]; intros m;
    [split; reflexivity |].
  cbn [fold_left]. destruct (IH (recordRequest r.1 r.2 m)) as [-> ->].
  unfold recordRequest. destruct (includes _ _); split; reflexivity.
Qed.

(** X30: the monitor holds a sliding window.  When the clock does not
    run backwards, after any sequence of requests recorded from an empty
    monitor the timestamps held are those of the requests to the target
    domain that were made no more than [windowSize] before the last such
    request, in the order in which they were made; requests to other
    hosts are not counted at all. *)
Theorem monitor_holds_a_sliding_window (requests : list (string * Z))
    (m : NetworkPerformance) :
  requestTimestamps m = [] ->
  StronglySorted Z.le requests.*2 ->
  requestTimestamps (record_all requests m)
  = window (windowSize m) (monitored (targetDomain m) requests).
Proof.
  intros Hempty. induction requests as [| r requests IH] using rev_ind.
  - intros _. exact Hempty.
  - rewrite fmap_app. intros Hs. pose proof Hs as Hs'.
    apply StronglySorted_app in Hs' as (Hle & Hprefix & _).
    specialize (IH Hprefix).
    assert (Hstep : record_all (requests ++ [r]) m
                    = recordRequest r.1 r.2 (record_all requests m))
      by (unfold record_all; by rewrite fold_left_app).
    rewrite Hstep. clear Hstep.
    destruct (record_all_fields requests m) as [Hw Hd].
    destruct (record_all requests m) as [size domain timestamps].
    cbn [windowSize targetDomain requestTimestamps] in *. subst size domain timestamps.
    rewrite monitored_snoc. unfold recordRequest. cbn [targetDomain].
    destruct (includes (targetDomain m) r.1); [| by rewrite app_nil_r].
    unfold cleanup. cbn [requestTimestamps windowSize].
    set (times := monitored (targetDomain m) requests).
    assert (Hbefore : forall t, t ∈ times -> t <= r.2).
    { intros t Ht. apply Hle; [by eapply monitored_times |]. cbn. left. }
    assert (Htimes : StronglySorted Z.le times) by by apply monitored_sorted.
    unfold window at 2. rewrite last_snoc.
    assert (Hwin : Forall (fun t => t <= r.2) (window (windowSize m) times)
                   /\ StronglySorted Z.le (window (windowSize m) times)
                   /\ filter (fun t => r.2 - windowSize m <= t) (window (windowSize m) times)
                      = filter (fun t => r.2 - windowSize m <= t) times).
    { unfold window. destruct (last times) as [n |] eqn:Hlast.
      - split; [| split].
        + apply Forall_forall. intros t Ht. apply Hbefore.
          by apply list_elem_of_filter in Ht as [_ Ht].
        + by apply sorted_filter.
        + apply filter_later. assert (n <= r.2); [| lia].
          apply Hbefore. apply last_Some in Hlast as [l' ->].
          apply elem_of_app. right. left.
      - apply last_None in Hlast. rewrite Hlast. repeat split; constructor. }
    destruct Hwin as (Hwle & Hwsorted & Hwfilter).
    rewrite shift_before_sorted.
    + by rewrite !filter_app, Hwfilter.
    + apply StronglySorted_app. split; [| split; [exact Hwsorted | repeat constructor]].
      intros x1 x2 Hx1 Hx2. apply list_elem_of_singleton in Hx2. subst x2.
      rewrite Forall_forall in Hwle. by apply Hwle.
Qed.

Lemma monitor_holds_a_sliding_window_witness :
  let requests :=
    [("https://proxy.opinion.trade:8443/api/bsc/api/v2/order/market/depth", 1000);
     ("https://api.telegram.org/bot", 2000);
     ("https://proxy.opinion.trade:8443/api/bsc/api/v2/order", 12000)]%string in
  let m := new_NetworkPerformance None None in
  requestTimestamps (record_all requests m)
  = window (windowSize m) (monitored (targetDomain m) requests).
Proof.
  intros requests m. apply (monitor_holds_a_sliding_window requests m).
  - reflexivity.
  - repeat constructor; cbn; lia.
Defined.


(** * Properties of the program on binary64

    From here on [parseFloat], [toFixed], [trackedOrders], [reconcile],
    [attempt_clear], [detectOrderChanges] and the other names of the
    program are those of module [Binary64]. *)

Import Binary64.

(** ** Doubles *)

(** [parseFloat] reads a literal to the nearest double, a tie to the
    even mantissa, past the largest double to an infinity, and keeps the
    sign of a zero. *)
Example parseFloat_rounds_to_the_nearest_double :
  Prim2SF (parseFloat "0.1") = S754_finite false 7205759403792794 (-56)
  /\ parseFloat "0.1" = float_lit 1 1
  /\ parseFloat " 12.5px" = float_lit 125 1
  /\ parseFloat "9007199254740993" = float_of_Z 9007199254740992
  /\ parseFloat "9007199254740995" = float_of_Z 9007199254740996
  /\ parseFloat "1e400" = PrimFloat.infinity
  /\ parseFloat "-1e-400" = PrimFloat.neg_zero
  /\ parseFloat "-0" = PrimFloat.neg_zero
  /\ PrimFloat.is_nan (parseFloat "n/a") = true.
Proof. vm_compute. repeat split; reflexivity. Qed.

(** [toFixed] prints the digits of the double, not of the literal it was
    read from: 1.005 and 10.00005 are doubles below these decimals. *)
Example toFixed_prints_the_double :
  toFixed 2 (parseFloat "1.005") = Fixed 2 100
  /\ toFixed 4 (parseFloat "10.00005") = Fixed 4 100000
  /\ toFixed 0 (parseFloat "2.5") = Fixed 0 3
  /\ toFixed 0 (parseFloat "-2.5") = Fixed 0 (-3)
  /\ toFixed 4 (parseFloat "0.000989") = Fixed 4 10
  /\ toFixed 4 PrimFloat.neg_zero = Fixed 4 0
  /\ toFixed 4 PrimFloat.nan = NaNText
  /\ numeral_value (toFixed 4 (parseFloat "9.306")) = parseFloat "9.306".
Proof. vm_compute. repeat split; reflexivity. Qed.

Lemma positive_finite_SF (x : float) :
  positive_finite x = true -> exists m e, Prim2SF x = S754_finite false m e.
Proof.
  unfold positive_finite. rewrite andb_true_iff, !FloatAxioms.ltb_spec.
  change (Prim2SF PrimFloat.zero) with (S754_zero false).
  change (Prim2SF PrimFloat.infinity) with (S754_infinity false).
  destruct (Prim2SF x) as [s | s | | s m e]; cbn; intros [H1 H2]; try discriminate.
  - destruct s; discriminate.
  - destruct s; [discriminate |]. eauto.
Qed.







Lemma positive_finite_unsigned (x : float) :
  positive_finite x = true -> unsigned_SF (Prim2SF x).
Proof. intros H. destruct (positive_finite_SF x H) as (m & e & ->). exact I. Qed.




(** ** Registry and reverse-order submission *)





(** ** The document written by [save] *)

























Section Binary64Attempt.
Variables (w : World) (o : TrackedOrder.t) (config api : OrderBookConfig).
Hypothesis Hside : TrackedOrder.side o = 1.
Hypothesis Hshares : invalid_filledShares (TrackedOrder.filledShares o) = false.
Hypothesis Htopic : getTopicInfo w (TrackedOrder.topicId o) = inr tt.
Hypothesis Hconfig : getOrderBookConfig w (TrackedOrder.topicId o) = inr (Some config).
Hypothesis Hapi : new_OrderBookAPI (Some config) = inr api.

Lemma binary64_book_error_fails (message : string) :
  OrderBook.error (getOrderBook w api (TrackedOrder.position o)) = Some message ->
  truthy_text (Some message) = true ->
  attempt_clear w o = Failed ("无法获取订单簿: " ++ message).
Proof using Hside Hshares Htopic Hconfig Hapi.
  intros He Ht. unfold attempt_clear.
  rewrite Hside, Hshares, Htopic, Hconfig, Hapi. cbn [negb Z.eqb].
  rewrite He, Ht. reflexivity.
Qed.

Lemma binary64_no_safe_price_fails :
  let orderBook := getOrderBook w api (TrackedOrder.position o) in
  truthy_text (OrderBook.error orderBook) = false ->
  is_Some (OrderBook.bids orderBook) -> is_Some (OrderBook.asks orderBook) ->
  calculateClearPrice
    (PrimFloat.div (toNumber (TrackedOrder.price o)) (float_of_Z 100)) orderBook = None ->
  attempt_clear w o = Failed "无法计算安全的清理价格（盘口异常）".
Proof using Hside Hshares Htopic Hconfig Hapi.
  intros orderBook He Hb Ha Hp. unfold attempt_clear.
  rewrite Hside, Hshares, Htopic, Hconfig, Hapi. cbn [negb Z.eqb].
  fold orderBook. rewrite He, Hp.
  rewrite !bool_decide_eq_true_2 by assumption. reflexivity.
Qed.

Lemma binary64_rejected_sell_fails (clearPrice : float) (message : string) :
  let orderBook := getOrderBook w api (TrackedOrder.position o) in
  truthy_text (OrderBook.error orderBook) = false ->
  is_Some (OrderBook.bids orderBook) -> is_Some (OrderBook.asks orderBook) ->
  calculateClearPrice
    (PrimFloat.div (toNumber (TrackedOrder.price o)) (float_of_Z 100)) orderBook
  = Some clearPrice ->
  float_falsy clearPrice = false ->
  sellByTopic w
    (SellRequest.mk (TrackedOrder.topicId o) (TrackedOrder.position o)
       (toFixed 2 (PrimFloat.mul clearPrice (float_of_Z 100)))
       (toFixed 4 (toNumber (TrackedOrder.filledShares o)))) = inl message ->
  attempt_clear w o = Failed message.
Proof using Hside Hshares Htopic Hconfig Hapi.
  intros orderBook He Hb Ha Hp Hf Hs. unfold attempt_clear.
  rewrite Hside, Hshares, Htopic, Hconfig, Hapi. cbn [negb Z.eqb].
  fold orderBook. rewrite He, Hp, Hf, Hs.
  rewrite !bool_decide_eq_true_2 by assumption. reflexivity.
Qed.
End Binary64Attempt.



(** ** Fill classification in [updateOrderStatus] *)




(** ** The filled-share count *)





(** ** Snapshot differ *)








